(** * RAiDER: orbit acquisition and the epoch batch driver

    A shallow embedding of
      - [tools/RAiDER/s1_orbits.py]: [ensure_orbit_credentials],
        [get_orbits_from_slc_ids], [download_eofs];
      - [tools/RAiDER/cli/__main__.py]: [drop_nans],
        [read_template_file] and [calcDelays], from the parsed
        arguments to [return delay_dct].

    Python built-ins used by that code ([str.replace], [str.endswith],
    [re.split], [os.path.splitext], [os.path.join], [str.lower]) are
    modelled in [PyStr] and next to their use, and the [netrc] module
    of CPython 3.11 in [CPythonNetrc].  External collaborators (the
    orbit provider client, the weather-model and delay engines, the
    writers, the YAML loader and the validators, the file system,
    [checkArgs]) are interfaces, given as type classes over an abstract
    state of their own, so every theorem holds for every behaviour they
    may have; the theorems on [ensure_orbit_credentials] hold for every
    [netrc] library as well, and the CPython one is used to run the
    code on concrete stores.  [argparse] is outside the model. *)

From Stdlib Require Import ZArith String Ascii List Lia Bool.
From stdpp Require Import base option list gmap strings.

Local Open Scope string_scope.

(** ** Python exceptions that the modelled code raises or lets through

    [CountMismatch missing dts got] is
    [Exception(f'Missing {missing} orbit files! dts={dts}, orb_files={got}')];
    [RuntimeError] stands for the class and its subclasses, which is what
    [except RuntimeError] catches; [OtherError] is any other exception
    class raised by an external collaborator. *)

Inductive exn : Type :=
| ValueError (msg : string)
| IndexError
| RuntimeError (msg : string)
| CountMismatch (missing : Z) (dts : list string) (got : nat)
| OtherError (name : string).

Definition is_RuntimeError (e : exn) : bool :=
  match e with RuntimeError _ => true | _ => false end.

(** ** Python string built-ins *)

Module PyStr.

(** [s[0:n]] *)
Fixpoint slice_to (n : nat) (s : string) : string :=
  match n, s with
  | S k, String c r => String c (slice_to k r)
  | _, _ => ""
  end.

(** [s.startswith(p)] *)
Fixpoint startswith (p s : string) : bool :=
  match p, s with
  | EmptyString, _ => true
  | String a p', String b s' => Ascii.eqb a b && startswith p' s'
  | String _ _, EmptyString => false
  end.

(** [s.endswith(suf)]: [s] is [suf], or the tail of [s] ends with [suf]. *)
Fixpoint endswith (suf s : string) : bool :=
  String.eqb s suf ||
  match s with
  | EmptyString => false
  | String _ r => endswith suf r
  end.

(** [s.replace(old, new)] for a non-empty [old] (every call site passes a
    literal): a left-to-right scan replacing each occurrence found and
    resuming after it.  [skip] counts the characters of the occurrence
    just replaced that are still to be passed over. *)
Fixpoint replace_go (old new : string) (skip : nat) (s : string) : string :=
  match s with
  | EmptyString => EmptyString
  | String c r =>
      match skip with
      | S k => replace_go old new k r
      | O =>
          if startswith old s
          then new +:+ replace_go old new (String.length old - 1) r
          else String c (replace_go old new 0 r)
      end
  end.

Definition py_replace (old new s : string) : string := replace_go old new 0 s.

Definition is_underscore (c : ascii) : bool := Ascii.eqb c "_"%char.

(** [re.split(r'_+', s)].  [in_sep] tells that the previous character was
    an underscore, so that a run of underscores separates only once.  The
    head of the result is the field being read. *)
Fixpoint split_fields (in_sep : bool) (s : string) : list string :=
  match s with
  | EmptyString => [EmptyString]
  | String c r =>
      if is_underscore c then
        if in_sep then split_fields true r
        else EmptyString :: split_fields true r
      else
        match split_fields false r with
        | fld :: flds => String c fld :: flds
        | [] => [String c EmptyString]
        end
  end.

Definition re_split_underscores (s : string) : list string :=
  split_fields false s.

(** [p.rfind(c)], as an index counted from [i]; [-1] when [c] is absent. *)
Fixpoint rfind_from (c : ascii) (s : string) (i : Z) : Z :=
  match s with
  | EmptyString => (-1)%Z
  | String a r =>
      let k := rfind_from c r (i + 1) in
      if (0 <=? k)%Z then k
      else if Ascii.eqb a c then i else (-1)%Z
  end.

Definition rfind (c : ascii) (s : string) : Z := rfind_from c s 0.

(** The [while] loop of [genericpath._splitext]: is there a character
    other than the dot among the [n] characters from [filenameIndex] on? *)
Fixpoint has_nondot (p : string) (filenameIndex n : nat) : bool :=
  match n with
  | O => false
  | S n' =>
      match String.get filenameIndex p with
      | Some c =>
          if Ascii.eqb c "."%char then has_nondot p (S filenameIndex) n'
          else true
      | None => true
      end
  end.

(** [os.path.splitext(p)] of [posixpath] ([sep = '/'], no [altsep]). *)
Definition splitext (p : string) : string * string :=
  let sepIndex := rfind "/"%char p in
  let dotIndex := rfind "."%char p in
  if (dotIndex >? sepIndex)%Z then
    if has_nondot p (Z.to_nat (sepIndex + 1))
                  (Z.to_nat (dotIndex - (sepIndex + 1)))
    then (String.substring 0 (Z.to_nat dotIndex) p,
          String.substring (Z.to_nat dotIndex)
                           (String.length p - Z.to_nat dotIndex) p)
    else (p, EmptyString)
  else (p, EmptyString).

End PyStr.

(** ** Results of calls that may raise *)

Inductive result (A : Type) : Type :=
| Ok (a : A)
| Raise (e : exn).
Arguments Ok {A} a.
Arguments Raise {A} e.

(** ** [s1_orbits.py] *)

Module Orbits.
Import PyStr.

Definition ESA_CDSE_HOST : string := "dataspace.copernicus.eu".

(** One [netrc] entry, the tuple [(login, account, password)].  The
    parser stores strings; line 45 stores what [os.environ.get]
    returned, [None] included. *)
Record credentials : Type :=
  Credentials { login : option string;
                account : option string;
                password : option string }.

(** A [netrc.netrc] object: the dicts [hosts] and [macros], in
    insertion order. *)
Record netrc_object : Type :=
  NetrcObject { hosts : list (string * credentials);
                macros : list (string * list string) }.

(** The store file at [_netrc_path()]: its permission bits and its
    text. *)
Record netrc_file : Type :=
  NetrcFile { mode : Z; content : string }.

(** What [ensure_orbit_credentials] reads and writes: the store file
    ([None]: no such file) and [os.environ]. *)
Record environment : Type :=
  Environment { netrc : option netrc_file; environ : gmap string string }.

(** Python's [netrc] module: [netrc.netrc(file)] on the text of the
    file, which may raise, and [str(netrc_credentials)], the text that
    [write_text] stores. *)
Class NetrcLib : Type :=
  { netrc_parse : string -> result netrc_object;
    netrc_str : netrc_object -> string }.

(** [dict] operations on association lists in insertion order:
    [k in d], [d.get(k)] and [d[k] = v] (in place when the key is
    there, at the end otherwise). *)
Section Assoc.
Context {V : Type}.

Fixpoint assoc_mem (k : string) (d : list (string * V)) : bool :=
  match d with
  | [] => false
  | (k', _) :: r => String.eqb k k' || assoc_mem k r
  end.

Fixpoint assoc_get (k : string) (d : list (string * V)) : option V :=
  match d with
  | [] => None
  | (k', v) :: r => if String.eqb k k' then Some v else assoc_get k r
  end.

Fixpoint assoc_set (k : string) (v : V) (d : list (string * V))
  : list (string * V) :=
  match d with
  | [] => [(k, v)]
  | (k', v') :: r =>
      if String.eqb k k' then (k, v) :: r else (k', v') :: assoc_set k v r
  end.

End Assoc.

Definition newline : string := String (ascii_of_nat 10) EmptyString.

Definition missing_credentials_msg : string :=
  "Credentials are required for fetching orbit data from dataspace.copernicus.eu!"
  +:+ newline +:+
  "Either add your credentials to ~/.netrc or set the ESA_USERNAME and ESA_PASSWORD "
  +:+ "environment variables.".

(** [netrc_file.touch(mode=0o600)] when the file is missing. *)
Definition open_store (e : environment) : netrc_file :=
  match netrc e with
  | Some nf => nf
  | None => NetrcFile 384 ""
  end.

Definition ensure_orbit_credentials {lib : NetrcLib} (e : environment)
  : environment * result (option nat) :=
  let nf := open_store e in
  let e1 := Environment (Some nf) (environ e) in
  match netrc_parse (content nf) with
  | Raise x => (e1, Raise x)
  | Ok netrc_credentials =>
      if assoc_mem ESA_CDSE_HOST (hosts netrc_credentials) then (e1, Ok None)
      else
        let username := environ e !! "ESA_USERNAME" in
        let password := environ e !! "ESA_PASSWORD" in
        match username, password with
        | None, None => (e1, Raise (ValueError missing_credentials_msg))
        | _, _ =>
            let hosts' :=
              assoc_set ESA_CDSE_HOST (Credentials username None password)
                        (hosts netrc_credentials) in
            let text :=
              netrc_str (NetrcObject hosts' (macros netrc_credentials)) in
            (Environment (Some (NetrcFile (mode nf) text)) (environ e),
             Ok (Some (String.length text)))
        end
  end.

(** What [eof.download.download_eofs] hands back: a list of paths or one
    path (the code tests [isinstance(orb_file, list)]). *)
Inductive reply : Type :=
| ReplyList (files : list string)
| ReplyPath (file : string).

(** The provider client [eof.download.download_eofs(dts, missions,
    save_dir=, force_asf=)] over its own state [P]. *)
Class EofClient (P : Type) :=
  eof_download_eofs :
    P -> list string -> list string -> string -> bool -> P * result reply.

Record call : Type :=
  Call { call_dts : list string;
         call_missions : list string;
         call_save_dir : string;
         call_force_asf : bool }.

(** The provider state, the calls made so far and the messages passed to
    [logger.error]. *)
Record session (P : Type) : Type :=
  Session { provider : P; calls : list call; errors_logged : list string }.
Arguments Session {P} _ _ _.
Arguments provider {P} _.
Arguments calls {P} _.
Arguments errors_logged {P} _.

Section Resolver.
Context {P : Type} {client : EofClient P}.

Definition eof_call (s : session P) (dt mission save_dir : string)
    (force_asf : bool) : session P * result reply :=
  let '(p', r) :=
    eof_download_eofs (provider s) [dt] [mission] save_dir force_asf in
  (Session p' (calls s ++ [Call [dt] [mission] save_dir force_asf])
           (errors_logged s), r).

(** [orb_file[0] if isinstance(orb_file, list) else orb_file] *)
Definition first_or_self (r : reply) : result string :=
  match r with
  | ReplyList (x :: _) => Ok x
  | ReplyList [] => Raise IndexError
  | ReplyPath x => Ok x
  end.

(** The two statements of either branch: the call, then the unwrapping. *)
Definition attempt (s : session P) (dt mission save_dir : string)
    (force_asf : bool) : session P * result string :=
  match eof_call s dt mission save_dir force_asf with
  | (s', Ok r) => (s', first_or_self r)
  | (s', Raise e) => (s', Raise e)
  end.

Definition log_error (s : session P) (msg : string) : session P :=
  Session (provider s) (calls s) (errors_logged s ++ [msg]).

(** The body of the [for] loop: [try] with ASF forced, bare [except]
    retrying without. *)
Definition fetch_pair (s : session P) (dt mission save_dir : string)
  : session P * result string :=
  match attempt s dt mission save_dir true with
  | (s1, Ok orb_file) => (s1, Ok orb_file)
  | (s1, Raise _) =>
      attempt (log_error s1 "Could not download orbit from ASF, trying ESA...")
              dt mission save_dir false
  end.

Fixpoint download_loop (s : session P) (orb_files : list string)
    (pairs : list (string * string)) (save_dir : string)
  : session P * result (list string) :=
  match pairs with
  | [] => (s, Ok orb_files)
  | (dt, mission) :: rest =>
      match fetch_pair s dt mission save_dir with
      | (s', Ok orb_file) =>
          download_loop s' (orb_files ++ [orb_file]) rest save_dir
      | (s', Raise e) => (s', Raise e)
      end
  end.

(** The tokens are strings, so [dt] and [mission] are always wrapped
    into one-element lists. *)
Definition download_eofs (s : session P) (dts missions : list string)
    (save_dir : string) : session P * result (list string) :=
  match download_loop s [] (zip dts missions) save_dir with
  | (s', Ok orb_files) =>
      if negb (length orb_files =? length dts)%nat
      then (s', Raise (CountMismatch
                         (Z.of_nat (length dts) - Z.of_nat (length orb_files))
                         dts (length orb_files)))
      else (s', Ok orb_files)
  | (s', Raise e) => (s', Raise e)
  end.

(** [re.split(r'_+', slc_id)[i]]; [None] stands for the [IndexError]. *)
Definition field (i : nat) (slc_id : string) : option string :=
  re_split_underscores slc_id !! i.

Definition get_orbits_from_slc_ids {lib : NetrcLib} (e : environment)
    (s : session P) (slc_ids : list string) (directory : string)
  : environment * session P * result (list string) :=
  match ensure_orbit_credentials e with
  | (e', Raise x) => (e', s, Raise x)
  | (e', Ok _) =>
      let missions := map (slice_to 3) slc_ids in
      match mapM (field 4) slc_ids with
      | None => (e', s, Raise IndexError)
      | Some start_times =>
          match mapM (field 5) slc_ids with
          | None => (e', s, Raise IndexError)
          | Some stop_times =>
              let '(s', r) :=
                download_eofs s (start_times ++ stop_times)
                              (missions ++ missions) directory in
              (e', s', r)
          end
      end
  end.

End Resolver.

End Orbits.

(** ** Python's [netrc] module

    [netrc.netrc(file)] and [netrc.__repr__] of CPython 3.11, on the
    text of the file.  The file is opened in text mode, which turns
    ["\r\n"] and ["\r"] into ["\n"]; the lexer reads it character by
    character and the parser also reads whole lines from the same
    stream, without counting them.  [NetrcParseError] carries no
    message here.  The permission check of [_security_check] applies to
    the default file only, which is not how the code opens it. *)

Module CPythonNetrc.
Import PyStr Orbits.

Definition NetrcParseError : exn := OtherError "NetrcParseError".

Definition LF : ascii := ascii_of_nat 10.
Definition CR : ascii := ascii_of_nat 13.
Definition TAB : ascii := ascii_of_nat 9.
Definition QUOTE : ascii := ascii_of_nat 34.

Fixpoint universal_newlines (s : string) : string :=
  match s with
  | EmptyString => EmptyString
  | String c r =>
      if Ascii.eqb c CR then
        match r with
        | String d r' =>
            if Ascii.eqb d LF then String LF (universal_newlines r')
            else String LF (universal_newlines r)
        | EmptyString => String LF EmptyString
        end
      else String c (universal_newlines r)
  end.

(** [_netrclex]: the stream, [lineno] and [pushback]. *)
Record lexer : Type :=
  Lexer { instream : string; lineno : nat; pushback : list string }.

(** [ch in self.whitespace], with [whitespace = "\n\t\r "] *)
Definition is_whitespace (ch : ascii) : bool :=
  Ascii.eqb ch LF || Ascii.eqb ch TAB || Ascii.eqb ch CR || Ascii.eqb ch " ".

(** [_read_char] counts the line feeds it reads. *)
Definition count_line (ch : ascii) (n : nat) : nat :=
  if Ascii.eqb ch LF then S n else n.

(** Where [get_token] is in its loops: skipping white space before the
    token, inside a quoted token, inside a bare token. *)
Inductive lex_state : Type := Skipping | Quoted | Bare.

(** The loops of [get_token] over the stream: the token, the line
    number and the rest of the stream.  A backslash takes the next
    character as it is; at the end of the stream the token read so far
    is returned. *)
Fixpoint scan (st : lex_state) (token : string) (n : nat) (s : string)
  : string * (nat * string) :=
  match s with
  | EmptyString => (token, (n, EmptyString))
  | String ch r =>
      let n1 := count_line ch n in
      let take (st' : lex_state) :=
        if Ascii.eqb ch "\" then
          match r with
          | EmptyString => (token, (n1, EmptyString))
          | String ch2 r2 =>
              scan st' (token +:+ String ch2 EmptyString) (count_line ch2 n1) r2
          end
        else scan st' (token +:+ String ch EmptyString) n1 r in
      match st with
      | Skipping =>
          if is_whitespace ch then scan Skipping token n1 r
          else if Ascii.eqb ch QUOTE then scan Quoted token n1 r
          else take Bare
      | Quoted =>
          if Ascii.eqb ch QUOTE then (token, (n1, r)) else take Quoted
      | Bare =>
          if is_whitespace ch then (token, (n1, r)) else take Bare
      end
  end.

Definition get_token (lx : lexer) : string * lexer :=
  match pushback lx with
  | token :: rest => (token, Lexer (instream lx) (lineno lx) rest)
  | [] =>
      let '(token, (n, r)) := scan Skipping "" (lineno lx) (instream lx) in
      (token, Lexer r n [])
  end.

Definition push_token (token : string) (lx : lexer) : lexer :=
  Lexer (instream lx) (lineno lx) (pushback lx ++ [token]).

(** [instream.readline()]: a line with its line feed, or what is left. *)
Fixpoint read_line (s : string) : string * string :=
  match s with
  | EmptyString => (EmptyString, EmptyString)
  | String ch r =>
      if Ascii.eqb ch LF then (String ch EmptyString, r)
      else let '(line, rest) := read_line r in (String ch line, rest)
  end.

Definition readline (lx : lexer) : string * lexer :=
  let '(line, rest) := read_line (instream lx) in
  (line, Lexer rest (lineno lx) (pushback lx)).

(** The loops of [_parse], each turn of a loop taking one unit of
    [fuel]; [None] when it runs out. *)

(** The lines of a macro, up to the empty line that ends it. *)
Fixpoint parse_macro (fuel : nat) (lx : lexer) (lines : list string)
  : option (result (list string * lexer)) :=
  match fuel with
  | O => None
  | S fuel' =>
      let '(line, lx1) := readline lx in
      if String.eqb line "" then Some (Raise NetrcParseError)
      else if String.eqb line newline then Some (Ok (lines, lx1))
      else parse_macro fuel' lx1 (lines ++ [line])
  end.

(** The followers of [machine name] or [default]. *)
Fixpoint parse_entry (fuel : nat) (lx : lexer) (login account password : string)
  : option (result (credentials * lexer)) :=
  match fuel with
  | O => None
  | S fuel' =>
      let prev_lineno := lineno lx in
      let '(tok, lx1) := get_token lx in
      if startswith "#" tok then
        let lx2 := if (lineno lx1 =? prev_lineno)%nat then (readline lx1).2
                   else lx1 in
        parse_entry fuel' lx2 login account password
      else if String.eqb tok "" || String.eqb tok "machine"
              || String.eqb tok "default" || String.eqb tok "macdef" then
        Some (Ok (Credentials (Some login) (Some account) (Some password),
                  push_token tok lx1))
      else if String.eqb tok "login" || String.eqb tok "user" then
        let '(v, lx2) := get_token lx1 in
        parse_entry fuel' lx2 v account password
      else if String.eqb tok "account" then
        let '(v, lx2) := get_token lx1 in
        parse_entry fuel' lx2 login v password
      else if String.eqb tok "password" then
        let '(v, lx2) := get_token lx1 in
        parse_entry fuel' lx2 login account v
      else Some (Raise NetrcParseError)
  end.

(** The top-level loop. *)
Fixpoint parse_top (fuel : nat) (lx : lexer)
    (hosts : list (string * credentials))
    (macros : list (string * list string)) : option (result netrc_object) :=
  match fuel with
  | O => None
  | S fuel' =>
      let saved_lineno := lineno lx in
      let '(tok, lx1) := get_token lx in
      let entry (entryname : string) (lx2 : lexer) :=
        if String.eqb entryname "" then Some (Raise NetrcParseError)
        else
          match parse_entry fuel' lx2 "" "" "" with
          | Some (Ok (c, lx3)) =>
              parse_top fuel' lx3 (assoc_set entryname c hosts) macros
          | Some (Raise x) => Some (Raise x)
          | None => None
          end in
      if String.eqb tok "" then Some (Ok (NetrcObject hosts macros))
      else if startswith "#" tok then
        let lx2 :=
          if (lineno lx1 =? saved_lineno)%nat && (String.length tok =? 1)%nat
          then (readline lx1).2 else lx1 in
        parse_top fuel' lx2 hosts macros
      else if String.eqb tok "machine" then
        let '(entryname, lx2) := get_token lx1 in entry entryname lx2
      else if String.eqb tok "default" then entry "default" lx1
      else if String.eqb tok "macdef" then
        let '(entryname, lx2) := get_token lx1 in
        match parse_macro fuel' lx2 [] with
        | Some (Ok (lines, lx3)) =>
            parse_top fuel' lx3 hosts (assoc_set entryname lines macros)
        | Some (Raise x) => Some (Raise x)
        | None => None
        end
      else Some (Raise NetrcParseError)
  end.

(** What is left to read: two per character of the stream and one per
    non-empty token pushed back.  Every turn of a loop that does not
    end it makes this smaller. *)
Definition nonempty (token : string) : bool := negb (String.eqb token "").

Definition weight (lx : lexer) : nat :=
  2 * String.length (instream lx) + length (List.filter nonempty (pushback lx)).

(** [netrc.netrc(file)] on the text of the file.  The fuel is enough
    for every text ([NetrcFacts.parse_fuel]). *)
Definition parse (text : string) : result netrc_object :=
  let stream := universal_newlines text in
  match parse_top (2 * String.length stream + 1) (Lexer stream 1 []) [] [] with
  | Some r => r
  | None => Raise NetrcParseError
  end.

(** [__repr__] *)
Definition show (field : option string) : string :=
  match field with Some s => s | None => "None" end.

Definition truthy (field : option string) : bool :=
  match field with Some s => negb (String.eqb s "") | None => false end.

Definition tab : string := String TAB EmptyString.

Definition host_text (entry : string * credentials) : string :=
  let '(host, attrs) := entry in
  "machine " +:+ host +:+ newline +:+ tab +:+ "login " +:+ show (login attrs)
  +:+ newline
  +:+ (if truthy (account attrs)
       then tab +:+ "account " +:+ show (account attrs) +:+ newline else "")
  +:+ tab +:+ "password " +:+ show (password attrs) +:+ newline.

Definition macro_text (entry : string * list string) : string :=
  let '(macro, lines) := entry in
  "macdef " +:+ macro +:+ newline
  +:+ foldl String.append "" lines +:+ newline.

Definition repr (n : netrc_object) : string :=
  foldl (fun rep entry => rep +:+ macro_text entry)
        (foldl (fun rep entry => rep +:+ host_text entry) "" (hosts n))
        (macros n).

Definition cpython_netrc : NetrcLib :=
  {| netrc_parse := parse; netrc_str := repr |}.

End CPythonNetrc.

(** ** [cli/__main__.py]: the batch loop of [calcDelays] *)

Module Driver.
Import PyStr.

(** The line-of-sight object, as far as the loop looks at it. *)
Record LOS : Type := Los { is_Projected : bool; ray_trace : bool }.

(** The area of interest: [aoi.type()], [aoi.bounds()] and
    [aoi.add_buffer(buffer=...)]. *)
Record AOI (Bounds : Type) : Type :=
  Aoi { aoi_type : string; bounds : Bounds; add_buffer : Z -> Bounds }.
Arguments Aoi {Bounds} _ _ _.
Arguments aoi_type {Bounds} _.
Arguments bounds {Bounds} _.
Arguments add_buffer {Bounds} _ _.

(** The parameter structure returned by [checkArgs]. *)
Record Params (Date Bounds : Type) : Type :=
  { date_list : list Date;
    wetFilenames : list string;
    hydroFilenames : list string;
    los : LOS;
    aoi : AOI Bounds;
    weather_model : string;
    weather_model_directory : string;
    zref : Z;
    verbose : bool;
    download_only : bool;
    height_levels : list Z;
    output_projection : string;
    look_dir : string;
    cube_spacing_in_m : Z;
    raster_format : string }.
Arguments date_list {Date Bounds} _.
Arguments wetFilenames {Date Bounds} _.
Arguments hydroFilenames {Date Bounds} _.
Arguments los {Date Bounds} _.
Arguments aoi {Date Bounds} _.
Arguments weather_model {Date Bounds} _.
Arguments weather_model_directory {Date Bounds} _.
Arguments zref {Date Bounds} _.
Arguments verbose {Date Bounds} _.
Arguments download_only {Date Bounds} _.
Arguments height_levels {Date Bounds} _.
Arguments output_projection {Date Bounds} _.
Arguments look_dir {Date Bounds} _.
Arguments cube_spacing_in_m {Date Bounds} _.
Arguments raster_format {Date Bounds} _.

(** Which call of [ds.to_netcdf] is made: [mode="w"], or
    [engine="h5netcdf", invalid_netcdf=True]. *)
Inductive cube_writer : Type := NetCDF | H5NetCDF.

(** The external engines and writers, over a world state [W]. *)
Class Engines (W Date Bounds Artifact Delay : Type) : Type :=
  { prepareWeatherModel :
      W -> string -> Date -> Bounds -> string -> Z -> bool -> bool ->
      W * result Artifact;
    tropo_delay :
      W -> Date -> Artifact -> AOI Bounds -> LOS -> list Z -> string ->
      string -> Z -> W * result (Delay * option Delay);
    to_netcdf : W -> Delay -> string -> cube_writer -> W * result unit;
    writeDelays :
      W -> AOI Bounds -> Delay -> Delay -> string -> string -> string ->
      W * result unit }.

(** What the loop does that can be observed: logger calls and calls of
    the engines and writers. *)
Inductive event (Date Bounds Artifact : Type) : Type :=
| Debug (msg : string)
| DebugDate (t : Date)
| LogException (fmt : string) (t : Date)
| Info (fmt arg : string)
| PrepareCall (t : Date) (ll_bounds : Bounds) (dl_only : bool)
| TropoDelayCall (t : Date) (weather_model_file : Artifact)
| ToNetcdfCall (out_filename : string) (k : cube_writer)
| WriteDelaysCall (out_filename f fmt : string).
Arguments Debug {Date Bounds Artifact} _.
Arguments DebugDate {Date Bounds Artifact} _.
Arguments LogException {Date Bounds Artifact} _ _.
Arguments Info {Date Bounds Artifact} _ _.
Arguments PrepareCall {Date Bounds Artifact} _ _ _.
Arguments TropoDelayCall {Date Bounds Artifact} _ _.
Arguments ToNetcdfCall {Date Bounds Artifact} _ _.
Arguments WriteDelaysCall {Date Bounds Artifact} _ _ _.

(** [dl_only = True if params['download_only'] or args.download_only else False] *)
Definition dl_only_flag (params_download_only args_download_only : bool) : bool :=
  if params_download_only || args_download_only then true else false.

(** The names chosen from the line-of-sight mode. *)
Definition derive_names (l : LOS) (w f : string) : string * string :=
  if is_Projected l then
    (py_replace "_ztd" "_std" w, py_replace "_ztd" "_std" f)
  else if ray_trace l then
    (py_replace "_std" "_ray" w, py_replace "_std" "_ray" f)
  else (w, f).

(** The name of the cube file when [hydro_delay is None]. *)
Definition cube_name (out_filename : string) : string :=
  let ext := snd (splitext out_filename) in
  let forced :=
    if String.eqb ext ".nc" || String.eqb ext ".h5" then out_filename
    else fst (splitext out_filename) +:+ ".nc" in
  py_replace "wet" "tropo" forced.

(** Which writer the [if]/[elif] on the final name selects. *)
Definition cube_writer_for (out_filename : string) : option cube_writer :=
  if endswith ".nc" out_filename then Some NetCDF
  else if endswith ".h5" out_filename then Some H5NetCDF
  else None.

(** The name of the wet file when both delays are returned. *)
Definition pair_name (aoi_ty out_filename : string) : string :=
  if String.eqb aoi_ty "station_file"
  then fst (splitext out_filename) +:+ ".csv"
  else out_filename.

Definition writes_pair (aoi_ty : string) : bool :=
  String.eqb aoi_ty "station_file" || String.eqb aoi_ty "radar_rasters"
  || String.eqb aoi_ty "geocoded_file".

Definition raster_fmt (raster_format : string) : string :=
  if negb (String.eqb raster_format "nc") then raster_format else "GTiff".

Section Loop.
Context {W Date Bounds Artifact Delay : Type}.
Context `{Countable Date}.
Context {engines : Engines W Date Bounds Artifact Delay}.

Record state : Type :=
  State { world : W; trace : list (event Date Bounds Artifact) }.

(** Computations of the loop: state passing with exceptions. *)
Definition M (A : Type) : Type := state -> state * result A.

Definition ret {A} (a : A) : M A := fun s => (s, Ok a).

Definition bind {A B} (m : M A) (k : A -> M B) : M B :=
  fun s => match m s with
           | (s', Ok a) => k a s'
           | (s', Raise e) => (s', Raise e)
           end.

Definition emit (ev : event Date Bounds Artifact) : M unit :=
  fun s => (State (world s) (trace s ++ [ev]), Ok tt).

(** Call an external function on the world, recording the call first. *)
Definition invoke {A} (ev : event Date Bounds Artifact)
    (f : W -> W * result A) : M A :=
  fun s => let '(w', r) := f (world s) in
           (State w' (trace s ++ [ev]), r).

Notation "x <- m ;; k" := (bind m (fun x => k))
  (at level 100, m at next level, right associativity).
Notation "m ;;; k" := (bind m (fun _ => k))
  (at level 100, right associativity).

(** [try: m  except RuntimeError: h] *)
Definition try_RuntimeError {A} (m : M A) (h : M A) : M A :=
  fun s => match m s with
           | (s', Ok a) => (s', Ok a)
           | (s', Raise e) => if is_RuntimeError e then h s' else (s', Raise e)
           end.

(** The two dispatch branches that follow the name derivation. *)
Definition write_cube (ds : Delay) (out_filename : string) : M unit :=
  match cube_writer_for out_filename with
  | Some k => invoke (ToNetcdfCall out_filename k)
                   (fun w => to_netcdf w ds out_filename k)
  | None => ret tt
  end ;;;
  emit (Info "Wrote delays to: %s" out_filename).

Definition write_pair (p : Params Date Bounds) (wet_delay hydro_delay : Delay)
    (out_filename f : string) : M unit :=
  (if writes_pair (aoi_type (aoi p)) then
     let fmt := raster_fmt (raster_format p) in
     invoke (WriteDelaysCall out_filename f fmt)
          (fun w => writeDelays w (aoi p) wet_delay hydro_delay
                                out_filename f fmt)
   else ret tt) ;;;
  emit (Info "Wrote wet delays to: %s" out_filename) ;;;
  emit (Info "Wrote hydro delays to: %s" f).

(** The two guarded engine calls: [Some] result, or [None] after the
    [except RuntimeError] branch has logged the date ([continue]). *)
Definition prepare_step (p : Params Date Bounds) (dl_only : bool) (t : Date)
    (ll_bounds : Bounds) : M (option Artifact) :=
  try_RuntimeError
    (weather_model_file <-
       invoke (PrepareCall t ll_bounds dl_only)
            (fun wd => prepareWeatherModel wd (weather_model p) t ll_bounds
                         (weather_model_directory p) (zref p) dl_only
                         (verbose p)) ;;
     ret (Some weather_model_file))
    (emit (LogException "Date %s failed" t) ;;; ret None).

Definition delay_step (p : Params Date Bounds) (t : Date)
    (weather_model_file : Artifact) : M (option (Delay * option Delay)) :=
  try_RuntimeError
    (delays <-
       invoke (TropoDelayCall t weather_model_file)
            (fun wd => tropo_delay wd t weather_model_file (aoi p) (los p)
                         (height_levels p) (output_projection p)
                         (look_dir p) (cube_spacing_in_m p)) ;;
     ret (Some delays))
    (emit (LogException "Date %s failed" t) ;;; ret None).

(** The part of the body after both engines: names, dispatch, and the
    value stored in [delay_dct]. *)
Definition route (p : Params Date Bounds) (wet_delay : Delay)
    (hydro_delay : option Delay) (w f : string) : M (string * string) :=
  let '(out_filename, f) := derive_names (los p) w f in
  match hydro_delay with
  | None =>
      let out_filename := cube_name out_filename in
      write_cube wet_delay out_filename ;;;
      ret (out_filename, f)
  | Some hydro =>
      let out_filename := pair_name (aoi_type (aoi p)) out_filename in
      write_pair p wet_delay hydro out_filename f ;;;
      ret (out_filename, f)
  end.

(** One iteration.  [None] is a [continue]; [Some v] reaches the
    assignment [delay_dct[t] = out_filename, f] with [v]. *)
Definition process_job (p : Params Date Bounds) (dl_only : bool)
    (job : Date * (string * string)) : M (option (string * string)) :=
  let '(t, (w, f)) := job in
  let ll_bounds :=
    if ray_trace (los p) then add_buffer (aoi p) 1 else bounds (aoi p) in
  emit (Debug "Starting to run the weather model calculation") ;;;
  emit (DebugDate t) ;;;
  emit (Debug "Beginning weather model pre-processing") ;;;
  prepared <- prepare_step p dl_only t ll_bounds ;;
  match prepared with
  | None => ret None
  | Some weather_model_file =>
      if dl_only then ret None
      else
        computed <- delay_step p t weather_model_file ;;
        match computed with
        | None => ret None
        | Some (wet_delay, hydro_delay) =>
            v <- route p wet_delay hydro_delay w f ;;
            ret (Some v)
        end
  end.

Fixpoint run_jobs (p : Params Date Bounds) (dl_only : bool)
    (jobs : list (Date * (string * string)))
    (delay_dct : gmap Date (string * string))
  : M (gmap Date (string * string)) :=
  match jobs with
  | [] => ret delay_dct
  | job :: rest =>
      r <- process_job p dl_only job ;;
      match r with
      | None => run_jobs p dl_only rest delay_dct
      | Some v => run_jobs p dl_only rest (<[job.1 := v]> delay_dct)
      end
  end.

(** [zip(params['date_list'], params['wetFilenames'], params['hydroFilenames'])] *)
Definition jobs_of (p : Params Date Bounds) : list (Date * (string * string)) :=
  zip (date_list p) (zip (wetFilenames p) (hydroFilenames p)).

Definition calcDelays_loop (p : Params Date Bounds) (args_download_only : bool)
  : M (gmap Date (string * string)) :=
  run_jobs p (dl_only_flag (download_only p) args_download_only)
           (jobs_of p) ∅.

End Loop.

End Driver.

(** ** [cli/__main__.py]: reading the template

    [drop_nans] and [read_template_file].  The mapping loaded from the
    YAML file is a Python [dict]: an association list in insertion order
    whose keys are distinct.  Keys are taken to be strings, as the keys
    the code compares them with. *)

Module Template.
Import PyStr.

(** What [yaml.safe_load] builds. [YOther] stands for the scalars the
    code only passes on (floats, dates). *)
#[warnings="-register-all"] Inductive yaml : Type :=
| YNull
| YBool (b : bool)
| YInt (z : Z)
| YStr (s : string)
| YOther (text : string)
| YList (l : list yaml)
| YDict (items : list (string * yaml)).

(** Exceptions of this part of the file. [Std] embeds those above. *)
Inductive pyexn : Type :=
| Std (e : exn)
| AttributeError (attribute : string)
| KeyError (key : string)
| NameError (name : string)
| FileNotFoundError (path : string)
| SystemExit (code : option string)
| Foreign (name : string).

Inductive outcome (A : Type) : Type :=
| Returns (a : A)
| Raises (e : pyexn).
Arguments Returns {A} a.
Arguments Raises {A} e.

(** *** [dict] operations on association lists *)

Section Dict.
Context {V : Type}.

(** [d.get(k)], or [d[k]] with [None] for the [KeyError] *)
Fixpoint dict_get (k : string) (d : list (string * V)) : option V :=
  match d with
  | [] => None
  | (k', v) :: r => if String.eqb k k' then Some v else dict_get k r
  end.

(** [del d[k]] *)
Fixpoint dict_del (k : string) (d : list (string * V)) : list (string * V) :=
  match d with
  | [] => []
  | (k', v) :: r => if String.eqb k k' then r else (k', v) :: dict_del k r
  end.

(** [d[k] = v]: in place when the key is there, at the end otherwise *)
Fixpoint dict_set (k : string) (v : V) (d : list (string * V))
  : list (string * V) :=
  match d with
  | [] => [(k, v)]
  | (k', v') :: r =>
      if String.eqb k k' then (k, v) :: r else (k', v') :: dict_set k v r
  end.

(** [list(d.keys())] *)
Definition dict_keys (d : list (string * V)) : list string := map fst d.

(** [{**a, **b}] *)
Definition dict_merge (a b : list (string * V)) : list (string * V) :=
  foldl (fun d kv => dict_set kv.1 kv.2 d) a b.

End Dict.

(** *** [drop_nans] *)

(** The inner loop: [if d[key][k] is None: del d[key][k]]. *)
Definition drop_inner_step (inner : list (string * yaml)) (k : string)
  : list (string * yaml) :=
  match dict_get k inner with
  | Some YNull => dict_del k inner
  | _ => inner
  end.

(** One turn of the outer loop, for a key of the snapshot. *)
Definition drop_nans_step (d : list (string * yaml)) (key : string)
  : list (string * yaml) :=
  match dict_get key d with
  | Some YNull => dict_del key d
  | Some (YDict inner) =>
      dict_set key (YDict (foldl drop_inner_step inner (dict_keys inner))) d
  | _ => d
  end.

(** [d.keys()] exists for a [dict] only. *)
Definition drop_nans (d : yaml) : outcome yaml :=
  match d with
  | YDict items =>
      Returns (YDict (foldl drop_nans_step items (dict_keys items)))
  | _ => Raises (AttributeError "keys")
  end.

(** *** [read_template_file] *)

(** What the template holds: YAML values and the objects built by the
    validators. *)
Inductive pyval (Obj : Type) : Type :=
| FromYaml (y : yaml)
| Object (o : Obj).
Arguments FromYaml {Obj} y.
Arguments Object {Obj} o.

(** [open(fname)] followed by [yaml.safe_load(f)]: the value loaded, a
    [yaml.YAMLError] (with the text [print(exc)] shows), or any other
    exception of the two calls. *)
Inductive load_result : Type :=
| Loaded (y : yaml)
| YAMLError (text : string)
| LoadFailed (e : pyexn).

(** [AttributeDict] and the validators of [RAiDER.cli.validators], over
    a world of their own. *)
Class Validators (W Obj : Type) : Type :=
  { load_yaml : W -> string -> W * load_result;
    AttributeDict : yaml -> outcome (list (string * yaml));
    enforce_wm : W -> yaml -> W * outcome (pyval Obj);
    enforce_time :
      W -> list (string * yaml) -> W * outcome (list (string * pyval Obj));
    parse_dates : W -> list (string * yaml) -> W * outcome (pyval Obj);
    get_query_region : W -> list (string * yaml) -> W * outcome (pyval Obj);
    get_los : W -> list (string * yaml) -> W * outcome (pyval Obj);
    get_heights :
      W -> list (string * yaml) -> pyval Obj -> pyval Obj -> pyval Obj ->
      W * outcome (list (string * pyval Obj)) }.

(** What can be observed of a read: what is printed and which validator
    is called on what. *)
Inductive tevent (Obj : Type) : Type :=
| Printed (text : string)
| EnforceWm (value : yaml)
| EnforceTime (group : list (string * yaml))
| ParseDates (group : list (string * yaml))
| GetQueryRegion (group : list (string * yaml))
| GetLos (group : list (string * yaml))
| GetHeights (group : list (string * yaml))
    (output_directory station_file bounding_box : pyval Obj).
Arguments Printed {Obj} _.
Arguments EnforceWm {Obj} _.
Arguments EnforceTime {Obj} _.
Arguments ParseDates {Obj} _.
Arguments GetQueryRegion {Obj} _.
Arguments GetLos {Obj} _.
Arguments GetHeights {Obj} _ _ _ _.

(** [c.lower()] for one character, and [s.lower()].  Only the letters
    [A]-[Z] change; no other character lowers to a letter of ["right"]
    or ["left"], so the test below and the value stored are Python's. *)
Definition lower_char (c : ascii) : ascii :=
  let n := nat_of_ascii c in
  if (65 <=? n)%nat && (n <=? 90)%nat then ascii_of_nat (n + 32) else c.

Fixpoint lower (s : string) : string :=
  match s with
  | EmptyString => EmptyString
  | String c r => String (lower_char c) (lower r)
  end.

Definition group_keys : list string :=
  ["date_group"; "time_group"; "aoi_group"; "height_group"; "los_group";
   "runtime_group"].

(** [if not key in params.keys(): params[key] = {}], for every group *)
Definition ensure_groups (params : list (string * yaml))
  : list (string * yaml) :=
  foldl (fun d key =>
           match dict_get key d with
           | Some _ => d
           | None => dict_set key (YDict []) d
           end) params group_keys.

Section Read.
Context {W Obj : Type} {validators : Validators W Obj}.

(** The world of the validators, the module-level [DEFAULT_DICT] and
    the observations. *)
Record tstate : Type :=
  TState { tworld : W;
           DEFAULT_DICT : gmap string (pyval Obj);
           tlog : list (tevent Obj) }.

Definition T (A : Type) : Type := tstate -> tstate * outcome A.

Definition treturn {A} (a : A) : T A := fun s => (s, Returns a).

Definition traise {A} (e : pyexn) : T A := fun s => (s, Raises e).

Definition tbind {A B} (m : T A) (k : A -> T B) : T B :=
  fun s => match m s with
           | (s', Returns a) => k a s'
           | (s', Raises e) => (s', Raises e)
           end.

Definition tlift {A} (o : outcome A) : T A := fun s => (s, o).

Definition tnote (ev : tevent Obj) : T unit :=
  fun s => (TState (tworld s) (DEFAULT_DICT s) (tlog s ++ [ev]), Returns tt).

(** Call a validator on the world, noting the call first. *)
Definition tcall {A} (ev : tevent Obj) (f : W -> W * outcome A) : T A :=
  fun s => let '(w', r) := f (tworld s) in
           (TState w' (DEFAULT_DICT s) (tlog s ++ [ev]), r).

(** [template[k] = v] on [template = DEFAULT_DICT] *)
Definition template_set (k : string) (v : pyval Obj) : T unit :=
  fun s => (TState (tworld s) (<[k := v]> (DEFAULT_DICT s)) (tlog s),
            Returns tt).

(** [template[k]] *)
Definition template_get (k : string) : T (pyval Obj) :=
  fun s => match DEFAULT_DICT s !! k with
           | Some v => (s, Returns v)
           | None => (s, Raises (KeyError k))
           end.

(** [for x in xs: body(x)] *)
Fixpoint tfor {A} (xs : list A) (body : A -> T unit) : T unit :=
  match xs with
  | [] => treturn tt
  | x :: rest => tbind (body x) (fun _ => tfor rest body)
  end.

(** [template.update(d)] *)
Definition template_update (d : list (string * pyval Obj)) : T unit :=
  tfor d (fun kv => template_set kv.1 kv.2).

(** [if cond: body] *)
Definition twhen (cond : bool) (body : T unit) : T unit :=
  if cond then body else treturn tt.

(** [value.items()] and [value.lower()] exist for a mapping and for a
    string only. *)
Definition yaml_items (value : yaml) : outcome (list (string * yaml)) :=
  match value with
  | YDict items => Returns items
  | _ => Raises (AttributeError "items")
  end.

Definition yaml_lower (value : yaml) : outcome string :=
  match value with
  | YStr s => Returns (lower s)
  | _ => Raises (AttributeError "lower")
  end.

(** [f"{value}"] where the code builds its message; only a string can
    get there. *)
Definition yaml_text (value : yaml) : string :=
  match value with YStr s => s | _ => "" end.

(** The body of the first loop over [params.items()]. *)
Definition handle_key (params : list (string * yaml)) (kv : string * yaml)
  : T unit :=
  let '(key, value) := kv in
  tbind (twhen (String.eqb key "runtime_group")
           (tbind (tlift (yaml_items value)) (fun items =>
            tfor items (fun kv =>
              twhen (negb (match kv.2 with YNull => true | _ => false end))
                    (template_set kv.1 (FromYaml kv.2)))))) (fun _ =>
  tbind (twhen (String.eqb key "weather_model")
           (tbind (tcall (EnforceWm value) (fun w => enforce_wm w value))
                  (fun v => template_set key v))) (fun _ =>
  tbind (twhen (String.eqb key "time_group")
           (tbind (tlift (AttributeDict value)) (fun group =>
            tbind (tcall (EnforceTime group) (fun w => enforce_time w group))
                  template_update))) (fun _ =>
  tbind (twhen (String.eqb key "date_group")
           (tbind (tlift (AttributeDict value)) (fun group =>
            tbind (tcall (ParseDates group) (fun w => parse_dates w group))
                  (fun v => template_set "date_list" v)))) (fun _ =>
  tbind (twhen (String.eqb key "aoi_group")
           (tbind (tlift (AttributeDict value)) (fun group =>
            tbind (tlift (match dict_get "height_group" params with
                          | Some h => Returns h
                          | None => Raises (KeyError "height_group")
                          end)) (fun h =>
            tbind (tlift (AttributeDict h)) (fun heights =>
            tbind (tlift (AttributeDict (YDict (dict_merge group heights))))
                  (fun dct_temp =>
            tbind (tcall (GetQueryRegion dct_temp)
                         (fun w => get_query_region w dct_temp))
                  (fun v => template_set "aoi" v))))))) (fun _ =>
  tbind (twhen (String.eqb key "los_group")
           (tbind (tlift (AttributeDict value)) (fun group =>
            tbind (tcall (GetLos group) (fun w => get_los w group))
                  (fun v => template_set "los" v)))) (fun _ =>
  tbind (twhen (String.eqb key "look_dir")
           (tbind (tlift (yaml_lower value)) (fun low =>
            tbind (twhen (negb (String.eqb low "right" || String.eqb low "left"))
                         (traise (Std (ValueError
                                         ("Unknown look direction "
                                          +:+ yaml_text value)))))
                  (fun _ => template_set "look_dir" (FromYaml (YStr low))))))
        (fun _ =>
  twhen (String.eqb key "cube_spacing_in_m")
        (template_set key (FromYaml value))))))))).

(** The body of the second loop. *)
Definition handle_heights (kv : string * yaml) : T unit :=
  let '(key, value) := kv in
  twhen (String.eqb key "height_group")
    (tbind (tlift (AttributeDict value)) (fun group =>
     tbind (template_get "output_directory") (fun out =>
     tbind (template_get "station_file") (fun station =>
     tbind (template_get "bounding_box") (fun bbox =>
     tbind (tcall (GetHeights group out station bbox)
                  (fun w => get_heights w group out station bbox))
           template_update))))).

(** From the loaded value on. *)
Definition read_loaded (y : yaml) : T (gmap string (pyval Obj)) :=
  tbind (tlift (drop_nans y)) (fun cleaned =>
  tbind (tlift (yaml_items cleaned)) (fun items =>
  let params := ensure_groups items in
  tbind (tfor params (handle_key params)) (fun _ =>
  tbind (tfor params handle_heights) (fun _ =>
  fun s => (s, Returns (DEFAULT_DICT s)))))).

Definition read_template_file (fname : string) : T (gmap string (pyval Obj)) :=
  fun s =>
    match load_yaml (tworld s) fname with
    | (w', Loaded y) =>
        read_loaded y (TState w' (DEFAULT_DICT s) (tlog s))
    | (w', YAMLError text) =>
        (TState w' (DEFAULT_DICT s) (tlog s ++ [Printed text]),
         Raises (Std (ValueError ("Something is wrong with the yaml file "
                                  +:+ fname))))
    | (w', LoadFailed e) => (TState w' (DEFAULT_DICT s) (tlog s), Raises e)
    end.

End Read.

End Template.

(** ** [cli/__main__.py]: [calcDelays] around its loop

    From the parsed arguments to the returned mapping.  [argparse]
    itself is outside the model: [calcDelays_parsed] takes what
    [p.parse_args] returns. *)

Module Cli.
Import PyStr Driver Template.

(** [posixpath.join] of two components, and [posixpath.basename] *)
Definition path_join (path b : string) : string :=
  if startswith "/" b then b
  else if String.eqb path "" || endswith "/" path then path +:+ b
  else path +:+ "/" +:+ b.

Definition basename (p : string) : string :=
  let i := Z.to_nat (rfind "/"%char p + 1) in
  String.substring i (String.length p - i) p.

(** The three arguments of the parser. *)
Record Args : Type :=
  { customTemplateFile : option string;
    generate_template : bool;
    args_download_only : bool }.

(** [if args.customTemplateFile]: neither [None] nor the empty string *)
Definition given (custom : option string) : bool :=
  match custom with
  | Some path => negb (String.eqb path "")
  | None => false
  end.

(** The file system as the function sees it, and the installation
    directory [os.path.dirname(RAiDER.__file__)]. *)
Class Shell (W : Type) : Type :=
  { RAiDER_dir : string;
    getcwd : W -> string;
    isfile : W -> string -> bool;
    abspath : W -> string -> string;
    copyfile : W -> string -> string -> W * outcome unit }.

(** [RAiDER.checkArgs.checkArgs] *)
Class Checker (W Obj Date Bounds : Type) : Type :=
  checkArgs : W -> gmap string (pyval Obj) -> W * outcome (Params Date Bounds).

(** What is printed and logged before the loop. *)
Inductive cevent : Type :=
| Usage
| Echo (text : string)
| Logged (fmt arg : string)
| CopyCall (src dst : string).

Definition tab : string := String (ascii_of_nat 9) EmptyString.
Definition nl : string := String (ascii_of_nat 10) EmptyString.

Definition examples : string :=
  "Examples of use:" +:+ nl +:+ tab +:+ " raider.py customTemplatefile.cfg"
  +:+ nl +:+ tab +:+ " raider.py -g".

Definition no_template_msg : string :=
  "No template file found! It requires that either:"
  +:+ nl +:+ "  a custom template file, OR the default template "
  +:+ nl +:+ "  file 'raider.yaml' exists in current directory.".

Section Calc.
Context {W Obj Date Bounds Artifact Delay : Type}.
Context `{Countable Date}.
Context {shell : Shell W} {validators : Validators W Obj}.
Context {checker : Checker W Obj Date Bounds}.
Context {engines : Engines W Date Bounds Artifact Delay}.

(** The state of a run: the reading state (world and [DEFAULT_DICT]),
    the console, and the trace of the loop. *)
Record cstate : Type :=
  CState { reading : tstate (W := W) (Obj := Obj);
           console : list cevent;
           batch : list (event Date Bounds Artifact) }.

Definition with_world (s : cstate) (w : W) : cstate :=
  CState (TState w (DEFAULT_DICT (reading s)) (tlog (reading s)))
         (console s) (batch s).

Definition say (s : cstate) (evs : list cevent) : cstate :=
  CState (reading s) (console s ++ evs) (batch s).

(** [os.path.join(os.path.dirname(RAiDER.__file__), 'cli', 'raider.yaml')] *)
Definition template_file : string :=
  path_join (path_join RAiDER_dir "cli") "raider.yaml".

(** From [read_template_file(args.customTemplateFile)] to the end. *)
Definition calcDelays_from (path : string) (cli_download_only : bool)
    (s : cstate) : cstate * outcome (gmap Date (string * string)) :=
  match read_template_file path (reading s) with
  | (r1, Raises e) => (CState r1 (console s) (batch s), Raises e)
  | (r1, Returns template) =>
      match checkArgs (tworld r1) template with
      | (w2, Raises e) =>
          (CState (TState w2 (DEFAULT_DICT r1) (tlog r1)) (console s) (batch s),
           Raises e)
      | (w2, Returns params) =>
          let r2 := TState w2 (DEFAULT_DICT r1) (tlog r1) in
          if negb (verbose params)
          then (CState r2 (console s) (batch s), Raises (NameError "logging"))
          else
            match calcDelays_loop params cli_download_only
                    (State w2 (batch s)) with
            | (s3, Ok delay_dct) =>
                (CState (TState (world s3) (DEFAULT_DICT r1) (tlog r1))
                        (console s) (trace s3),
                 Returns delay_dct)
            | (s3, Raise e) =>
                (CState (TState (world s3) (DEFAULT_DICT r1) (tlog r1))
                        (console s) (trace s3),
                 Raises (Std e))
            end
      end
  end.

Definition calcDelays_parsed (args : Args) (s : cstate)
  : cstate * outcome (gmap Date (string * string)) :=
  let w := tworld (reading s) in
  if generate_template args then
    let dst := path_join (getcwd w) "raider.yaml" in
    match copyfile w template_file dst with
    | (w', Returns _) =>
        (say (with_world s w')
             [CopyCall template_file dst; Logged "Wrote %s" dst],
         Raises (SystemExit None))
    | (w', Raises e) =>
        (say (with_world s w') [CopyCall template_file dst], Raises e)
    end
  else if negb (given (customTemplateFile args))
          && negb (isfile w (basename template_file))
          && negb (generate_template args) then
    (say s [Usage; Echo examples],
     Raises (SystemExit (Some ("ERROR: " +:+ no_template_msg))))
  else
    match customTemplateFile args with
    | Some path =>
        if given (Some path) then
          if negb (isfile w path) then (s, Raises (FileNotFoundError path))
          else calcDelays_from (abspath w path) (args_download_only args) s
        else calcDelays_from template_file (args_download_only args) s
    | None => calcDelays_from template_file (args_download_only args) s
    end.

End Calc.

End Cli.

(** * Specification vocabulary

    The notions in which the properties below are stated, and the
    concrete providers, engines and inputs they are run on. *)

Module Spec.
Import PyStr Orbits CPythonNetrc Driver.

(** ** Strings *)

Fixpoint all_chars (P : ascii -> bool) (s : string) : bool :=
  match s with
  | EmptyString => true
  | String c r => P c && all_chars P r
  end.

(** A separator: one or more consecutive underscores. *)
Definition is_run (sep : string) : Prop :=
  sep <> "" /\ all_chars is_underscore sep = true.

Definition no_underscore (fld : string) : Prop :=
  all_chars (fun c => negb (is_underscore c)) fld = true.

(** A first field followed by (separator, field) pairs, written out. *)
Fixpoint join_fields (first : string) (rest : list (string * string)) : string :=
  match rest with
  | [] => first
  | (sep, fld) :: rest' => first +:+ sep +:+ join_fields fld rest'
  end.

(** The fields of [s] split on one-or-more consecutive underscores: [s]
    is the fields joined by runs of underscores, no field holds an
    underscore, and only the first and the last field may be empty (the
    runs are maximal). *)
Definition splits_on_underscores (s : string) (flds : list string) : Prop :=
  exists first rest,
    flds = first :: map snd rest /\
    s = join_fields first rest /\
    no_underscore first /\
    Forall (fun sf => is_run sf.1 /\ no_underscore sf.2) rest /\
    Forall (fun sf => sf.2 <> "") (removelast rest).

Fixpoint last_char (s : string) : option ascii :=
  match s with
  | EmptyString => None
  | String c EmptyString => Some c
  | String _ r => last_char r
  end.


(** ** The output router *)

(** The extension that the cube name ends with, and the writer for it. *)
Definition cube_ext (out_filename : string) : string :=
  if String.eqb (splitext out_filename).2 ".h5" then ".h5" else ".nc".

Definition cube_writer_of (out_filename : string) : cube_writer :=
  if String.eqb (splitext out_filename).2 ".h5" then H5NetCDF else NetCDF.

(** ** Credentials *)

(** The store after [touch]: the file exists. *)
Definition touched (e : environment) : environment :=
  Environment (Some (open_store e)) (environ e).

(** What reading the store gives: the record kept for the target host
    ([None]: no record for it), or the exception of [netrc.netrc].  A
    store without a file reads as the empty file. *)
Definition read_record {lib : NetrcLib} (e : environment)
  : result (option credentials) :=
  match netrc_parse (content (open_store e)) with
  | Ok n => Ok (assoc_get ESA_CDSE_HOST (hosts n))
  | Raise x => Raise x
  end.


(** The record that line 45 stores. *)
Definition env_record (e : environment) : credentials :=
  Credentials (environ e !! "ESA_USERNAME") None (environ e !! "ESA_PASSWORD").

(** The text that the call writes when it adds [env_record] to the
    object [n] it has loaded. *)
Definition written {lib : NetrcLib} (e : environment) (n : netrc_object)
  : string :=
  netrc_str (NetrcObject (hosts n ++ [(ESA_CDSE_HOST, env_record e)])
                         (macros n)).

(** The two parts of CPython's rendering. *)
Definition hosts_text (hs : list (string * credentials)) : string :=
  foldl (fun rep entry => rep +:+ host_text entry) "" hs.

Definition macros_text (ms : list (string * list string)) : string :=
  foldl (fun rep entry => rep +:+ macro_text entry) "" ms.

(** An environment that has the user name only, and no store file. *)
Definition user_only : environment :=
  Environment None {[ "ESA_USERNAME" := "user" ]}.

(** An environment that supplies both inputs, and no store file. *)
Definition both_set : environment :=
  Environment None {[ "ESA_USERNAME" := "user"; "ESA_PASSWORD" := "secret" ]}.



(** ** The orbit resolver *)

(** The parse of one identifier in the spec's words: the mission code is
    the first three characters, the start and stop tokens are the fifth
    and the sixth field; [None] when a field is missing. *)
Definition parse_identifier (slc_id : string)
  : option (string * string * string) :=
  match re_split_underscores slc_id !! 4%nat,
        re_split_underscores slc_id !! 5%nat with
  | Some start, Some stop => Some (slice_to 3 slc_id, start, stop)
  | _, _ => None
  end.

Definition mission_of (x : string * string * string) : string := x.1.1.
Definition start_of (x : string * string * string) : string := x.1.2.
Definition stop_of (x : string * string * string) : string := x.2.

Section Resolver.
Context {P : Type} {client : EofClient P}.

(** One path per pair, in pair order: the pairs fetched one after the
    other, each by [fetch_pair], stopping at the first that raises. *)
Fixpoint resolve_all (s : session P) (pairs : list (string * string))
    (save_dir : string) : session P * result (list string) :=
  match pairs with
  | [] => (s, Ok [])
  | (dt, mission) :: rest =>
      match fetch_pair s dt mission save_dir with
      | (s', Ok path) =>
          match resolve_all s' rest save_dir with
          | (s'', Ok paths) => (s'', Ok (path :: paths))
          | (s'', Raise e) => (s'', Raise e)
          end
      | (s', Raise e) => (s', Raise e)
      end
  end.

(** [x] was raised by the attempt on the secondary provider (the call or
    the unwrapping of its reply) for one of the pairs. *)
Definition secondary_failure (pairs : list (string * string))
    (save_dir : string) (x : exn) : Prop :=
  exists s0 s1 dt mission,
    (dt, mission) ∈ pairs /\
    attempt s0 dt mission save_dir false = (s1, Raise x).

End Resolver.

(** A client whose ASF endpoint always fails and whose ESA endpoint
    returns one file named after the mission and the token. *)
Definition asf_down : EofClient nat :=
  fun n dts missions save_dir force_asf =>
    (S n,
     if force_asf then Raise (OtherError "HTTPError")
     else Ok (ReplyList
                (zip_with (fun dt m => save_dir +:+ "/" +:+ m +:+ "_" +:+ dt
                                       +:+ ".EOF") dts missions))).

(** A client that is down altogether. *)
Definition all_down : EofClient nat :=
  fun n dts missions save_dir force_asf =>
    (S n, Raise (OtherError (if force_asf then "ASF" else "ESA"))).

Definition fresh : session nat := Session 0%nat [] [].

Definition scene : string :=
  "S1A_IW_SLC__1SDV_20200101T000000_20200101T000030_...".

(** ** The batch loop *)

Section Batch.
Context {W Date Bounds Artifact Delay : Type}.
Context `{Countable Date}.
Context {engines : Engines W Date Bounds Artifact Delay}.

#[local] Abbreviation ev := (event Date Bounds Artifact).
#[local] Abbreviation job := (Date * (string * string))%type.

(** The three [logger.debug] calls that open an iteration. *)
Definition prologue (t : Date) : list ev :=
  [Debug "Starting to run the weather model calculation";
   DebugDate t;
   Debug "Beginning weather model pre-processing"].

Definition ll_bounds_of (p : Params Date Bounds) : Bounds :=
  if ray_trace (los p) then add_buffer (aoi p) 1 else bounds (aoi p).

(** The two engine calls of an iteration, on a given world. *)
Definition prepare (p : Params Date Bounds) (dl_only : bool) (t : Date)
    (wd : W) : W * result Artifact :=
  prepareWeatherModel wd (weather_model p) t (ll_bounds_of p)
    (weather_model_directory p) (zref p) dl_only (verbose p).

Definition compute (p : Params Date Bounds) (t : Date) (wm : Artifact)
    (wd : W) : W * result (Delay * option Delay) :=
  tropo_delay wd t wm (aoi p) (los p) (height_levels p)
    (output_projection p) (look_dir p) (cube_spacing_in_m p).

Definition failed (t : Date) : ev := LogException "Date %s failed" t.

(** The jobs' results one by one: the outcome of every iteration in
    input order, up to the first exception that leaves the loop. *)
Fixpoint job_results (p : Params Date Bounds) (dl_only : bool)
    (jobs : list job) : M (list (option (string * string))) :=
  match jobs with
  | [] => ret []
  | j :: rest =>
      bind (process_job p dl_only j) (fun r =>
      bind (job_results p dl_only rest) (fun rs => ret (r :: rs)))
  end.

(** The assignments [delay_dct[t] = v] of the routed jobs, in order. *)
Fixpoint store (d : gmap Date (string * string)) (jobs : list job)
    (rs : list (option (string * string))) : gmap Date (string * string) :=
  match jobs, rs with
  | j :: jobs', Some v :: rs' => store (<[j.1 := v]> d) jobs' rs'
  | _ :: jobs', None :: rs' => store d jobs' rs'
  | _, _ => d
  end.

(** The dates of the routed jobs. *)
Fixpoint routed (jobs : list job) (rs : list (option (string * string)))
  : list Date :=
  match jobs, rs with
  | j :: jobs', Some _ :: rs' => j.1 :: routed jobs' rs'
  | _ :: jobs', None :: rs' => routed jobs' rs'
  | _, _ => []
  end.

(** The dates for which the preparation engine was called, in order. *)
Definition prepared_dates (evs : list ev) : list Date :=
  omap (fun e => match e with PrepareCall t _ _ => Some t | _ => None end) evs.


Definition is_prepare_call (e : ev) : bool :=
  match e with PrepareCall _ _ _ => true | _ => false end.


(** The engines raise nothing but [RuntimeError]. *)
Definition engines_raise_RuntimeError_only : Prop :=
  (forall wd model t b loc z dl plots,
      match (prepareWeatherModel wd model t b loc z dl plots).2 with
      | Raise e => is_RuntimeError e = true
      | Ok _ => True
      end) /\
  (forall wd t wm a l hs proj look sp,
      match (tropo_delay wd t wm a l hs proj look sp).2 with
      | Raise e => is_RuntimeError e = true
      | Ok _ => True
      end).

Definition writers_return : Prop :=
  (forall wd ds name k, (to_netcdf wd ds name k).2 = Ok tt) /\
  (forall wd a wet hydro name f fmt,
      (writeDelays wd a wet hydro name f fmt).2 = Ok tt).

End Batch.

(** Engines over a call counter: no weather model for 2020-01-02, a
    delay computation that fails for 2020-01-03, a combined cube
    otherwise, writers that return. *)
Definition demo_engines : Engines nat Z (list Z) string string :=
  {| prepareWeatherModel wd model t b loc z dl plots :=
       (S wd,
        if (t =? 20200102)%Z then Raise (RuntimeError "no weather model")
        else Ok (loc +:+ "/" +:+ model +:+ ".nc"));
     tropo_delay wd t wm a l hs proj look sp :=
       (S wd,
        if (t =? 20200103)%Z then Raise (RuntimeError "no rays")
        else Ok ("cube", None));
     to_netcdf wd ds name k := (S wd, Ok tt);
     writeDelays wd a wet hydro name f fmt := (S wd, Ok tt) |}.

(** The same engines without a connection on 2020-01-02: the
    preparation engine fails there with an exception that is not a
    [RuntimeError]. *)
Definition offline_engines : Engines nat Z (list Z) string string :=
  {| prepareWeatherModel wd model t b loc z dl plots :=
       (S wd,
        if (t =? 20200102)%Z then Raise (OtherError "ConnectionError")
        else Ok (loc +:+ "/" +:+ model +:+ ".nc"));
     tropo_delay wd t wm a l hs proj look sp := (S wd, Ok ("cube", None));
     to_netcdf wd ds name k := (S wd, Ok tt);
     writeDelays wd a wet hydro name f fmt := (S wd, Ok tt) |}.

Definition demo_params (dl : bool) : Params Z (list Z) :=
  {| date_list := [20200101; 20200102; 20200103; 20200104]%Z;
     wetFilenames := ["20200101_wet_ztd.tif"; "20200102_wet_ztd.tif";
                      "20200103_wet_ztd.tif"; "20200104_wet_ztd.tif"];
     hydroFilenames := ["20200101_hydro_ztd.tif"; "20200102_hydro_ztd.tif";
                        "20200103_hydro_ztd.tif"; "20200104_hydro_ztd.tif"];
     los := Los false false;
     aoi := Aoi "bounding_box" [33; 34; -118; -117]%Z
                (fun b => [33 - b; 34 + b; -118 - b; -117 + b]%Z);
     weather_model := "GMAO";
     weather_model_directory := "weather_files";
     zref := 20000;
     verbose := false;
     download_only := dl;
     height_levels := [0; 100; 500; 1000]%Z;
     output_projection := "EPSG:4326";
     look_dir := "right";
     cube_spacing_in_m := 2000;
     raster_format := "GTiff" |}.

Definition start : state (W := nat) (Date := Z) (Bounds := list Z)
                         (Artifact := string) :=
  State 0%nat [].

Definition demo_run : state * result (gmap Z (string * string)) :=
  calcDelays_loop (engines := demo_engines) (demo_params false) false start.

Definition demo_results : list (option (string * string)) :=
  [Some ("20200101_tropo_ztd.nc", "20200101_hydro_ztd.tif"); None; None;
   Some ("20200104_tropo_ztd.nc", "20200104_hydro_ztd.tif")].

End Spec.

(** ** Further vocabulary *)

Module SpecX.
Import PyStr Orbits Driver Template Spec.

(** *** Mappings loaded from YAML *)

Definition is_null (y : yaml) : bool :=
  match y with YNull => true | _ => false end.

(** The entries whose value is not [None], in order. *)
Definition not_null_entries (d : list (string * yaml)) : list (string * yaml) :=
  List.filter (fun kv => negb (is_null kv.2)) d.

(** A value with the [None] entries of a mapping removed, one level. *)
Definition cleaned_value (v : yaml) : yaml :=
  match v with
  | YDict inner => YDict (not_null_entries inner)
  | _ => v
  end.

(** A mapping without its [None] entries and without the [None] entries
    of the mappings it holds. *)
Definition cleaned (d : list (string * yaml)) : list (string * yaml) :=
  map (fun kv => (kv.1, cleaned_value kv.2)) (not_null_entries d).

(** Keys of a [dict] are distinct. *)
Definition unique_keys (d : list (string * yaml)) : Prop :=
  NoDup (dict_keys d).

(** A loaded mapping, as far as [drop_nans] looks into it: the mapping
    and the mappings it holds are [dict]s. *)
Definition loaded (d : list (string * yaml)) : Prop :=
  unique_keys d /\
  Forall (fun kv => match kv.2 with
                    | YDict inner => unique_keys inner
                    | _ => True
                    end) d.

(** A template with unset options, a group of unset options, and an
    unset option three levels down. *)
Definition sparse_template : list (string * yaml) :=
  [("weather_model", YStr "GMAO");
   ("look_dir", YNull);
   ("date_group", YDict [("date_start", YInt 20200101); ("date_end", YNull)]);
   ("height_group", YDict [("dem", YNull); ("height_levels", YNull)]);
   ("runtime_group",
    YDict [("verbose", YBool true);
           ("extra", YDict [("deep", YNull)])])].

(** *** Reading the template *)

(** The validators that [read_template_file] calls. *)
Inductive validator : Type :=
| VWeatherModel | VTime | VDates | VRegion | VLos | VHeights.

Definition event_validator {Obj : Type} (ev : tevent Obj) : option validator :=
  match ev with
  | Printed _ => None
  | EnforceWm _ => Some VWeatherModel
  | EnforceTime _ => Some VTime
  | ParseDates _ => Some VDates
  | GetQueryRegion _ => Some VRegion
  | GetLos _ => Some VLos
  | GetHeights _ _ _ _ => Some VHeights
  end.

(** The validator that the first loop calls for a key. *)
Definition key_validator (key : string) : option validator :=
  if String.eqb key "weather_model" then Some VWeatherModel
  else if String.eqb key "time_group" then Some VTime
  else if String.eqb key "date_group" then Some VDates
  else if String.eqb key "aoi_group" then Some VRegion
  else if String.eqb key "los_group" then Some VLos
  else None.

(** The validators called, in order, between two logs. *)
Definition validators_called {Obj : Type} (log : list (tevent Obj))
  : list validator :=
  omap event_validator log.

(** A look direction that the check accepts. *)
Definition accepted_look_dir (v : yaml) : Prop :=
  exists s, v = YStr s /\ (lower s = "right" \/ lower s = "left").

(** A template that gives a look direction only. *)
Definition left_looking : list (string * yaml) := [("look_dir", YStr "Left")].

(** Validators over a call counter: [AttributeDict] as [dict] of a
    mapping, objects named after the validator.  The file
    ["broken.yaml"] does not parse, ["empty.yaml"] is empty,
    ["left.yaml"] holds [left_looking], any other file holds
    [sparse_template]. *)
Definition demo_validators : Validators nat string :=
  {| load_yaml w fname :=
       (S w,
        if String.eqb fname "broken.yaml" then YAMLError "mapping values"
        else if String.eqb fname "empty.yaml" then Loaded YNull
        else if String.eqb fname "left.yaml" then Loaded (YDict left_looking)
        else Loaded (YDict sparse_template));
     AttributeDict y :=
       match y with
       | YDict items => Returns items
       | _ => Raises (Foreign "TypeError")
       end;
     enforce_wm w v := (S w, Returns (Object "weather model"));
     enforce_time w g := (S w, Returns [("time", Object "time")]);
     parse_dates w g := (S w, Returns (Object "dates"));
     get_query_region w g := (S w, Returns (Object "aoi"));
     get_los w g := (S w, Returns (Object "los"));
     get_heights w g out station bbox :=
       (S w, Returns [("height_levels", Object "levels")]) |}.

Definition demo_defaults : gmap string (pyval string) :=
  {[ "output_directory" := FromYaml (YStr ".");
     "station_file" := FromYaml YNull;
     "bounding_box" := FromYaml YNull;
     "look_dir" := FromYaml (YStr "right") ]}.

Definition demo_reading : tstate (W := nat) (Obj := string) :=
  TState 0%nat demo_defaults [].

(** *** The orbit resolver *)

(** The calls made for one pair: the ASF call, then the ESA call when
    the first attempt failed. *)
Definition pair_calls (save_dir : string) (pair : string * string)
    (fallback : bool) : list call :=
  Call [pair.1] [pair.2] save_dir true
  :: if fallback then [Call [pair.1] [pair.2] save_dir false] else [].

Definition fallback_msg : string :=
  "Could not download orbit from ASF, trying ESA...".

(** A client whose ASF endpoint answers every request with one file. *)
Definition asf_up : EofClient nat :=
  fun n dts missions save_dir force_asf =>
    (S n,
     Ok (ReplyList
           (zip_with (fun dt m => save_dir +:+ "/" +:+ m +:+ "_" +:+ dt
                                  +:+ ".EOF") dts missions))).

Section Resolver.
Context {P : Type} {client : EofClient P}.

(** The pairs that a run reaches, each with the outcome of its attempt
    on the primary provider ([true]: it failed), on the session that
    the attempts before it have left.  The run goes on to the next pair
    after an attempt that returned, on either provider. *)
Fixpoint asf_failures (s : session P) (pairs : list (string * string))
    (save_dir : string) : list bool :=
  match pairs with
  | [] => []
  | (dt, mission) :: rest =>
      match attempt s dt mission save_dir true with
      | (s1, Ok _) => false :: asf_failures s1 rest save_dir
      | (s1, Raise _) =>
          true :: match attempt (log_error s1 fallback_msg) dt mission
                                save_dir false with
                  | (s2, Ok _) => asf_failures s2 rest save_dir
                  | (_, Raise _) => []
                  end
      end
  end.

End Resolver.

(** *** The batch loop *)

Section Batch.
Context {W Date Bounds Artifact Delay : Type}.
Context `{Countable Date}.
Context {engines : Engines W Date Bounds Artifact Delay}.

#[local] Abbreviation ev := (event Date Bounds Artifact).

Definition is_tropo_call (e : ev) : bool :=
  match e with TropoDelayCall _ _ => true | _ => false end.

Definition is_writer_call (e : ev) : bool :=
  match e with ToNetcdfCall _ _ | WriteDelaysCall _ _ _ => true | _ => false end.

(** How many events of a kind a trace holds. *)
Definition count_events (kind : ev -> bool) (evs : list ev) : nat :=
  length (List.filter kind evs).

End Batch.

(** Engines that succeed, with writers that raise [RuntimeError]. *)
Definition writers_down : Engines nat Z (list Z) string string :=
  {| prepareWeatherModel wd model t b loc z dl plots :=
       (S wd, Ok (loc +:+ "/" +:+ model +:+ ".nc"));
     tropo_delay wd t wm a l hs proj look sp := (S wd, Ok ("cube", None));
     to_netcdf wd ds name k := (S wd, Raise (RuntimeError "disk full"));
     writeDelays wd a wet hydro name f fmt :=
       (S wd, Raise (RuntimeError "disk full")) |}.

(** Two jobs for the same date. *)
Definition twice : list (Z * (string * string)) :=
  [(20200101%Z, ("first_wet_ztd.nc", "first_hydro_ztd.nc"));
   (20200101%Z, ("second_wet_ztd.nc", "second_hydro_ztd.nc"))].

(** [demo_params] with two wet names for four dates. *)
Definition short_params : Params Z (list Z) :=
  let p := demo_params false in
  {| date_list := date_list p;
     wetFilenames := take 2 (wetFilenames p);
     hydroFilenames := hydroFilenames p;
     los := los p;
     aoi := aoi p;
     weather_model := weather_model p;
     weather_model_directory := weather_model_directory p;
     zref := zref p;
     verbose := verbose p;
     download_only := download_only p;
     height_levels := height_levels p;
     output_projection := output_projection p;
     look_dir := look_dir p;
     cube_spacing_in_m := cube_spacing_in_m p;
     raster_format := raster_format p |}.

(** *** The command line *)

(** A shell whose current directory [/work] holds [custom.yaml] and
    [raider.yaml], with the package installed in [/opt/RAiDER]. *)
Definition demo_shell : Cli.Shell nat :=
  {| Cli.RAiDER_dir := "/opt/RAiDER";
     Cli.getcwd w := "/work";
     Cli.isfile w p := String.eqb p "custom.yaml" || String.eqb p "raider.yaml";
     Cli.abspath w p := Cli.path_join "/work" p;
     Cli.copyfile w src dst := (S w, Returns tt) |}.

(** [demo_params] with [verbose] set. *)
Definition loud_params : Params Z (list Z) :=
  let p := demo_params false in
  {| date_list := date_list p;
     wetFilenames := wetFilenames p;
     hydroFilenames := hydroFilenames p;
     los := los p;
     aoi := aoi p;
     weather_model := weather_model p;
     weather_model_directory := weather_model_directory p;
     zref := zref p;
     verbose := true;
     download_only := download_only p;
     height_levels := height_levels p;
     output_projection := output_projection p;
     look_dir := look_dir p;
     cube_spacing_in_m := cube_spacing_in_m p;
     raster_format := raster_format p |}.

(** A check that accepts every template. *)
Definition demo_checker : Cli.Checker nat string Z (list Z) :=
  fun w template => (S w, Returns loud_params).

Definition demo_console
  : Cli.cstate (W := nat) (Obj := string) (Date := Z) (Bounds := list Z)
           (Artifact := string) :=
  Cli.CState demo_reading [] [].

(** The parameters with other lists of dates and file names. *)
Definition with_lists {Date Bounds : Type} (p : Params Date Bounds)
    (dates : list Date) (wets hydros : list string) : Params Date Bounds :=
  {| date_list := dates;
     wetFilenames := wets;
     hydroFilenames := hydros;
     los := los p;
     aoi := aoi p;
     weather_model := weather_model p;
     weather_model_directory := weather_model_directory p;
     zref := zref p;
     verbose := verbose p;
     download_only := download_only p;
     height_levels := height_levels p;
     output_projection := output_projection p;
     look_dir := look_dir p;
     cube_spacing_in_m := cube_spacing_in_m p;
     raster_format := raster_format p |}.

(** The number of jobs: the length of the shortest of the three
    lists. *)
Definition shortest {Date Bounds : Type} (p : Params Date Bounds) : nat :=
  Nat.min (length (date_list p))
          (Nat.min (length (wetFilenames p)) (length (hydroFilenames p))).

(** The parameters with the three lists cut to the shortest. *)
Definition cut_to_shortest {Date Bounds : Type} (p : Params Date Bounds)
  : Params Date Bounds :=
  with_lists p (take (shortest p) (date_list p))
             (take (shortest p) (wetFilenames p))
             (take (shortest p) (hydroFilenames p)).

End SpecX.

(** * Properties *)

(** ** Strings *)

Module PyStrFacts.
Import PyStr Spec.

#[local] Arguments String.append !_ _ / : simpl nomatch.

(** The built-ins on inputs whose Python results are known:
    [re.split(r'_+', '_a__b_') == ['', 'a', 'b', '']],
    [re.split(r'_+', '') == ['']],
    [os.path.splitext('out/.hidden') == ('out/.hidden', '')],
    [os.path.splitext('a.b/c.tar.gz') == ('a.b/c.tar', '.gz')],
    ['aaa'.replace('aa', 'b') == 'ba'], ['x.nc'.endswith('.nc')]. *)
Example builtins_on_known_inputs :
  re_split_underscores "_a__b_" = [""; "a"; "b"; ""] /\
  re_split_underscores "" = [""] /\
  splitext "out/.hidden" = ("out/.hidden", "") /\
  splitext "a.b/c.tar.gz" = ("a.b/c.tar", ".gz") /\
  splitext "a.b/c" = ("a.b/c", "") /\
  py_replace "aa" "b" "aaa" = "ba" /\
  py_replace "_ztd" "_std" "x_ztd/y_ztd.h5" = "x_std/y_std.h5" /\
  endswith ".nc" "x.nc" = true /\
  endswith ".nc" "nc" = false /\
  slice_to 3 "S1" = "S1".
Proof. repeat split. Qed.

Lemma append_empty_r (s : string) : s +:+ "" = s.
Proof. induction s as [|c s IH]; simpl; [done | by rewrite IH]. Qed.

Lemma append_assoc (a b c : string) : (a +:+ b) +:+ c = a +:+ (b +:+ c).
Proof. induction a as [|x a IH]; simpl; [done | by rewrite IH]. Qed.

Lemma startswith_length (p s : string) :
  startswith p s = true -> (String.length p <= String.length s)%nat.
Proof.
  revert s; induction p as [|c p IH]; intros [|d s]; simpl; try lia; try done.
  intros [_ Hs]%andb_prop. apply IH in Hs. lia.
Qed.

Section ReplaceApp.
Variables old new t : string.
Hypothesis no_straddle :
  forall a, a <> "" -> startswith old (a +:+ t) = startswith old a.

(** When no occurrence of [old] can begin before [t] and end inside it,
    replacement treats the two parts separately. *)
Lemma replace_go_app (a : string) :
  forall skip, (skip <= String.length a)%nat ->
    replace_go old new skip (a +:+ t)
    = replace_go old new skip a +:+ replace_go old new 0 t.
Proof.
  induction a as [|c a IH]; intros skip Hskip; simpl in Hskip.
  - by replace skip with 0%nat by lia.
  - destruct skip as [|k].
    + change (replace_go old new 0 (String c a +:+ t))
        with (if startswith old (String c (a +:+ t))
              then new +:+ replace_go old new (String.length old - 1) (a +:+ t)
              else String c (replace_go old new 0 (a +:+ t))).
      change (replace_go old new 0 (String c a))
        with (if startswith old (String c a)
              then new +:+ replace_go old new (String.length old - 1) a
              else String c (replace_go old new 0 a)).
      change (String c (a +:+ t)) with (String c a +:+ t).
      rewrite no_straddle by done.
      destruct (startswith old (String c a)) eqn:Hp.
      * apply startswith_length in Hp; simpl in Hp.
        rewrite IH by lia. by rewrite append_assoc.
      * rewrite IH by lia. done.
    + simpl. apply IH. lia.
Qed.

Lemma py_replace_app (a : string) :
  py_replace old new (a +:+ t) = py_replace old new a +:+ py_replace old new t.
Proof. apply replace_go_app. lia. Qed.

End ReplaceApp.

Lemma no_straddle_ztd (b : string) :
  forall a, a <> "" ->
    startswith "_ztd" (a +:+ ("_ztd" +:+ b)) = startswith "_ztd" a.
Proof.
  intros a Ha.
  destruct a as [|c1 [|c2 [|c3 [|c4 a]]]]; simpl; rewrite ?andb_false_r; done.
Qed.

Lemma no_straddle_std (b : string) :
  forall a, a <> "" ->
    startswith "_std" (a +:+ ("_std" +:+ b)) = startswith "_std" a.
Proof.
  intros a Ha.
  destruct a as [|c1 [|c2 [|c3 [|c4 a]]]]; simpl; rewrite ?andb_false_r; done.
Qed.

Lemma no_straddle_wet (suf : string) :
  suf = ".nc" \/ suf = ".h5" ->
  forall a, a <> "" -> startswith "wet" (a +:+ suf) = startswith "wet" a.
Proof.
  intros [-> | ->] a Ha;
    destruct a as [|c1 [|c2 [|c3 a]]]; simpl; rewrite ?andb_false_r; done.
Qed.

(** *** Splitting on runs of underscores *)

Lemma join_fields_cons (c : ascii) (first : string) rest :
  join_fields (String c first) rest = String c (join_fields first rest).
Proof. by destruct rest as [|[sep fld] rest]. Qed.

Lemma split_fields_spec (s : string) :
  splits_on_underscores s (split_fields false s) /\
  exists u first rest,
    split_fields true s = first :: map snd rest /\
    s = u +:+ join_fields first rest /\
    all_chars is_underscore u = true /\
    no_underscore first /\
    Forall (fun sf => is_run sf.1 /\ no_underscore sf.2) rest /\
    Forall (fun sf => sf.2 <> "") (removelast rest) /\
    (rest <> [] -> first <> "").
Proof.
  induction s as [|c s [IHf IHt]].
  - split.
    + exists "", []. by repeat split; try constructor.
    + exists "", "", []. by repeat split; try constructor.
  - simpl split_fields. destruct (is_underscore c) eqn:Hc.
    + assert (c = "_"%char) as -> by (by apply Ascii.eqb_eq).
      destruct IHt as (u & first & rest & Heq & Hs & Hu & Hn & Hr & Hi & Hne).
      split.
      * exists "", (("_" +:+ u, first) :: rest).
        rewrite Heq. repeat split; try done.
        -- simpl. by rewrite <- Hs.
        -- constructor; [|done]. by repeat split.
        -- destruct rest as [|sf rest]; [constructor|].
           constructor; [|done]. by apply Hne.
      * exists ("_" +:+ u), first, rest. repeat split; try done.
        by rewrite Hs.
    + destruct IHf as (first & rest & Heq & Hs & Hn & Hr & Hi).
      rewrite Heq.
      assert (no_underscore (String c first)) as Hn'.
      { unfold no_underscore; simpl. by rewrite Hc. }
      split.
      * exists (String c first), rest. repeat split; try done.
        by rewrite join_fields_cons, Hs.
      * exists "", (String c first), rest. repeat split; try done.
        by rewrite join_fields_cons, Hs.
Qed.

Lemma re_split_underscores_spec (s : string) :
  splits_on_underscores s (re_split_underscores s).
Proof. apply split_fields_spec. Qed.

(** *** Slices, suffixes and extensions *)

Lemma slice_to_prefix (n : nat) (s : string) :
  exists rest, s = slice_to n s +:+ rest /\
    String.length (slice_to n s) = Nat.min n (String.length s).
Proof.
  revert s; induction n as [|n IH]; intros s.
  - exists s. by destruct s.
  - destruct s as [|c s]; [by exists ""|].
    destruct (IH s) as (rest & Hs & Hl). exists rest. simpl.
    by rewrite <- Hs, Hl.
Qed.

Lemma endswith_unfold (suf s : string) :
  endswith suf s
  = String.eqb s suf
    || match s with EmptyString => false | String _ r => endswith suf r end.
Proof. by destruct s. Qed.

Lemma endswith_app (a suf : string) : endswith suf (a +:+ suf) = true.
Proof.
  induction a as [|c a IH].
  - change ("" +:+ suf) with suf.
    rewrite endswith_unfold. by rewrite String.eqb_refl.
  - change (String c a +:+ suf) with (String c (a +:+ suf)).
    rewrite endswith_unfold, IH. by rewrite orb_true_r.
Qed.

Lemma endswith_inv (suf s : string) :
  endswith suf s = true -> exists a, s = a +:+ suf.
Proof.
  induction s as [|c s IH]; rewrite endswith_unfold.
  - rewrite orb_false_r. intros ->%String.eqb_eq. by exists "".
  - intros [->%String.eqb_eq | Hs]%orb_prop; [by exists ""|].
    destruct (IH Hs) as [a ->]. by exists (String c a).
Qed.

Lemma last_char_app (a b : string) :
  b <> "" -> last_char (a +:+ b) = last_char b.
Proof.
  intros Hb. induction a as [|c a IH]; [done|].
  simpl. rewrite <- IH.
  destruct (a +:+ b) eqn:E; [|done].
  destruct a; simpl in E; [done | discriminate].
Qed.

Lemma endswith_nc_h5 (a : string) : endswith ".nc" (a +:+ ".h5") = false.
Proof.
  destruct (endswith ".nc" (a +:+ ".h5")) eqn:E; [|done].
  apply endswith_inv in E as [b Hb].
  apply (f_equal last_char) in Hb.
  rewrite !last_char_app in Hb by done. discriminate.
Qed.

Lemma substring_split (n : nat) (p : string) :
  String.substring 0 n p +:+ String.substring n (String.length p - n) p = p.
Proof.
  revert n; induction p as [|c p IH]; intros [|n]; simpl; try done.
  - f_equal. clear IH. induction p as [|d p IH]; simpl; [done | by rewrite IH].
  - by rewrite IH.
Qed.

Lemma splitext_app (p : string) : (splitext p).1 +:+ (splitext p).2 = p.
Proof.
  unfold splitext.
  destruct (_ >? _)%Z; [|apply append_empty_r].
  destruct (has_nondot _ _ _); [|apply append_empty_r].
  apply substring_split.
Qed.

End PyStrFacts.

(** ** The output router *)

Module RouterSpec.
Import PyStr PyStrFacts Driver Spec.

#[local] Arguments String.append !_ _ / : simpl nomatch.

Lemma replace_ztd_token (stem ext : string) :
  py_replace "_ztd" "_std" (stem +:+ "_ztd" +:+ ext)
  = py_replace "_ztd" "_std" stem +:+ "_std" +:+ py_replace "_ztd" "_std" ext.
Proof.
  rewrite py_replace_app by apply no_straddle_ztd. reflexivity.
Qed.

Lemma replace_std_token (stem ext : string) :
  py_replace "_std" "_ray" (stem +:+ "_std" +:+ ext)
  = py_replace "_std" "_ray" stem +:+ "_ray" +:+ py_replace "_std" "_ray" ext.
Proof.
  rewrite py_replace_app by apply no_straddle_std. reflexivity.
Qed.

Lemma replace_wet_suffix (a suf : string) :
  suf = ".nc" \/ suf = ".h5" ->
  py_replace "wet" "tropo" (a +:+ suf) = py_replace "wet" "tropo" a +:+ suf.
Proof.
  intros Hsuf. rewrite py_replace_app by by apply no_straddle_wet.
  by destruct Hsuf as [-> | ->].
Qed.

Lemma cube_name_shape (out_filename : string) :
  exists stem, cube_name out_filename = stem +:+ cube_ext out_filename.
Proof.
  unfold cube_name, cube_ext.
  pose proof (splitext_app out_filename) as Happ.
  destruct (splitext out_filename) as [root ext]; simpl in *.
  destruct (String.eqb ext ".nc") eqn:Enc.
  - apply String.eqb_eq in Enc as ->. simpl.
    exists (py_replace "wet" "tropo" root).
    rewrite <- Happ. apply replace_wet_suffix; by left.
  - destruct (String.eqb ext ".h5") eqn:Eh5; simpl.
    + apply String.eqb_eq in Eh5 as ->.
      exists (py_replace "wet" "tropo" root).
      rewrite <- Happ. apply replace_wet_suffix; by right.
    + exists (py_replace "wet" "tropo" root).
      apply replace_wet_suffix; by left.
Qed.

Lemma cube_name_writer (out_filename : string) :
  endswith (cube_ext out_filename) (cube_name out_filename) = true /\
  cube_writer_for (cube_name out_filename) = Some (cube_writer_of out_filename).
Proof.
  destruct (cube_name_shape out_filename) as [stem ->].
  split; [apply endswith_app|].
  unfold cube_writer_for, cube_ext, cube_writer_of.
  destruct (String.eqb _ ".h5").
  - by rewrite endswith_nc_h5, endswith_app.
  - by rewrite endswith_app.
Qed.

(** C8.  The names follow the line-of-sight mode: when [is_Projected()]
    holds every ["_ztd"] of both names becomes ["_std"]; otherwise, when
    [ray_trace()] holds, every ["_std"] becomes ["_ray"]; otherwise both
    names are kept.  A name [stem ++ "_ztd" ++ ext] therefore has its
    suffix token replaced whatever [stem] is, and the two literal
    scenarios come out as stated. *)
Theorem derive_names_by_mode :
  (forall rt w f,
      derive_names (Los true rt) w f
      = (py_replace "_ztd" "_std" w, py_replace "_ztd" "_std" f)) /\
  (forall w f,
      derive_names (Los false true) w f
      = (py_replace "_std" "_ray" w, py_replace "_std" "_ray" f)) /\
  (forall w f, derive_names (Los false false) w f = (w, f)) /\
  (forall stem ext,
      py_replace "_ztd" "_std" (stem +:+ "_ztd" +:+ ext)
      = py_replace "_ztd" "_std" stem +:+ "_std"
        +:+ py_replace "_ztd" "_std" ext) /\
  (forall stem ext,
      py_replace "_std" "_ray" (stem +:+ "_std" +:+ ext)
      = py_replace "_std" "_ray" stem +:+ "_ray"
        +:+ py_replace "_std" "_ray" ext) /\
  derive_names (Los true false) "20200101_ztd.h5" "20200101_ztd.h5"
  = ("20200101_std.h5", "20200101_std.h5") /\
  (forall stem,
      derive_names (Los false true) (stem +:+ "_std.nc") (stem +:+ "_std.nc")
      = (py_replace "_std" "_ray" stem +:+ "_ray.nc",
         py_replace "_std" "_ray" stem +:+ "_ray.nc")) /\
  derive_names (Los false true) "..._std.nc" "..._std.nc"
  = ("..._ray.nc", "..._ray.nc").
Proof.
  split; [done|]. split; [done|]. split; [done|].
  split; [apply replace_ztd_token|]. split; [apply replace_std_token|].
  split; [done|]. split; [|done].
  intros stem.
  assert (py_replace "_std" "_ray" (stem +:+ "_std.nc")
          = py_replace "_std" "_ray" stem +:+ "_ray.nc") as E
    by exact (replace_std_token stem ".nc").
  unfold derive_names; simpl is_Projected; simpl ray_trace; cbv iota.
  by rewrite E.
Qed.

Section Cube.
Context {W Date Bounds Artifact Delay : Type}.
Context `{Countable Date}.
Context {engines : Engines W Date Bounds Artifact Delay}.

(** C9.  With [hydro_delay is None] the stored wet name is
    [cube_name] of the derived name: the extension is forced to [".nc"]
    unless it is [".nc"] or [".h5"], then ["wet"] is replaced with
    ["tropo"]; the result keeps that extension, so exactly one
    [to_netcdf] call is made, the one for it, followed by the log line.
    ["20200101_wet.tif"] becomes ["20200101_tropo.nc"], written by the
    [".nc"] writer. *)
Theorem cube_route (p : Params Date Bounds) (ds : Delay) (w f : string)
    (s : state) :
  let out := (derive_names (los p) w f).1 in
  let name := cube_name out in
  let k := cube_writer_of out in
  name = py_replace "wet" "tropo"
           (if String.eqb (splitext out).2 ".nc"
               || String.eqb (splitext out).2 ".h5"
            then out else (splitext out).1 +:+ ".nc") /\
  endswith (cube_ext out) name = true /\
  cube_writer_for name = Some k /\
  route p ds None w f s
  = match to_netcdf (world s) ds name k with
    | (w', Ok _) =>
        (State w' (trace s ++ [ToNetcdfCall name k;
                               Info "Wrote delays to: %s" name]),
         Ok (name, (derive_names (los p) w f).2))
    | (w', Raise e) => (State w' (trace s ++ [ToNetcdfCall name k]), Raise e)
    end /\
  cube_name "20200101_wet.tif" = "20200101_tropo.nc" /\
  cube_writer_for "20200101_tropo.nc" = Some NetCDF.
Proof.
  unfold route.
  destruct (derive_names (los p) w f) as [o f'] eqn:Ed. cbn [fst snd].
  destruct (cube_name_writer o) as [Hend Hw].
  repeat split; try done.
  unfold write_cube. rewrite Hw.
  unfold bind, invoke, emit, ret.
  destruct (to_netcdf (world s) ds (cube_name o) (cube_writer_of o))
    as [w' [[]|e]]; simpl; [|done].
  by rewrite <- app_assoc.
Qed.

End Cube.

End RouterSpec.

(** ** The [netrc] parser never runs out of fuel *)

Module NetrcFacts.
Import PyStr Orbits CPythonNetrc.
#[local] Open Scope list_scope.

Lemma scan_length_bounded (m : nat) :
  forall s, String.length s <= m ->
  forall st token n, String.length (scan st token n s).2.2 <= String.length s.
Proof.
  induction m as [|m IH]; intros s Hs st token n.
  - destruct s; [done | cbn in Hs; lia].
  - destruct s as [|ch r]; [done|]. cbn [String.length] in *.
    assert (forall st' token' n',
               String.length (scan st' token' n' r).2.2 <= S (String.length r))
      as Hr by (intros; etrans; [apply IH; lia | lia]).
    assert (forall st',
               String.length
                 (if Ascii.eqb ch "\"
                  then match r with
                       | EmptyString => (token, (count_line ch n, EmptyString))
                       | String ch2 r2 =>
                           scan st' (token +:+ String ch2 EmptyString)
                                (count_line ch2 (count_line ch n)) r2
                       end
                  else scan st' (token +:+ String ch EmptyString)
                            (count_line ch n) r).2.2
               <= S (String.length r)) as Htake.
    { intros st'. destruct (Ascii.eqb ch "\"); [|apply Hr].
      destruct r as [|ch2 r2]; [cbn; lia|]. cbn [String.length] in *.
      etrans; [apply IH; lia | lia]. }
    cbn [scan]. cbv zeta.
    destruct st.
    + destruct (is_whitespace ch); [apply Hr|].
      destruct (Ascii.eqb ch QUOTE); [apply Hr | apply Htake].
    + destruct (Ascii.eqb ch QUOTE); [cbn; lia | apply Htake].
    + destruct (is_whitespace ch); [cbn; lia | apply Htake].
Qed.

Lemma scan_length (s : string) (st : lex_state) (token : string) (n : nat) :
  String.length (scan st token n s).2.2 <= String.length s.
Proof. by apply (scan_length_bounded (String.length s)). Qed.

(** A token read from the stream is empty unless a character was
    consumed. *)
Lemma scan_token (s : string) :
  forall n, (scan Skipping "" n s).1 <> "" ->
            String.length (scan Skipping "" n s).2.2 < String.length s.
Proof.
  induction s as [|ch r IH]; intros n; [done|].
  cbn [scan String.length]. cbv zeta.
  destruct (is_whitespace ch).
  { intros Htok. specialize (IH _ Htok). lia. }
  destruct (Ascii.eqb ch QUOTE).
  { intros _. pose proof (scan_length r Quoted "" (count_line ch n)). lia. }
  destruct (Ascii.eqb ch "\").
  - destruct r as [|ch2 r2]; [done|]. intros _. cbn [String.length].
    match goal with
    | |- context [scan ?a ?b ?c r2] => pose proof (scan_length r2 a b c)
    end. lia.
  - intros _.
    match goal with
    | |- context [scan ?a ?b ?c r] => pose proof (scan_length r a b c)
    end. lia.
Qed.

Lemma get_token_weight (lx : lexer) :
  weight (get_token lx).2 <= weight lx /\
  ((get_token lx).1 <> "" -> weight (get_token lx).2 < weight lx).
Proof.
  unfold get_token, weight. destruct lx as [s n [|token rest]]; cbn [pushback instream].
  - pose proof (scan_length s Skipping "" n) as Hle.
    pose proof (scan_token s n) as Hlt.
    revert Hle Hlt. cbn [lineno].
    destruct (scan Skipping "" n s) as [token [n' r]]. cbn.
    intros Hle Hlt. split; [lia|]. intros Htok. specialize (Hlt Htok). lia.
  - cbn [fst snd instream pushback List.filter].
    destruct (nonempty token) eqn:Hn; cbn [length].
    + split; lia.
    + split; [lia|]. intros Hne. unfold nonempty in Hn.
      by apply negb_false_iff, String.eqb_eq in Hn.
Qed.

Lemma read_line_length (s : string) :
  String.length (read_line s).2 <= String.length s /\
  ((read_line s).1 <> "" -> String.length (read_line s).2 < String.length s).
Proof.
  induction s as [|ch r [IH _]]; [done|]. cbn [read_line String.length].
  destruct (Ascii.eqb ch LF); [cbn; lia|].
  destruct (read_line r) as [line rest]. cbn in *. lia.
Qed.

Lemma readline_weight (lx : lexer) :
  weight (readline lx).2 <= weight lx /\
  ((readline lx).1 <> "" -> weight (readline lx).2 < weight lx).
Proof.
  unfold readline, weight.
  pose proof (read_line_length (instream lx)) as [Hle Hlt].
  destruct (read_line (instream lx)) as [line rest]. cbn in *.
  split; [lia|]. intros Hl. specialize (Hlt Hl). lia.
Qed.

Lemma push_token_weight (token : string) (lx : lexer) :
  weight (push_token token lx)
  = weight lx + (if String.eqb token "" then 0 else 1).
Proof.
  unfold push_token, weight. cbn [instream pushback].
  rewrite List.filter_app, length_app. cbn [List.filter]. unfold nonempty at 2.
  destruct (String.eqb token ""); cbn; lia.
Qed.

Lemma parse_macro_fuel (fuel : nat) :
  forall lx lines,
    weight lx < fuel ->
    exists r, parse_macro fuel lx lines = Some r /\
              forall l lx', r = Ok (l, lx') -> weight lx' <= weight lx.
Proof.
  induction fuel as [|fuel IH]; intros lx lines Hw; [lia|].
  cbn [parse_macro].
  pose proof (readline_weight lx) as [Hle Hlt].
  destruct (readline lx) as [line lx1]. cbn [fst snd] in *.
  destruct (String.eqb_spec line "") as [->|Hne]; [by eexists|].
  destruct (String.eqb line newline).
  - eexists. split; [done|]. by intros l lx' [= _ <-].
  - specialize (Hlt Hne).
    destruct (IH lx1 (lines ++ [line])) as (r & -> & Hr); [lia|].
    exists r. split; [done|]. intros l lx' Hok. specialize (Hr _ _ Hok). lia.
Qed.

Lemma startswith_nonempty (p tok : string) :
  p <> "" -> startswith p tok = true -> tok <> "".
Proof. destruct p; [done|]. by destruct tok. Qed.

Lemma parse_entry_fuel (fuel : nat) :
  forall lx login account password,
    weight lx < fuel ->
    exists r, parse_entry fuel lx login account password = Some r /\
              forall c lx', r = Ok (c, lx') -> weight lx' <= weight lx.
Proof.
  induction fuel as [|fuel IH]; intros lx login account password Hw; [lia|].
  cbn [parse_entry].
  pose proof (get_token_weight lx) as [Hle Hlt].
  destruct (get_token lx) as [tok lx1]. cbn [fst snd] in *.
  assert (forall lg ac pw,
             tok <> "" ->
             exists r, (let '(v, lx2) := get_token lx1 in
                        parse_entry fuel lx2 (lg v) (ac v) (pw v)) = Some r /\
                       forall c lx', r = Ok (c, lx') -> weight lx' <= weight lx)
    as Hvalue.
  { intros lg ac pw Hne. specialize (Hlt Hne).
    pose proof (get_token_weight lx1) as [Hle1 _].
    destruct (get_token lx1) as [v lx2]. cbn [fst snd] in *.
    destruct (IH lx2 (lg v) (ac v) (pw v)) as (r & -> & Hr); [lia|].
    exists r. split; [done|]. intros c lx' Hok. specialize (Hr _ _ Hok). lia. }
  destruct (startswith "#" tok) eqn:Hc.
  { apply startswith_nonempty in Hc; [|done]. specialize (Hlt Hc).
    pose proof (readline_weight lx1) as [Hle1 _].
    destruct (IH (if (lineno lx1 =? lineno lx)%nat then (readline lx1).2
                  else lx1) login account password) as (r & -> & Hr).
    { destruct (_ =? _)%nat; lia. }
    exists r. split; [done|]. intros c lx' Hok. specialize (Hr _ _ Hok).
    destruct (_ =? _)%nat; lia. }
  destruct (String.eqb_spec tok "") as [->|Hne].
  { cbn [orb]. eexists. split; [done|]. intros c lx' [= _ <-].
    rewrite push_token_weight, String.eqb_refl. lia. }
  specialize (Hlt Hne). cbn [orb].
  destruct (String.eqb tok "machine" || String.eqb tok "default"
            || String.eqb tok "macdef").
  { eexists. split; [done|]. intros c lx' [= _ <-].
    rewrite push_token_weight. destruct (String.eqb tok ""); lia. }
  destruct (String.eqb tok "login" || String.eqb tok "user").
  { exact (Hvalue (fun v => v) (fun _ => account) (fun _ => password) Hne). }
  destruct (String.eqb tok "account").
  { exact (Hvalue (fun _ => login) (fun v => v) (fun _ => password) Hne). }
  destruct (String.eqb tok "password").
  { exact (Hvalue (fun _ => login) (fun _ => account) (fun v => v) Hne). }
  by eexists.
Qed.

Lemma parse_top_fuel (fuel : nat) :
  forall lx hosts macros,
    weight lx < fuel -> is_Some (parse_top fuel lx hosts macros).
Proof.
  induction fuel as [|fuel IH]; intros lx hosts macros Hw; [lia|].
  cbn [parse_top]. cbv zeta.
  pose proof (get_token_weight lx) as [Hle Hlt].
  destruct (get_token lx) as [tok lx1]. cbn [fst snd] in *.
  destruct (String.eqb_spec tok "") as [->|Hne]; [done|].
  specialize (Hlt Hne).
  assert (forall entryname lx2,
             weight lx2 <= weight lx1 ->
             is_Some
               (if String.eqb entryname "" then Some (Raise NetrcParseError)
                else match parse_entry fuel lx2 "" "" "" with
                     | Some (Ok (c, lx3)) =>
                         parse_top fuel lx3 (assoc_set entryname c hosts) macros
                     | Some (Raise x) => Some (Raise x)
                     | None => None
                     end)) as Hentry.
  { intros entryname lx2 Hle2. destruct (String.eqb entryname ""); [done|].
    destruct (parse_entry_fuel fuel lx2 "" "" "") as (r & -> & Hr); [lia|].
    destruct r as [[c lx3]|x]; [|done].
    apply IH. specialize (Hr _ _ eq_refl). lia. }
  destruct (startswith "#" tok).
  { apply IH. pose proof (readline_weight lx1) as [Hle1 _].
    destruct (_ && _); lia. }
  destruct (String.eqb tok "machine").
  { pose proof (get_token_weight lx1) as [Hle1 _].
    destruct (get_token lx1) as [entryname lx2]. by apply Hentry. }
  destruct (String.eqb tok "default"); [by apply Hentry|].
  destruct (String.eqb tok "macdef"); [|done].
  pose proof (get_token_weight lx1) as [Hle1 _].
  destruct (get_token lx1) as [entryname lx2]. cbn [fst snd] in *.
  destruct (parse_macro_fuel fuel lx2 []) as (r & -> & Hr); [lia|].
  destruct r as [[lines lx3]|x]; [|done].
  apply IH. specialize (Hr _ _ eq_refl). lia.
Qed.

(** The fuel that [parse] gives is enough for every text. *)
Lemma parse_fuel (text : string) :
  let stream := universal_newlines text in
  parse_top (2 * String.length stream + 1) (Lexer stream 1 []) [] []
  = Some (parse text).
Proof.
  intros stream. unfold parse. fold stream.
  destruct (parse_top_fuel (2 * String.length stream + 1)
              (Lexer stream 1 []) [] []) as [r ->]; [|done].
  unfold weight. cbn. lia.
Qed.

End NetrcFacts.

(** ** Credentials *)

Module CredentialsSpec.
Import PyStr PyStrFacts Orbits CPythonNetrc Spec NetrcFacts.
#[local] Open Scope list_scope.

Section Assoc.
Context {V : Type}.

Lemma assoc_mem_get (k : string) (d : list (string * V)) :
  assoc_mem k d = match assoc_get k d with Some _ => true | None => false end.
Proof.
  induction d as [|[k' v] d IH]; [done|]. cbn.
  by destruct (String.eqb k k').
Qed.

Lemma assoc_set_absent (k : string) (v : V) (d : list (string * V)) :
  assoc_mem k d = false -> assoc_set k v d = d ++ [(k, v)].
Proof.
  induction d as [|[k' v'] d IH]; [done|]. cbn.
  destruct (String.eqb k k'); cbn; [done|]. intros Hd. by rewrite IH.
Qed.

End Assoc.

Section WithLib.
Context {lib : NetrcLib}.

(** The three ways the call can go, by what reading the store gives. *)
Lemma ensure_unreadable (e : environment) (x : exn) :
  read_record e = Raise x ->
  ensure_orbit_credentials e = (touched e, Raise x).
Proof.
  unfold read_record, ensure_orbit_credentials, touched.
  by destruct (netrc_parse _); [|intros [= ->]].
Qed.

Lemma ensure_existing (e : environment) (c : credentials) :
  read_record e = Ok (Some c) ->
  ensure_orbit_credentials e = (touched e, Ok None).
Proof.
  unfold read_record, ensure_orbit_credentials, touched.
  destruct (netrc_parse _) as [n|x]; [|done]. intros [= Hc].
  by rewrite assoc_mem_get, Hc.
Qed.

Lemma read_record_none (e : environment) :
  read_record e = Ok None <->
  exists n, netrc_parse (content (open_store e)) = Ok n /\
            assoc_mem ESA_CDSE_HOST (hosts n) = false.
Proof.
  unfold read_record. destruct (netrc_parse _) as [n|x].
  - split.
    + intros [= Hn]. exists n. split; [done|]. by rewrite assoc_mem_get, Hn.
    + intros (n' & [= <-] & Hn). rewrite assoc_mem_get in Hn.
      by destruct (assoc_get _ _).
  - split; [done | by intros (n & ? & _)].
Qed.

Lemma ensure_missing (e : environment) (n : netrc_object) :
  netrc_parse (content (open_store e)) = Ok n ->
  assoc_mem ESA_CDSE_HOST (hosts n) = false ->
  ensure_orbit_credentials e
  = match environ e !! "ESA_USERNAME", environ e !! "ESA_PASSWORD" with
    | None, None => (touched e, Raise (ValueError missing_credentials_msg))
    | _, _ =>
        (Environment (Some (NetrcFile (mode (open_store e)) (written e n)))
                     (environ e),
         Ok (Some (String.length (written e n))))
    end.
Proof.
  intros Hn Hmem. unfold ensure_orbit_credentials, written, env_record.
  rewrite Hn, Hmem, (assoc_set_absent _ _ _ Hmem).
  by destruct (environ e !! "ESA_USERNAME"), (environ e !! "ESA_PASSWORD").
Qed.

Lemma touched_idem (e : environment) : touched (touched e) = touched e.
Proof. done. Qed.


Lemma read_record_touched (e : environment) :
  read_record (touched e) = read_record e.
Proof. done. Qed.

End WithLib.

(** The text that CPython writes: the hosts, then the macros. *)
Lemma foldl_text {A : Type} (f : A -> string) (l : list A) (init : string) :
  foldl (fun rep x => rep +:+ f x) init l
  = init +:+ foldl (fun rep x => rep +:+ f x) "" l.
Proof.
  revert init. induction l as [|x l IH]; intros init.
  - cbn. by rewrite append_empty_r.
  - cbn [foldl]. rewrite IH, (IH ("" +:+ f x)).
    change ("" +:+ f x) with (f x). by rewrite append_assoc.
Qed.

Lemma repr_added (n : netrc_object) (entry : string * credentials) :
  repr (NetrcObject (hosts n ++ [entry]) (macros n))
  = hosts_text (hosts n) +:+ host_text entry +:+ macros_text (macros n).
Proof.
  unfold repr, hosts_text, macros_text. cbn [hosts macros].
  rewrite foldl_text, foldl_app. cbn [foldl].
  by rewrite append_assoc.
Qed.

(** The library model on the stores of this section:
    [netrc.netrc] reads the text written for [both_set] back as it was
    stored; the text written for [user_only] holds the word [None] as
    its password; the one written when the user name is the empty
    string, or holds a blank, does not read back at all, and takes a
    quoted name of another host with it. *)
Example netrc_on_written_stores :
  parse (repr (NetrcObject
                 [(ESA_CDSE_HOST, Credentials (Some "user") None (Some "secret"))]
                 []))
  = Ok (NetrcObject
          [(ESA_CDSE_HOST, Credentials (Some "user") (Some "") (Some "secret"))]
          []) /\
  parse (repr (NetrcObject
                 [(ESA_CDSE_HOST, Credentials (Some "user") None None)] []))
  = Ok (NetrcObject
          [(ESA_CDSE_HOST, Credentials (Some "user") (Some "") (Some "None"))]
          []) /\
  parse (repr (NetrcObject
                 [(ESA_CDSE_HOST, Credentials (Some "") None (Some "secret"))]
                 []))
  = Raise NetrcParseError /\
  parse (repr (NetrcObject
                 [(ESA_CDSE_HOST, Credentials (Some "a b") None (Some "c"))]
                 []))
  = Raise NetrcParseError /\
  parse ("machine other login " +:+ String QUOTE "my user"
         +:+ String QUOTE " password x")
  = Ok (NetrcObject
          [("other", Credentials (Some "my user") (Some "") (Some "x"))] []) /\
  parse (repr (NetrcObject
                 [("other", Credentials (Some "my user") (Some "") (Some "x"));
                  (ESA_CDSE_HOST, Credentials (Some "user") None (Some "secret"))]
                 []))
  = Raise NetrcParseError.
Proof. repeat split; by vm_compute. Qed.






End CredentialsSpec.

(** ** The orbit resolver *)

Module ResolverSpec.
Import PyStr PyStrFacts Orbits CPythonNetrc Spec CredentialsSpec.

Lemma mapM_cons_option {A B : Type} (f : A -> option B) (x : A) (l : list A) :
  mapM f (x :: l)
  = match f x with
    | Some y => match mapM f l with Some k => Some (y :: k) | None => None end
    | None => None
    end.
Proof. simpl. destruct (f x); [|done]. simpl. by destruct (mapM f l). Qed.

Lemma mapM_parse (slc_ids : list string) :
  match mapM parse_identifier slc_ids with
  | Some parsed =>
      mapM (field 4) slc_ids = Some (map start_of parsed) /\
      mapM (field 5) slc_ids = Some (map stop_of parsed) /\
      map (slice_to 3) slc_ids = map mission_of parsed
  | None =>
      mapM (field 4) slc_ids = None \/
      exists starts, mapM (field 4) slc_ids = Some starts /\
                     mapM (field 5) slc_ids = None
  end.
Proof.
  induction slc_ids as [|id ids IH]; [done|].
  rewrite !mapM_cons_option.
  change (map (slice_to 3) (id :: ids))
    with (slice_to 3 id :: map (slice_to 3) ids).
  unfold parse_identifier at 1.
  change (re_split_underscores id !! 4%nat) with (field 4 id).
  change (re_split_underscores id !! 5%nat) with (field 5 id).
  destruct (field 4 id) as [a|] eqn:E4; [|by left].
  destruct (field 5 id) as [b|] eqn:E5.
  - destruct (mapM parse_identifier ids) as [parsed|].
    + destruct IH as (-> & -> & ->). done.
    + destruct IH as [-> | (starts & -> & ->)]; [by left|].
      right. eexists. split; reflexivity.
  - destruct (mapM (field 4) ids) as [starts|]; [|by left].
    right. eexists. split; reflexivity.
Qed.

Section Resolver.
Context {P : Type} {client : EofClient P}.

Lemma download_loop_resolve (pairs : list (string * string)) :
  forall (s : session P) (acc : list string) (save_dir : string),
    download_loop s acc pairs save_dir
    = match resolve_all s pairs save_dir with
      | (s', Ok paths) => (s', Ok (acc ++ paths)%list)
      | (s', Raise e) => (s', Raise e)
      end.
Proof.
  induction pairs as [|[dt m] rest IH]; intros s acc dir; simpl.
  - by rewrite app_nil_r.
  - destruct (fetch_pair s dt m dir) as [s' [path|e]]; [|done].
    rewrite IH.
    destruct (resolve_all s' rest dir) as [s'' [paths|e]]; [|done].
    by rewrite <- app_assoc.
Qed.

Lemma download_loop_app (pre post : list (string * string)) :
  forall (s : session P) (acc : list string) (save_dir : string),
    download_loop s acc (pre ++ post) save_dir
    = match download_loop s acc pre save_dir with
      | (s', Ok acc') => download_loop s' acc' post save_dir
      | (s', Raise e) => (s', Raise e)
      end.
Proof.
  induction pre as [|[dt m] pre IH]; intros s acc dir; simpl; [done|].
  destruct (fetch_pair s dt m dir) as [s' [path|e]]; [apply IH | done].
Qed.

Lemma resolve_all_length (pairs : list (string * string)) :
  forall (s s' : session P) (save_dir : string) (paths : list string),
    resolve_all s pairs save_dir = (s', Ok paths) ->
    length paths = length pairs.
Proof.
  induction pairs as [|[dt m] rest IH]; intros s s' dir paths; simpl.
  - by intros [= _ <-].
  - destruct (fetch_pair s dt m dir) as [s1 [path|e]]; [|done].
    destruct (resolve_all s1 rest dir) as [s2 [ps|e]] eqn:E; [|done].
    intros [= _ <-]. simpl. f_equal. by eapply IH.
Qed.

Lemma resolve_all_app (pre post : list (string * string)) :
  forall (s : session P) (save_dir : string),
    resolve_all s (pre ++ post) save_dir
    = match resolve_all s pre save_dir with
      | (s1, Ok a) =>
          match resolve_all s1 post save_dir with
          | (s2, Ok b) => (s2, Ok (a ++ b)%list)
          | (s2, Raise e) => (s2, Raise e)
          end
      | (s1, Raise e) => (s1, Raise e)
      end.
Proof.
  induction pre as [|[dt m] pre IH]; intros s dir; simpl.
  - by destruct (resolve_all s post dir) as [s2 [b|e]].
  - destruct (fetch_pair s dt m dir) as [s' [path|e]]; [|done].
    rewrite IH.
    destruct (resolve_all s' pre dir) as [s1 [a|e]]; [|done].
    by destruct (resolve_all s1 post dir) as [s2 [b|e]].
Qed.

Lemma fetch_pair_raise (s s' : session P) (dt m save_dir : string) (x : exn) :
  fetch_pair s dt m save_dir = (s', Raise x) ->
  exists s0, attempt s0 dt m save_dir false = (s', Raise x).
Proof.
  unfold fetch_pair.
  destruct (attempt s dt m save_dir true) as [s1 [path|e]]; [done|].
  intros E. by eexists.
Qed.

Lemma resolve_all_raise (pairs : list (string * string)) :
  forall (s s' : session P) (save_dir : string) (x : exn),
    resolve_all s pairs save_dir = (s', Raise x) ->
    secondary_failure pairs save_dir x.
Proof.
  induction pairs as [|[dt m] rest IH]; intros s s' dir x; simpl; [done|].
  destruct (fetch_pair s dt m dir) as [s1 [path|e]] eqn:Ef.
  - destruct (resolve_all s1 rest dir) as [s2 [ps|e]] eqn:E; [done|].
    intros [= <- <-].
    destruct (IH _ _ _ _ E) as (s0 & s3 & dt' & m' & Hin & Ha).
    exists s0, s3, dt', m'. split; [by right | done].
  - intros [= <- <-].
    destruct (fetch_pair_raise _ _ _ _ _ _ Ef) as [s0 Ha].
    exists s0, s1, dt, m. split; [by left | done].
Qed.

Lemma download_eofs_outcome (s : session P) (dts missions : list string)
    (save_dir : string) :
  match download_eofs s dts missions save_dir with
  | (s', Ok paths) =>
      length paths = length dts /\
      resolve_all s (zip dts missions) save_dir = (s', Ok paths)
  | (s', Raise x) =>
      (exists paths,
          resolve_all s (zip dts missions) save_dir = (s', Ok paths) /\
          (length paths < length dts)%nat /\
          x = CountMismatch
                (Z.of_nat (length dts) - Z.of_nat (length paths))
                dts (length paths)) \/
      secondary_failure (zip dts missions) save_dir x
  end.
Proof.
  unfold download_eofs. rewrite download_loop_resolve.
  destruct (resolve_all s (zip dts missions) save_dir) as [s' [paths|x]] eqn:E.
  - rewrite app_nil_l.
    pose proof (resolve_all_length _ _ _ _ _ E) as Hlen.
    rewrite length_zip_with in Hlen.
    destruct (length paths =? length dts)%nat eqn:El; simpl.
    + apply Nat.eqb_eq in El. done.
    + apply Nat.eqb_neq in El. left. exists paths.
      split; [done|]. split; [lia | done].
  - right. by eapply resolve_all_raise.
Qed.

(** The pairs built by [get_orbits_from_slc_ids]: every start token with
    its mission, then every stop token with its mission. *)
Lemma tasks_split (parsed : list (string * string * string)) :
  zip (map start_of parsed ++ map stop_of parsed)
      (map mission_of parsed ++ map mission_of parsed)
  = (zip (map start_of parsed) (map mission_of parsed)
     ++ zip (map stop_of parsed) (map mission_of parsed))%list.
Proof. apply zip_with_app. by rewrite !length_map. Qed.

Lemma get_orbits_parse {lib : NetrcLib} (e : environment) (s : session P)
    (slc_ids : list string) (directory : string) :
  get_orbits_from_slc_ids e s slc_ids directory
  = match ensure_orbit_credentials e with
    | (e', Raise x) => (e', s, Raise x)
    | (e', Ok _) =>
        match mapM parse_identifier slc_ids with
        | None => (e', s, Raise IndexError)
        | Some parsed =>
            let '(s', r) :=
              download_eofs s (map start_of parsed ++ map stop_of parsed)
                (map mission_of parsed ++ map mission_of parsed) directory in
            (e', s', r)
        end
    end.
Proof.
  unfold get_orbits_from_slc_ids.
  destruct (ensure_orbit_credentials e) as [e' [v|x]]; [|done].
  pose proof (mapM_parse slc_ids) as Hp.
  destruct (mapM parse_identifier slc_ids) as [parsed|].
  - destruct Hp as (-> & -> & ->). done.
  - destruct Hp as [-> | (starts & -> & ->)]; done.
Qed.

(** C7.  The fields are those of a split on runs of underscores; the
    mission code is the first three characters; the resolver hands
    [download_eofs] the start tokens followed by the stop tokens (fifth
    and sixth field of every identifier) with the mission codes twice,
    and raises [IndexError] when an identifier lacks a field.  The
    literal identifier parses as stated. *)
Theorem identifier_parsing {lib : NetrcLib} (e : environment) (s : session P)
    (slc_ids : list string) (directory : string) :
  (forall slc_id,
      splits_on_underscores slc_id (re_split_underscores slc_id)) /\
  (forall slc_id,
      exists rest,
        slc_id = slice_to 3 slc_id +:+ rest /\
        String.length (slice_to 3 slc_id)
        = Nat.min 3 (String.length slc_id)) /\
  get_orbits_from_slc_ids e s slc_ids directory
  = match ensure_orbit_credentials e with
    | (e', Raise x) => (e', s, Raise x)
    | (e', Ok _) =>
        match mapM parse_identifier slc_ids with
        | None => (e', s, Raise IndexError)
        | Some parsed =>
            let '(s', r) :=
              download_eofs s (map start_of parsed ++ map stop_of parsed)
                (map mission_of parsed ++ map mission_of parsed) directory in
            (e', s', r)
        end
    end /\
  parse_identifier "S1A_IW_SLC__1SDV_20200101T000000_20200101T000030_..."
  = Some ("S1A", "20200101T000000", "20200101T000030").
Proof.
  split; [apply re_split_underscores_spec|].
  split; [intros slc_id; apply slice_to_prefix|].
  split; [apply get_orbits_parse | reflexivity].
Qed.

(** From [get_orbits_from_slc_ids] the two lists have the same length,
    so the count check passes: a failure after the credential step comes
    from the secondary provider. *)
Lemma get_orbits_failure {lib : NetrcLib} (e e' : environment)
    (v : option nat) (s : session P) (slc_ids : list string)
    (directory : string) (parsed : list (string * string * string)) (x : exn) :
  mapM parse_identifier slc_ids = Some parsed ->
  ensure_orbit_credentials e = (e', Ok v) ->
  (get_orbits_from_slc_ids e s slc_ids directory).2 = Raise x ->
  secondary_failure
    (zip (map start_of parsed ++ map stop_of parsed)
         (map mission_of parsed ++ map mission_of parsed)) directory x.
Proof.
  intros Hparsed Hcred. rewrite get_orbits_parse, Hcred, Hparsed.
  pose proof (download_eofs_outcome s
                (map start_of parsed ++ map stop_of parsed)
                (map mission_of parsed ++ map mission_of parsed) directory)
    as Hout.
  destruct (download_eofs s _ _ directory) as [s' [paths|y]]; [done|].
  cbn. intros [= ->].
  destruct Hout as [(paths & Hres & Hlt & _) | Hsec]; [|done].
  apply resolve_all_length in Hres.
  rewrite length_zip_with, !length_app, !length_map in Hres.
  rewrite !length_app, !length_map in Hlt. lia.
Qed.

(** C2.  For identifiers that all parse and credentials that are in
    place: the resolver returns exactly [2N] paths, the results for the
    start tokens in order followed by the results for the stop tokens in
    order, or it raises; what it raises is the count-mismatch error with
    the exact shortfall and the token list, or the error of an attempt
    on the secondary provider.  [download_eofs] itself, on any two lists,
    returns as many paths as there are tokens or raises one of those two
    errors; the shortfall reported is the number of tokens minus the
    number of paths collected. *)
Theorem orbits_complete {lib : NetrcLib} (e e' : environment) (v : option nat)
    (s : session P) (slc_ids : list string) (directory : string)
    (parsed : list (string * string * string)) :
  mapM parse_identifier slc_ids = Some parsed ->
  ensure_orbit_credentials e = (e', Ok v) ->
  let starts := map start_of parsed in
  let stops := map stop_of parsed in
  let missions := map mission_of parsed in
  match get_orbits_from_slc_ids e s slc_ids directory with
  | (_, s', Ok paths) =>
      length paths = (2 * length slc_ids)%nat /\
      exists s1 from_starts from_stops,
        resolve_all s (zip starts missions) directory = (s1, Ok from_starts) /\
        resolve_all s1 (zip stops missions) directory = (s', Ok from_stops) /\
        paths = (from_starts ++ from_stops)%list /\
        length from_starts = length slc_ids /\
        length from_stops = length slc_ids
  | (_, _, Raise x) =>
      (exists got : nat,
          (got < 2 * length slc_ids)%nat /\
          x = CountMismatch (Z.of_nat (2 * length slc_ids) - Z.of_nat got)
                (starts ++ stops) got) \/
      secondary_failure (zip (starts ++ stops) (missions ++ missions))
                        directory x
  end /\
  (forall (s0 : session P) (dts ms : list string),
      match download_eofs s0 dts ms directory with
      | (s', Ok paths) =>
          length paths = length dts /\
          resolve_all s0 (zip dts ms) directory = (s', Ok paths)
      | (s', Raise x) =>
          (exists paths,
              resolve_all s0 (zip dts ms) directory = (s', Ok paths) /\
              (length paths < length dts)%nat /\
              x = CountMismatch
                    (Z.of_nat (length dts) - Z.of_nat (length paths))
                    dts (length paths)) \/
          secondary_failure (zip dts ms) directory x
      end).
Proof.
  intros Hparsed Hcred starts stops missions.
  split; [|intros s0 dts ms; apply download_eofs_outcome].
  rewrite get_orbits_parse, Hcred, Hparsed.
  assert (length parsed = length slc_ids) as Hn
    by (symmetry; by eapply length_mapM).
  assert (length (starts ++ stops) = (2 * length slc_ids)%nat) as Hl.
  { rewrite length_app. subst starts stops. rewrite !length_map. lia. }
  pose proof (download_eofs_outcome s (starts ++ stops) (missions ++ missions)
                directory) as Hout.
  fold starts stops missions.
  destruct (download_eofs s (starts ++ stops) (missions ++ missions) directory)
    as [s' [paths|x]]; cbv beta iota zeta.
  - destruct Hout as [Hlen Hres]. split; [by rewrite Hlen|].
    unfold starts, stops, missions in Hres.
    rewrite tasks_split, resolve_all_app in Hres.
    fold starts stops missions in Hres.
    destruct (resolve_all s (zip starts missions) directory)
      as [s1 [a|x]] eqn:Ea; [|done].
    destruct (resolve_all s1 (zip stops missions) directory)
      as [s2 [b|x]] eqn:Eb; [|done].
    injection Hres as <- <-.
    exists s1, a, b. repeat split; try done.
    + apply resolve_all_length in Ea. subst starts missions.
      rewrite length_zip_with, !length_map in Ea. lia.
    + apply resolve_all_length in Eb. subst stops missions.
      rewrite length_zip_with, !length_map in Eb. lia.
  - destruct Hout as [(paths & _ & Hlt & ->) | Hsec]; [left | by right].
    exists (length paths). rewrite <- Hl. done.
Qed.

Lemma attempt_calls (s : session P) (dt mission save_dir : string)
    (force_asf : bool) :
  calls (attempt s dt mission save_dir force_asf).1
  = (calls s ++ [Call [dt] [mission] save_dir force_asf])%list /\
  errors_logged (attempt s dt mission save_dir force_asf).1 = errors_logged s.
Proof.
  unfold attempt, eof_call.
  destruct (eof_download_eofs (provider s) [dt] [mission] save_dir force_asf)
    as [p' [r|x]]; done.
Qed.

(** C4.  When the attempt on the primary provider (the call with
    [force_asf=True], or the unwrapping of its reply) raises, whatever
    the error: the message is logged and the secondary provider is
    called once, with the same token and mission and [force_asf=False];
    these two calls are all the calls made for the pair.  If that
    second attempt raises, its error leaves the loop at once, no further
    pair is tried, and [download_eofs] raises that very error. *)
Theorem fallback_once (s s1 : session P) (dt mission save_dir : string)
    (e1 : exn) :
  attempt s dt mission save_dir true = (s1, Raise e1) ->
  let msg := "Could not download orbit from ASF, trying ESA..." in
  let retry := attempt (log_error s1 msg) dt mission save_dir false in
  fetch_pair s dt mission save_dir = retry /\
  calls retry.1
  = (calls s ++ [Call [dt] [mission] save_dir true;
                 Call [dt] [mission] save_dir false])%list /\
  errors_logged retry.1 = (errors_logged s ++ [msg])%list /\
  match retry.2 with
  | Ok path =>
      forall acc rest,
        download_loop s acc ((dt, mission) :: rest) save_dir
        = download_loop retry.1 (acc ++ [path]) rest save_dir
  | Raise e2 =>
      (forall acc rest,
          download_loop s acc ((dt, mission) :: rest) save_dir
          = (retry.1, Raise e2)) /\
      (forall s0 pre acc rest dts missions,
          zip dts missions = (pre ++ (dt, mission) :: rest)%list ->
          download_loop s0 [] pre save_dir = (s, Ok acc) ->
          download_eofs s0 dts missions save_dir = (retry.1, Raise e2))
  end.
Proof.
  intros Hprimary msg retry.
  assert (fetch_pair s dt mission save_dir = retry) as Hfetch
    by (unfold fetch_pair; by rewrite Hprimary).
  destruct (attempt_calls s dt mission save_dir true) as [Hc1 Hl1].
  destruct (attempt_calls (log_error s1 msg) dt mission save_dir false)
    as [Hc2 Hl2].
  rewrite Hprimary in Hc1, Hl1. simpl in Hc1, Hl1, Hc2, Hl2.
  fold retry in Hc2, Hl2.
  split; [done|]. split; [by rewrite Hc2, Hc1, <- app_assoc|].
  split; [by rewrite Hl2, Hl1|].
  destruct retry as [s2 [path|e2]] eqn:Er; simpl.
  - intros acc rest. by rewrite Hfetch.
  - split.
    + intros acc rest. by rewrite Hfetch.
    + intros s0 pre acc rest dts missions Hzip Hpre.
      unfold download_eofs.
      rewrite Hzip, download_loop_app, Hpre. simpl. by rewrite Hfetch.
Qed.

End Resolver.

(** *** The theorems at a concrete provider *)

Lemma orbits_complete_witness :
  mapM parse_identifier [scene]
  = Some [("S1A", "20200101T000000", "20200101T000030")] /\
  exists paths,
    (get_orbits_from_slc_ids (client := asf_down) (lib := cpython_netrc)
       both_set fresh [scene] "orbits").2
    = Ok paths /\
    length paths = 2%nat.
Proof.
  split; [reflexivity|].
  pose proof (orbits_complete (client := asf_down) (lib := cpython_netrc)
                both_set _ _ fresh [scene] "orbits" _ eq_refl eq_refl) as Hw.
  cbv zeta in Hw. destruct Hw as [Hw _].
  destruct (get_orbits_from_slc_ids both_set fresh [scene] "orbits")
    as [[e' s'] [paths|x]] eqn:E.
  - exists paths. split; [reflexivity | apply Hw].
  - vm_compute in E. discriminate E.
Defined.

Lemma fallback_once_witness :
  attempt (client := all_down) fresh "20200101T000000" "S1A" "orbits" true
  = (Session 1%nat [Call ["20200101T000000"] ["S1A"] "orbits" true] [],
     Raise (OtherError "ASF")) /\
  download_eofs (client := all_down) fresh
    ["20200101T000000"; "20200101T000030"] ["S1A"; "S1A"] "orbits"
  = (Session 2%nat
       [Call ["20200101T000000"] ["S1A"] "orbits" true;
        Call ["20200101T000000"] ["S1A"] "orbits" false]
       ["Could not download orbit from ASF, trying ESA..."],
     Raise (OtherError "ESA")).
Proof.
  split; [reflexivity|].
  pose proof (fallback_once (client := all_down) fresh _ "20200101T000000"
                "S1A" "orbits" _ eq_refl) as (_ & _ & _ & Hraise).
  simpl in Hraise. destruct Hraise as [_ Hraise].
  apply (Hraise fresh [] [] [("20200101T000030", "S1A")]); reflexivity.
Defined.

End ResolverSpec.

(** ** The batch loop *)

Module DriverSpec.
Import PyStr Driver Spec.

Section Batch.
Context {W Date Bounds Artifact Delay : Type}.
Context `{Countable Date}.
Context {engines : Engines W Date Bounds Artifact Delay}.

#[local] Abbreviation ev := (event Date Bounds Artifact).
#[local] Abbreviation job := (Date * (string * string))%type.

Lemma process_job_eq (p : Params Date Bounds) (dl_only : bool)
    (t : Date) (w f : string) (s : state) :
  process_job p dl_only (t, (w, f)) s
  = let pre := (trace s ++ prologue t
                ++ [PrepareCall t (ll_bounds_of p) dl_only])%list in
    match prepare p dl_only t (world s) with
    | (w1, Raise e) =>
        if is_RuntimeError e
        then (State w1 (pre ++ [failed t]), Ok None)
        else (State w1 pre, Raise e)
    | (w1, Ok wm) =>
        if dl_only then (State w1 pre, Ok None)
        else
          match compute p t wm w1 with
          | (w2, Raise e) =>
              if is_RuntimeError e
              then (State w2 (pre ++ [TropoDelayCall t wm; failed t]), Ok None)
              else (State w2 (pre ++ [TropoDelayCall t wm]), Raise e)
          | (w2, Ok (wet_delay, hydro_delay)) =>
              match route p wet_delay hydro_delay w f
                      (State w2 (pre ++ [TropoDelayCall t wm])) with
              | (s3, Ok v) => (s3, Ok (Some v))
              | (s3, Raise e) => (s3, Raise e)
              end
          end
    end.
Proof.
  unfold process_job, prepare_step, delay_step, try_RuntimeError, bind, invoke,
    emit, ret, prepare, compute, prologue, failed, ll_bounds_of.
  cbn [world trace].
  destruct (prepareWeatherModel _ _ _ _ _ _ _ _) as [w1 [wm|e]]; cbn [world trace].
  - destruct dl_only.
    + by rewrite <- !app_assoc.
    + destruct (tropo_delay _ _ _ _ _ _ _ _ _) as [w2 [[wet hydro]|e]];
        cbn [world trace].
      * rewrite <- !app_assoc. cbn [app]. done.
      * destruct (is_RuntimeError e); cbn [world trace];
          rewrite <- !app_assoc; done.
  - destruct (is_RuntimeError e); cbn [world trace];
      rewrite <- !app_assoc; done.
Qed.

Lemma prepared_dates_none (evs : list ev) :
  Forall (fun e => is_prepare_call e = false) evs -> prepared_dates evs = [].
Proof.
  induction 1 as [|e evs He _ IH]; [done|].
  unfold prepared_dates in *. destruct e; try discriminate He; exact IH.
Qed.

(** Routing makes no call of the preparation engine. *)
Lemma route_trace (p : Params Date Bounds) (wet : Delay)
    (hydro : option Delay) (w f : string) (s : state) :
  exists evs,
    trace (route p wet hydro w f s).1 = (trace s ++ evs)%list /\
    Forall (fun e => is_prepare_call e = false) evs.
Proof.
  unfold route. destruct (derive_names (los p) w f) as [o f'].
  destruct hydro as [hydro|].
  - unfold write_pair, bind, invoke, emit, ret.
    destruct (writes_pair _); cbn [world trace].
    + destruct (writeDelays _ _ _ _ _ _ _) as [w' [[]|e]]; cbn [world trace fst];
        rewrite <- ?app_assoc; eexists; (split; [reflexivity|]);
        repeat constructor.
    + cbn [world trace fst]. rewrite <- ?app_assoc.
      eexists; (split; [reflexivity|]); repeat constructor.
  - unfold write_cube, bind, invoke, emit, ret.
    destruct (cube_writer_for _) as [k|]; cbn [world trace].
    + destruct (to_netcdf _ _ _ _) as [w' [[]|e]]; cbn [world trace fst];
        rewrite <- ?app_assoc; eexists; (split; [reflexivity|]);
        repeat constructor.
    + cbn [world trace fst].
      eexists; (split; [reflexivity|]); repeat constructor.
Qed.

(** Every iteration calls the preparation engine once, for its date. *)
Lemma process_job_prepared (p : Params Date Bounds) (dl_only : bool)
    (j : job) (s : state) :
  prepared_dates (trace (process_job p dl_only j s).1)
  = (prepared_dates (trace s) ++ [j.1])%list.
Proof.
  destruct j as [t [w f]]. rewrite process_job_eq. cbv zeta.
  unfold prepared_dates, prologue, failed.
  destruct (prepare p dl_only t (world s)) as [w1 [wm|e]].
  - destruct dl_only; cbn [fst trace].
    + rewrite !omap_app. cbn. by rewrite ?app_nil_r.
    + destruct (compute p t wm w1) as [w2 [[wet hydro]|e]].
      * match goal with
        | |- context [route p wet hydro w f ?s0] =>
            destruct (route_trace p wet hydro w f s0) as (evs & Htr & Hno)
        end.
        apply prepared_dates_none in Hno. unfold prepared_dates in Hno.
        destruct (route _ _ _ _ _ _) as [s3 [v|e]]; cbn [fst trace] in *;
          rewrite Htr, !omap_app, Hno; cbn; by rewrite !app_nil_r.
      * destruct (is_RuntimeError e); cbn [fst trace];
          rewrite !omap_app; cbn; by rewrite ?app_nil_r.
  - destruct (is_RuntimeError e); cbn [fst trace];
      rewrite !omap_app; cbn; by rewrite ?app_nil_r.
Qed.

Lemma run_jobs_results (p : Params Date Bounds) (dl_only : bool)
    (jobs : list job) :
  forall (d : gmap Date (string * string)) (s : state),
    run_jobs p dl_only jobs d s
    = match job_results p dl_only jobs s with
      | (s', Ok rs) => (s', Ok (store d jobs rs))
      | (s', Raise e) => (s', Raise e)
      end.
Proof.
  induction jobs as [|j rest IH]; intros d s; [done|].
  cbn [run_jobs job_results]. unfold bind, ret.
  destruct (process_job p dl_only j s) as [s1 [r|e]]; [|done].
  destruct r as [v|]; rewrite IH;
    by destruct (job_results p dl_only rest s1) as [s2 [rs|e]].
Qed.

Lemma job_results_ok (p : Params Date Bounds) (dl_only : bool)
    (jobs : list job) :
  forall (s s' : state) (rs : list (option (string * string))),
    job_results p dl_only jobs s = (s', Ok rs) ->
    length rs = length jobs /\
    prepared_dates (trace s') = (prepared_dates (trace s) ++ jobs.*1)%list.
Proof.
  induction jobs as [|j rest IH]; intros s s' rs.
  - intros [= <- <-]. by rewrite app_nil_r.
  - cbn [job_results]. unfold bind, ret.
    pose proof (process_job_prepared p dl_only j s) as Hp.
    destruct (process_job p dl_only j s) as [s1 [r|e]]; [|done].
    destruct (job_results p dl_only rest s1) as [s2 [rs'|e]] eqn:E; [|done].
    intros [= <- <-]. destruct (IH _ _ _ E) as [Hlen Htr].
    split; [cbn [length]; by rewrite Hlen|].
    rewrite Htr. cbn [fst] in Hp. rewrite Hp, <- app_assoc. done.
Qed.

Lemma store_lookup_other (jobs : list job) :
  forall (d : gmap Date (string * string)) rs (t : Date),
    t ∉ jobs.*1 -> store d jobs rs !! t = d !! t.
Proof.
  induction jobs as [|j jobs IH]; intros d rs t Ht; [done|].
  apply not_elem_of_cons in Ht as [Hne Ht].
  destruct rs as [|[v|] rs]; cbn [store]; [done| |by apply IH].
  rewrite IH by done. by apply lookup_insert_ne.
Qed.

Lemma store_dom (jobs : list job) :
  forall (d : gmap Date (string * string)) rs,
    dom (store d jobs rs) = dom d ∪ list_to_set (routed jobs rs).
Proof.
  induction jobs as [|j jobs IH]; intros d rs; cbn [store routed].
  - by rewrite list_to_set_nil, (right_id_L ∅ (∪)).
  - destruct rs as [|[v|] rs]; [| |by apply IH].
    + by rewrite list_to_set_nil, (right_id_L ∅ (∪)).
    + rewrite IH, dom_insert_L, list_to_set_cons.
      rewrite (comm_L (∪) {[j.1]} (dom d)). by rewrite <- (assoc_L (∪)).
Qed.

Lemma store_size (jobs : list job) :
  forall (d : gmap Date (string * string)) rs,
    (size (store d jobs rs) <= size d + length (routed jobs rs))%nat /\
    (length (routed jobs rs) <= length jobs)%nat.
Proof.
  induction jobs as [|j jobs IH]; intros d rs; cbn [store routed].
  - cbn [length]. split; lia.
  - destruct rs as [|[v|] rs]; cbn [length].
    + split; lia.
    + destruct (IH (<[j.1 := v]> d) rs) as [H1 H2].
      assert (size (<[j.1 := v]> d) <= S (size d))%nat as Hi.
      { destruct (d !! j.1) eqn:E.
        - rewrite map_size_insert_Some by done. lia.
        - rewrite map_size_insert_None by done. lia. }
      split; lia.
    + destruct (IH d rs) as [H1 H2]. split; lia.
Qed.

(** With distinct dates every job's entry is its own outcome. *)
Lemma store_lookup (jobs : list job) :
  forall (d : gmap Date (string * string)) rs (i : nat) (j : job) r,
    NoDup jobs.*1 ->
    jobs !! i = Some j -> rs !! i = Some r -> d !! j.1 = None ->
    store d jobs rs !! j.1 = r.
Proof.
  induction jobs as [|j0 jobs IH]; intros d rs i j r Hnd Hj Hr Hd; [done|].
  rewrite fmap_cons in Hnd. apply NoDup_cons in Hnd as [Hnotin Hnd].
  destruct rs as [|r0 rs]; [done|].
  destruct i as [|i]; simpl in Hj, Hr.
  - injection Hj as ->. injection Hr as ->.
    destruct r as [v|]; cbn [store]; rewrite store_lookup_other by done;
      [apply lookup_insert_eq | done].
  - assert (j.1 ∈ jobs.*1) as Hin.
    { apply list_elem_of_fmap. exists j. split; [done|].
      by eapply list_elem_of_lookup_2. }
    assert (j0.1 <> j.1) as Hne by (intros E; by rewrite E in Hnotin).
    destruct r0 as [v|]; cbn [store]; eapply IH; try done.
    by rewrite lookup_insert_ne.
Qed.

(** *** Failures of one epoch *)

Lemma process_job_prepare_failed (p : Params Date Bounds) (dl_only : bool)
    (t : Date) (w f : string) (s : state) (w1 : W) (msg : string) :
  prepare p dl_only t (world s) = (w1, Raise (RuntimeError msg)) ->
  process_job p dl_only (t, (w, f)) s
  = (State w1 (trace s ++ prologue t
               ++ [PrepareCall t (ll_bounds_of p) dl_only; failed t]),
     Ok None).
Proof.
  intros E. rewrite process_job_eq, E. cbn.
  by rewrite <- !app_assoc.
Qed.

Lemma process_job_compute_failed (p : Params Date Bounds)
    (t : Date) (w f : string) (s : state) (w1 w2 : W) (wm : Artifact)
    (msg : string) :
  prepare p false t (world s) = (w1, Ok wm) ->
  compute p t wm w1 = (w2, Raise (RuntimeError msg)) ->
  process_job p false (t, (w, f)) s
  = (State w2 (trace s ++ prologue t
               ++ [PrepareCall t (ll_bounds_of p) false;
                   TropoDelayCall t wm; failed t]),
     Ok None).
Proof.
  intros E1 E2. rewrite process_job_eq, E1. cbn. rewrite E2. cbn.
  by rewrite <- !app_assoc.
Qed.

Lemma run_jobs_skip (p : Params Date Bounds) (dl_only : bool) (j : job)
    (rest : list job) (d : gmap Date (string * string)) (s s1 : state) :
  process_job p dl_only j s = (s1, Ok None) ->
  run_jobs p dl_only (j :: rest) d s = run_jobs p dl_only rest d s1.
Proof. intros E. cbn [run_jobs]. unfold bind. by rewrite E. Qed.

Lemma run_jobs_raise (p : Params Date Bounds) (dl_only : bool) (j : job)
    (rest : list job) (d : gmap Date (string * string)) (s s1 : state)
    (e : exn) :
  process_job p dl_only j s = (s1, Raise e) ->
  run_jobs p dl_only (j :: rest) d s = (s1, Raise e).
Proof. intros E. cbn [run_jobs]. unfold bind. by rewrite E. Qed.

Lemma route_returns (p : Params Date Bounds) (wet : Delay)
    (hydro : option Delay) (w f : string) (s : state) :
  writers_return -> exists s' v, route p wet hydro w f s = (s', Ok v).
Proof.
  intros [Hnc Hwd]. unfold route.
  destruct (derive_names (los p) w f) as [o f'].
  destruct hydro as [hydro|].
  - unfold write_pair, bind, invoke, emit, ret.
    destruct (writes_pair _); [|by do 2 eexists].
    match goal with
    | |- context [writeDelays ?x1 ?x2 ?x3 ?x4 ?x5 ?x6 ?x7] =>
        pose proof (Hwd x1 x2 x3 x4 x5 x6 x7) as Hr;
        destruct (writeDelays x1 x2 x3 x4 x5 x6 x7) as [w' r]
    end.
    cbn in Hr. subst r. by do 2 eexists.
  - unfold write_cube, bind, invoke, emit, ret.
    destruct (cube_writer_for _) as [k|]; [|by do 2 eexists].
    match goal with
    | |- context [to_netcdf ?x1 ?x2 ?x3 ?x4] =>
        pose proof (Hnc x1 x2 x3 x4) as Hr;
        destruct (to_netcdf x1 x2 x3 x4) as [w' r]
    end.
    cbn in Hr. subst r. by do 2 eexists.
Qed.

Lemma process_job_returns (p : Params Date Bounds) (dl_only : bool)
    (j : job) (s : state) :
  engines_raise_RuntimeError_only -> writers_return ->
  exists s' r, process_job p dl_only j s = (s', Ok r).
Proof.
  intros [Hprep Hcomp] Hwr. destruct j as [t [w f]].
  rewrite process_job_eq. cbv zeta. unfold prepare, compute.
  match goal with
  | |- context [prepareWeatherModel ?x1 ?x2 ?x3 ?x4 ?x5 ?x6 ?x7 ?x8] =>
      pose proof (Hprep x1 x2 x3 x4 x5 x6 x7 x8) as Hr;
      destruct (prepareWeatherModel x1 x2 x3 x4 x5 x6 x7 x8) as [w1 [wm|e]]
  end; cbn in Hr.
  - destruct dl_only; [by do 2 eexists|].
    match goal with
    | |- context [tropo_delay ?x1 ?x2 ?x3 ?x4 ?x5 ?x6 ?x7 ?x8 ?x9] =>
        pose proof (Hcomp x1 x2 x3 x4 x5 x6 x7 x8 x9) as Hr2;
        destruct (tropo_delay x1 x2 x3 x4 x5 x6 x7 x8 x9)
          as [w2 [[wet hydro]|e]]
    end; cbn in Hr2.
    + match goal with
      | |- context [route p wet hydro w f ?s0] =>
          destruct (route_returns p wet hydro w f s0 Hwr) as (s3 & v & ->)
      end.
      by do 2 eexists.
    + rewrite Hr2. by do 2 eexists.
  - rewrite Hr. by do 2 eexists.
Qed.

Lemma run_jobs_returns (p : Params Date Bounds) (dl_only : bool)
    (jobs : list job) :
  engines_raise_RuntimeError_only -> writers_return ->
  forall (d : gmap Date (string * string)) (s : state),
    exists s' d', run_jobs p dl_only jobs d s = (s', Ok d').
Proof.
  intros He Hw. induction jobs as [|j rest IH]; intros d s.
  - by do 2 eexists.
  - cbn [run_jobs]. unfold bind.
    destruct (process_job_returns p dl_only j s He Hw) as (s1 & r & ->).
    destruct r as [v|]; apply IH.
Qed.

(** C3, amended.  A [RuntimeError] of the preparation engine, or of
    the delay engine, ends the iteration: the date is logged with
    [logger.exception("Date %s failed", t)], nothing is stored for the
    job, and the loop goes on with the next job from the state the
    engine left.  Hence the batch returns whenever the engines raise
    nothing but [RuntimeError] and the writers return.  Any other
    exception of either engine is not caught: it leaves the loop at
    the call, nothing is logged for the date and the jobs that follow
    are not processed. *)
Theorem failure_isolated (p : Params Date Bounds) (dl_only : bool)
    (t : Date) (w f : string) (rest : list job)
    (d : gmap Date (string * string)) (s : state) :
  (forall w1 msg,
      prepare p dl_only t (world s) = (w1, Raise (RuntimeError msg)) ->
      let s1 := State w1 (trace s ++ prologue t
                          ++ [PrepareCall t (ll_bounds_of p) dl_only;
                              failed t]) in
      process_job p dl_only (t, (w, f)) s = (s1, Ok None) /\
      run_jobs p dl_only ((t, (w, f)) :: rest) d s
      = run_jobs p dl_only rest d s1) /\
  (forall w1 wm w2 msg,
      dl_only = false ->
      prepare p dl_only t (world s) = (w1, Ok wm) ->
      compute p t wm w1 = (w2, Raise (RuntimeError msg)) ->
      let s2 := State w2 (trace s ++ prologue t
                          ++ [PrepareCall t (ll_bounds_of p) dl_only;
                              TropoDelayCall t wm; failed t]) in
      process_job p dl_only (t, (w, f)) s = (s2, Ok None) /\
      run_jobs p dl_only ((t, (w, f)) :: rest) d s
      = run_jobs p dl_only rest d s2) /\
  (engines_raise_RuntimeError_only -> writers_return ->
   forall jobs, exists s' d', run_jobs p dl_only jobs d s = (s', Ok d')) /\
  (forall w1 e,
      is_RuntimeError e = false ->
      prepare p dl_only t (world s) = (w1, Raise e) ->
      run_jobs p dl_only ((t, (w, f)) :: rest) d s
      = (State w1 (trace s ++ prologue t
                   ++ [PrepareCall t (ll_bounds_of p) dl_only]),
         Raise e)) /\
  (forall w1 wm w2 e,
      dl_only = false ->
      is_RuntimeError e = false ->
      prepare p dl_only t (world s) = (w1, Ok wm) ->
      compute p t wm w1 = (w2, Raise e) ->
      run_jobs p dl_only ((t, (w, f)) :: rest) d s
      = (State w2 (trace s ++ prologue t
                   ++ [PrepareCall t (ll_bounds_of p) dl_only;
                       TropoDelayCall t wm]),
         Raise e)).
Proof.
  split; [|split; [|split; [|split]]].
  - intros w1 msg E s1.
    pose proof (process_job_prepare_failed p dl_only t w f s w1 msg E) as Hj.
    split; [done | by apply run_jobs_skip].
  - intros w1 wm w2 msg -> E1 E2 s2.
    pose proof (process_job_compute_failed p t w f s w1 w2 wm msg E1 E2) as Hj.
    split; [done | by apply run_jobs_skip].
  - intros He Hw jobs. by apply run_jobs_returns.
  - intros w1 e He E. apply run_jobs_raise.
    by rewrite process_job_eq, E, He.
  - intros w1 wm w2 e -> He E1 E2. apply run_jobs_raise.
    rewrite process_job_eq, E1. cbv zeta. rewrite E2, He.
    by rewrite <- !app_assoc.
Qed.

(** *** Download only *)



(** *** The returned mapping *)

(** C1, amended.  The loop is the jobs' iterations in input order: the
    preparation engine is called for the dates in the order of the
    input, and the mapping returned holds the value stored by every
    routed job and nothing for a job that failed or was skipped.  Its
    keys are the dates of the routed jobs, so it has at most one entry
    per job, and with distinct dates the entry of a job is exactly its
    own outcome. *)
Theorem batch_outcomes (p : Params Date Bounds) (cli : bool) (s : state) :
  let dl_only := dl_only_flag (download_only p) cli in
  let jobs := jobs_of p in
  calcDelays_loop p cli s
  = match job_results p dl_only jobs s with
    | (s', Ok rs) => (s', Ok (store ∅ jobs rs))
    | (s', Raise e) => (s', Raise e)
    end /\
  forall s' rs,
    job_results p dl_only jobs s = (s', Ok rs) ->
    length rs = length jobs /\
    prepared_dates (trace s') = (prepared_dates (trace s) ++ jobs.*1)%list /\
    dom (store ∅ jobs rs) = list_to_set (routed jobs rs) /\
    (size (store ∅ jobs rs) <= length (routed jobs rs))%nat /\
    (length (routed jobs rs) <= length jobs)%nat /\
    (NoDup jobs.*1 ->
     forall i j r, jobs !! i = Some j -> rs !! i = Some r ->
                   store ∅ jobs rs !! j.1 = r).
Proof.
  intros dl_only jobs. split; [apply run_jobs_results|].
  intros s' rs Hres.
  destruct (job_results_ok _ _ _ _ _ _ Hres) as [Hlen Hdates].
  destruct (store_size jobs ∅ rs) as [Hs1 Hs2].
  rewrite map_size_empty in Hs1.
  repeat split; try done.
  - rewrite store_dom, dom_empty_L. by rewrite (left_id_L ∅ (∪)).
  - intros Hnd i j r Hj Hr. by eapply store_lookup.
Qed.

End Batch.

(** *** The theorems at concrete engines *)

Lemma demo_run_mapping :
  demo_run.2
  = Ok (<[20200104%Z := ("20200104_tropo_ztd.nc", "20200104_hydro_ztd.tif")]>
          (<[20200101%Z := ("20200101_tropo_ztd.nc",
                            "20200101_hydro_ztd.tif")]> ∅)).
Proof. by vm_compute. Qed.

(** C1, as stated, fails: of four jobs two fail, one in each engine, and
    the mapping returned has two entries, none of them for a failed job. *)
Lemma entry_per_job_counterexample :
  ~ (exists d,
        demo_run.2 = Ok d /\
        size d = length (jobs_of (demo_params false)) /\
        Forall (fun j => is_Some (d !! j.1)) (jobs_of (demo_params false))).
Proof.
  intros (d & Hd & Hsize & _).
  rewrite demo_run_mapping in Hd. injection Hd as <-.
  vm_compute in Hsize. discriminate Hsize.
Qed.

Lemma demo_engines_contract :
  engines_raise_RuntimeError_only (engines := demo_engines) /\
  writers_return (engines := demo_engines).
Proof.
  repeat split; intros; cbn; try done.
  - by destruct (_ =? _)%Z.
  - by destruct (_ =? _)%Z.
Qed.

(** C3, as stated, fails: a failure of an engine that is not a
    [RuntimeError] leaves the loop.  With the preparation engine
    failing on a lost connection for the second of four dates, the
    batch raises that exception and the last two dates are never
    prepared. *)
Lemma any_failure_counterexample :
  ~ (forall (engines : Engines nat Z (list Z) string string)
            (p : Params Z (list Z)) (dl_only : bool)
            (jobs : list (Z * (string * string)))
            (d : gmap Z (string * string)) (s : state),
        writers_return ->
        exists s' d',
          run_jobs p dl_only jobs d s = (s', Ok d') /\
          prepared_dates (trace s')
          = (prepared_dates (trace s) ++ jobs.*1)%list).
Proof.
  intros Hclaim.
  destruct (Hclaim offline_engines (demo_params false) false
              (jobs_of (demo_params false)) ∅ start)
    as (s' & d' & Hrun & _).
  - by split.
  - vm_compute in Hrun. discriminate Hrun.
Qed.

Lemma failure_isolated_witness :
  exists s' d',
    run_jobs (engines := demo_engines) (demo_params false) false
      [(20200102%Z, ("20200102_wet_ztd.tif", "20200102_hydro_ztd.tif"));
       (20200103%Z, ("20200103_wet_ztd.tif", "20200103_hydro_ztd.tif"))]
      ∅ start
    = (s', Ok d') /\
    prepared_dates (trace s') = [20200102%Z; 20200103%Z] /\
    d' = ∅.
Proof.
  destruct (failure_isolated (engines := demo_engines) (demo_params false)
              false 20200102%Z "20200102_wet_ztd.tif" "20200102_hydro_ztd.tif"
              [(20200103%Z, ("20200103_wet_ztd.tif", "20200103_hydro_ztd.tif"))]
              ∅ start)
    as (Hprep & _ & _ & _).
  destruct (Hprep 1%nat "no weather model" eq_refl) as [_ ->].
  match goal with
  | |- context [run_jobs _ _ _ _ ?s1] =>
      destruct (failure_isolated (engines := demo_engines) (demo_params false)
                  false 20200103%Z "20200103_wet_ztd.tif"
                  "20200103_hydro_ztd.tif" [] ∅ s1)
        as (_ & Hcomp & Hall & _)
  end.
  destruct (Hcomp 2%nat "weather_files/GMAO.nc" 3%nat "no rays"
              eq_refl eq_refl eq_refl) as [_ ->].
  destruct (Hall (proj1 demo_engines_contract) (proj2 demo_engines_contract) [])
    as (s' & d' & _).
  do 2 eexists. split; [reflexivity|]. split; reflexivity.
Defined.


Lemma demo_job_results :
  job_results (engines := demo_engines) (demo_params false) false
    (jobs_of (demo_params false)) start
  = ((job_results (engines := demo_engines) (demo_params false) false
        (jobs_of (demo_params false)) start).1,
     Ok demo_results).
Proof. vm_compute. reflexivity. Qed.

Lemma batch_outcomes_witness :
  NoDup (jobs_of (demo_params false)).*1 /\
  exists s',
    job_results (engines := demo_engines) (demo_params false) false
      (jobs_of (demo_params false)) start = (s', Ok demo_results) /\
    prepared_dates (trace s')
    = (prepared_dates (trace start) ++ (jobs_of (demo_params false)).*1)%list /\
    store ∅ (jobs_of (demo_params false)) demo_results !! 20200102%Z = None /\
    store ∅ (jobs_of (demo_params false)) demo_results !! 20200104%Z
    = Some ("20200104_tropo_ztd.nc", "20200104_hydro_ztd.tif").
Proof.
  assert (NoDup (jobs_of (demo_params false)).*1) as Hnd.
  { apply (bool_decide_unpack _). by vm_compute. }
  split; [exact Hnd|].
  destruct (batch_outcomes (engines := demo_engines) (demo_params false) false
              start) as [_ Hall].
  destruct (Hall _ _ demo_job_results) as (_ & Hdates & _ & _ & _ & Hentry).
  eexists. split; [exact demo_job_results|].
  split; [exact Hdates|]. split.
  - exact (Hentry Hnd 1%nat
             (20200102%Z, ("20200102_wet_ztd.tif", "20200102_hydro_ztd.tif"))
             None eq_refl eq_refl).
  - exact (Hentry Hnd 3%nat
             (20200104%Z, ("20200104_wet_ztd.tif", "20200104_hydro_ztd.tif"))
             (Some ("20200104_tropo_ztd.nc", "20200104_hydro_ztd.tif"))
             eq_refl eq_refl).
Defined.

End DriverSpec.

(** * Further properties *)

(** ** The orbit resolver *)

Module ResolverExtra.
Import PyStr PyStrFacts Orbits CPythonNetrc Spec SpecX CredentialsSpec ResolverSpec.

Section Resolver.
Context {P : Type} {client : EofClient P}.

Lemma pair_calls_length (save_dir : string) (pairs : list (string * string)) :
  forall fallbacks : list bool,
    (length (concat (zip_with (pair_calls save_dir) pairs fallbacks))
     <= 2 * length pairs)%nat.
Proof.
  induction pairs as [|pr rest IH]; intros [|fb fbs]; cbn; try lia.
  specialize (IH fbs). rewrite length_app. destruct fb; cbn; lia.
Qed.

Lemma download_loop_failures (pairs : list (string * string)) :
  forall (s : session P) (acc : list string) (save_dir : string),
    let fallbacks := asf_failures s pairs save_dir in
    (length fallbacks <= length pairs)%nat /\
    calls (download_loop s acc pairs save_dir).1
    = (calls s ++ concat (zip_with (pair_calls save_dir) pairs fallbacks))%list /\
    errors_logged (download_loop s acc pairs save_dir).1
    = (errors_logged s
       ++ replicate (length (List.filter id fallbacks)) fallback_msg)%list /\
    match (download_loop s acc pairs save_dir).2 with
    | Ok paths =>
        length fallbacks = length pairs /\
        length paths = (length acc + length pairs)%nat
    | Raise _ => last fallbacks = Some true
    end.
Proof.
  induction pairs as [|[dt m] rest IH]; intros s acc dir.
  - cbn. rewrite !app_nil_r. repeat split; done.
  - cbn [download_loop asf_failures]. unfold fetch_pair.
    fold fallback_msg.
    destruct (attempt_calls s dt m dir true) as [Hc1 Hl1].
    destruct (attempt s dt m dir true) as [s1 [path|e]] eqn:E1;
      cbn [fst] in *.
    + destruct (IH s1 (acc ++ [path])%list dir) as (Hlen & Hcs & Hls & Hr).
      cbv zeta. cbn [length zip_with concat List.filter id].
      split; [lia|]. split.
      { rewrite Hcs, Hc1. unfold pair_calls. cbn [fst snd].
        by rewrite <- !app_assoc. }
      split; [by rewrite Hls, Hl1|].
      destruct (download_loop s1 _ rest dir).2 as [paths|x].
      * destruct Hr as [-> ->]. rewrite length_app. cbn. split; lia.
      * by destruct (asf_failures s1 rest dir).
    + destruct (attempt_calls (log_error s1 fallback_msg) dt m dir false)
        as [Hc2 Hl2].
      destruct (attempt (log_error s1 fallback_msg) dt m dir false)
        as [s2 [path|e2]] eqn:E2; cbn [fst] in *.
      * destruct (IH s2 (acc ++ [path])%list dir) as (Hlen & Hcs & Hls & Hr).
        cbv zeta. cbn [length zip_with concat List.filter id].
        split; [lia|]. split.
        { rewrite Hcs, Hc2. cbn [log_error calls]. rewrite Hc1.
          unfold pair_calls. cbn [fst snd]. by rewrite <- !app_assoc. }
        split.
        { rewrite Hls, Hl2. cbn [log_error errors_logged]. rewrite Hl1.
          by rewrite <- !app_assoc. }
        destruct (download_loop s2 _ rest dir).2 as [paths|x].
        -- destruct Hr as [-> ->]. rewrite length_app. cbn. split; lia.
        -- by destruct (asf_failures s2 rest dir).
      * cbv zeta. cbn [length zip_with concat List.filter id fst snd].
        rewrite zip_with_nil_r. cbn [concat].
        split; [lia|]. split.
        { rewrite Hc2. cbn [log_error calls]. rewrite Hc1.
          unfold pair_calls. cbn [fst snd]. by rewrite app_nil_r, <- !app_assoc. }
        split; [|done].
        rewrite Hl2. cbn [log_error errors_logged]. by rewrite Hl1.
Qed.

(** X1.  Whatever the provider does, [download_eofs] calls it pair by
    pair in the order of the pairs: for each pair it reaches, once with
    [force_asf=True] and, exactly when that attempt failed on the
    session reached, once more with [force_asf=False]; every call
    carries one token, one mission and the given directory.  So it
    never makes more than two calls per pair, it logs one error per
    failed attempt on the primary provider, and when it returns it has
    reached every pair. *)
Theorem provider_calls_discipline (s : session P) (dts missions : list string)
    (save_dir : string) :
  let pairs := zip dts missions in
  let run := download_eofs s dts missions save_dir in
  let fallbacks := asf_failures s pairs save_dir in
  (length fallbacks <= length pairs)%nat /\
  calls run.1
  = (calls s ++ concat (zip_with (pair_calls save_dir) pairs fallbacks))%list /\
  (length (calls run.1) <= length (calls s) + 2 * length pairs)%nat /\
  errors_logged run.1
  = (errors_logged s
     ++ replicate (length (List.filter id fallbacks)) fallback_msg)%list /\
  match run.2 with
  | Ok _ => length fallbacks = length pairs
  | Raise _ => length fallbacks = length pairs \/ last fallbacks = Some true
  end.
Proof.
  intros pairs run fallbacks. subst run fallbacks.
  unfold download_eofs. fold pairs.
  destruct (download_loop_failures pairs s [] save_dir)
    as (Hlen & Hc & Hl & Hr).
  assert (length (calls (download_loop s [] pairs save_dir).1)
          <= length (calls s) + 2 * length pairs)%nat as Hbound.
  { rewrite Hc, length_app.
    pose proof (pair_calls_length save_dir pairs
                  (asf_failures s pairs save_dir)). lia. }
  destruct (download_loop s [] pairs save_dir) as [s' [paths|x]];
    cbn [fst snd] in *.
  - destruct Hr as [Hfb _].
    destruct (negb _); cbn [fst snd]; repeat split; try done. by left.
  - repeat split; try done. by right.
Qed.

Lemma download_loop_primary (pairs : list (string * string))
    (save_dir : string) :
  (forall s0 dt m,
      (dt, m) ∈ pairs ->
      exists s1 path, attempt s0 dt m save_dir true = (s1, Ok path)) ->
  forall (s : session P) (acc : list string),
    exists s' paths,
      download_loop s acc pairs save_dir = (s', Ok (acc ++ paths)%list) /\
      length paths = length pairs /\
      calls s'
      = (calls s ++ map (fun pr => Call [pr.1] [pr.2] save_dir true) pairs)%list /\
      errors_logged s' = errors_logged s.
Proof.
  induction pairs as [|[dt m] rest IH]; intros Hasf s acc.
  - exists s, []. by rewrite !app_nil_r.
  - cbn [download_loop]. unfold fetch_pair.
    destruct (Hasf s dt m) as (s1 & path & E1); [by left|].
    destruct (attempt_calls s dt m save_dir true) as [Hc1 Hl1].
    rewrite E1 in *. cbn [fst] in *.
    destruct (IH (fun s0 dt' m' Hin => Hasf s0 dt' m' (list_elem_of_further _ _ _ Hin))
                s1 (acc ++ [path])%list)
      as (s' & paths & -> & Hlen & Hc & Hl).
    exists s', (path :: paths). cbn [length map fst snd].
    split; [by rewrite <- app_assoc|]. split; [by rewrite Hlen|].
    split; [by rewrite Hc, Hc1, <- app_assoc | by rewrite Hl, Hl1].
Qed.

(** X2.  When the attempt with [force_asf=True] succeeds for every pair,
    [download_eofs] returns one path per token and has called the
    provider exactly once per pair, always with [force_asf=True]: the
    secondary provider is not contacted and nothing is logged. *)
Theorem primary_only (s : session P) (dts missions : list string)
    (save_dir : string) :
  (forall s0 dt m,
      (dt, m) ∈ zip dts missions ->
      exists s1 path, attempt s0 dt m save_dir true = (s1, Ok path)) ->
  (length dts <= length missions)%nat ->
  exists s' paths,
    download_eofs s dts missions save_dir = (s', Ok paths) /\
    length paths = length dts /\
    calls s'
    = (calls s ++ map (fun pr => Call [pr.1] [pr.2] save_dir true)
                      (zip dts missions))%list /\
    Forall (fun c => call_force_asf c = true)
           (map (fun pr => Call [pr.1] [pr.2] save_dir true) (zip dts missions)) /\
    errors_logged s' = errors_logged s.
Proof.
  intros Hasf Hlen. unfold download_eofs.
  destruct (download_loop_primary (zip dts missions) save_dir Hasf s [])
    as (s' & paths & -> & Hl & Hc & He).
  rewrite app_nil_l.
  assert (length paths = length dts) as Hn.
  { rewrite Hl, length_zip_with. lia. }
  rewrite Hn, Nat.eqb_refl. cbn.
  exists s', paths. repeat split; try done.
  apply Forall_forall. intros c Hin. apply list_elem_of_fmap in Hin as [pr [-> _]]. done.
Qed.

Lemma zip_extra (dts missions extra : list string) :
  (length dts <= length missions)%nat ->
  zip dts (missions ++ extra) = zip dts missions.
Proof.
  revert missions. induction dts as [|dt dts IH]; intros [|m ms] Hlen;
    cbn in *; try done; try lia.
  f_equal. apply IH. lia.
Qed.

(** X3.  The tokens and missions are paired with [zip]: missions beyond
    the number of tokens are ignored, while with fewer missions than
    tokens [download_eofs] never returns a list: it raises, at the
    latest by its count check after the downloads it could pair. *)
Theorem unequal_lengths (s : session P) (dts missions : list string)
    (save_dir : string) :
  (forall extra,
      (length dts <= length missions)%nat ->
      download_eofs s dts (missions ++ extra) save_dir
      = download_eofs s dts missions save_dir) /\
  ((length missions < length dts)%nat ->
   exists x, (download_eofs s dts missions save_dir).2 = Raise x /\
     (x = CountMismatch (Z.of_nat (length dts) - Z.of_nat (length missions))
            dts (length missions) \/
      secondary_failure (zip dts missions) save_dir x)).
Proof.
  split.
  - intros extra Hlen. unfold download_eofs. by rewrite zip_extra.
  - intros Hlt.
    pose proof (download_eofs_outcome s dts missions save_dir) as Hout.
    destruct (download_eofs s dts missions save_dir) as [s' [paths|x]];
      cbn [snd].
    + destruct Hout as [Hlen Hres]. apply resolve_all_length in Hres.
      rewrite length_zip_with in Hres. lia.
    + exists x. split; [done|].
      destruct Hout as [(paths & Hres & _ & ->) | Hsec]; [left | by right].
      apply resolve_all_length in Hres. rewrite length_zip_with in Hres.
      replace (length paths) with (length missions) by lia. done.
Qed.

End Resolver.

(** *** Identifiers *)

Lemma length_append (a b : string) :
  String.length (a +:+ b) = (String.length a + String.length b)%nat.
Proof.
  induction a as [|x a IH]; [done|].
  change (String x a +:+ b) with (String x (a +:+ b)).
  cbn [String.length]. by rewrite IH.
Qed.

Lemma join_fields_length (rest : list (string * string)) :
  forall f0,
    Forall (fun sf => is_run sf.1 /\ no_underscore sf.2) rest ->
    (length rest <= String.length (join_fields f0 rest))%nat.
Proof.
  induction rest as [|[sep fld] rest IH]; intros f0 Hr.
  - cbn. lia.
  - apply Forall_cons in Hr as [[[Hne _] _] Hr]. cbn [join_fields length].
    specialize (IH fld Hr).
    rewrite !length_append.
    destruct sep as [|c sep]; [done|]. cbn [String.length]. lia.
Qed.

Lemma removelast_lookup {A : Type} (l : list A) (i : nat) :
  (S i < length l)%nat -> removelast l !! i = l !! i.
Proof.
  intros Hi. rewrite removelast_firstn_len.
  apply lookup_take_lt. lia.
Qed.

Lemma slice_to_length (n : nat) (s : string) :
  String.length (slice_to n s) = Nat.min n (String.length s).
Proof. destruct (slice_to_prefix n s) as (rest & _ & Hl). exact Hl. Qed.

(** X4.  An identifier from which the resolver can take its two tokens
    has, as mission code, exactly three characters; its start token is
    not empty, and neither token contains an underscore.  (The stop
    token may be empty: that of an identifier ending in underscores
    right after the start token.) *)
Theorem parsed_identifier (slc_id start stop : string) :
  field 4 slc_id = Some start ->
  field 5 slc_id = Some stop ->
  String.length (slice_to 3 slc_id) = 3%nat /\
  start <> "" /\
  no_underscore start /\
  no_underscore stop.
Proof.
  unfold field. intros H4 H5.
  destruct (re_split_underscores_spec slc_id)
    as (first & rest & Hflds & Hs & Hfirst & Hrest & Hinner).
  rewrite Hflds in H4, H5. cbn in H4, H5.
  apply list_lookup_fmap_Some in H4 as ([sep4 f4] & -> & H4).
  apply list_lookup_fmap_Some in H5 as ([sep5 f5] & -> & H5).
  cbn [snd].
  assert (5 <= length rest)%nat as Hlen
    by (apply lookup_lt_Some in H5; lia).
  split; [|split; [|split]].
  - rewrite slice_to_length, Hs.
    pose proof (join_fields_length rest first Hrest). lia.
  - assert (removelast rest !! 3%nat = Some (sep4, f4)) as Hin.
    { rewrite removelast_lookup by lia. exact H4. }
    eapply Forall_lookup_1 in Hinner; [|exact Hin]. exact Hinner.
  - eapply Forall_lookup_1 in Hrest; [|exact H4]. apply Hrest.
  - eapply Forall_lookup_1 in Hrest; [|exact H5]. apply Hrest.
Qed.

Lemma mapM_parse_short (slc_ids : list string) (slc_id : string) :
  slc_id ∈ slc_ids ->
  (length (re_split_underscores slc_id) < 6)%nat ->
  mapM parse_identifier slc_ids = None.
Proof.
  intros Hin Hshort.
  destruct (mapM parse_identifier slc_ids) as [parsed|] eqn:E; [|done].
  apply mapM_Some_1 in E.
  apply list_elem_of_lookup in Hin as [i Hi].
  destruct (Forall2_lookup_l _ _ _ _ _ E Hi) as (x & _ & Hx).
  unfold parse_identifier in Hx.
  destruct (re_split_underscores slc_id !! 5%nat) eqn:E5.
  - apply lookup_lt_Some in E5. lia.
  - by destruct (re_split_underscores slc_id !! 4%nat).
Qed.

(** X5.  Nothing is downloaded before the input is known to be good:
    the credential step runs first and the whole list is parsed before
    the first provider call.  With missing credentials the resolver
    raises that error, and with an identifier of fewer than six fields
    anywhere in the list it raises [IndexError]; in both cases the
    provider has not been called, while the store file is as the
    credential step left it.  An empty list returns the empty list,
    again without a provider call. *)
Theorem no_download_on_bad_input {P : Type} {client : EofClient P}
    {lib : NetrcLib} (e : environment) (s : session P)
    (slc_ids : list string) (directory : string) :
  let run := get_orbits_from_slc_ids e s slc_ids directory in
  run.1.1 = (ensure_orbit_credentials e).1 /\
  (forall x, (ensure_orbit_credentials e).2 = Raise x ->
             run.1.2 = s /\ run.2 = Raise x) /\
  (forall v slc_id,
      (ensure_orbit_credentials e).2 = Ok v ->
      slc_id ∈ slc_ids ->
      (length (re_split_underscores slc_id) < 6)%nat ->
      run.1.2 = s /\ run.2 = Raise IndexError) /\
  (forall v,
      (ensure_orbit_credentials e).2 = Ok v -> slc_ids = [] ->
      run.1.2 = s /\ run.2 = Ok []).
Proof.
  intros run. subst run. rewrite get_orbits_parse.
  destruct (ensure_orbit_credentials e) as [e' [v|x]]; cbn [fst snd].
  - split; [|split; [done|split]].
    + destruct (mapM parse_identifier slc_ids); [|done].
      by destruct (download_eofs _ _ _ _).
    + intros v' slc_id _ Hin Hshort.
      by rewrite (mapM_parse_short slc_ids slc_id Hin Hshort).
    + intros v' _ ->. done.
  - split; [done|]. split; [by intros x' [= ->]|]. split; done.
Qed.

(** *** The properties at concrete providers *)

Lemma primary_only_witness :
  exists s' paths,
    download_eofs (client := asf_up) fresh
      ["20200101T000000"; "20200101T000030"] ["S1A"; "S1A"] "orbits"
    = (s', Ok paths) /\
    length paths = 2%nat /\
    errors_logged s' = [].
Proof.
  destruct (primary_only (client := asf_up) fresh
              ["20200101T000000"; "20200101T000030"] ["S1A"; "S1A"] "orbits")
    as (s' & paths & E & Hl & _ & _ & He).
  - intros s0 dt m _. do 2 eexists. reflexivity.
  - cbn. lia.
  - exists s', paths. repeat split; done.
Defined.

Lemma unequal_lengths_witness :
  download_eofs (client := asf_up) fresh ["20200101T000000"]
    (["S1A"] ++ ["S1B"]) "orbits"
  = download_eofs (client := asf_up) fresh ["20200101T000000"] ["S1A"] "orbits"
  /\
  exists x,
    (download_eofs (client := asf_up) fresh
       ["20200101T000000"; "20200101T000030"] ["S1A"] "orbits").2 = Raise x.
Proof.
  split.
  - apply (unequal_lengths (client := asf_up) fresh ["20200101T000000"]
             ["S1A"] "orbits"). cbn. lia.
  - destruct (unequal_lengths (client := asf_up) fresh
                ["20200101T000000"; "20200101T000030"] ["S1A"] "orbits")
      as [_ Hshort].
    destruct Hshort as (x & Hx & _); [cbn; lia|]. by exists x.
Defined.

Lemma parsed_identifier_witness :
  String.length (slice_to 3 scene) = 3%nat /\
  "20200101T000000" <> "" /\
  no_underscore "20200101T000000" /\
  no_underscore "20200101T000030".
Proof.
  apply (parsed_identifier scene "20200101T000000" "20200101T000030");
    reflexivity.
Defined.

Lemma no_download_on_bad_input_witness :
  (get_orbits_from_slc_ids (client := asf_up) (lib := cpython_netrc)
     both_set fresh [scene; "S1A_IW_SLC"] "orbits").1.2 = fresh /\
  (get_orbits_from_slc_ids (client := asf_up) (lib := cpython_netrc)
     both_set fresh [scene; "S1A_IW_SLC"] "orbits").2 = Raise IndexError.
Proof.
  destruct (no_download_on_bad_input (client := asf_up)
              (lib := cpython_netrc) both_set fresh
              [scene; "S1A_IW_SLC"] "orbits") as (_ & _ & Hbad & _).
  eapply (Hbad _ "S1A_IW_SLC").
  - vm_compute. reflexivity.
  - apply list_elem_of_further, list_elem_of_here.
  - cbn. lia.
Defined.

End ResolverExtra.

(** ** Credentials *)

Module CredentialsExtra.
Import PyStr Orbits CPythonNetrc Spec SpecX CredentialsSpec.

(** X6.  What [ensure_orbit_credentials] can change.  The environment
    is never changed.  After the call, whether it returned or raised,
    the store file exists: a missing file has been created empty with
    mode [0o600], an existing file keeps its mode.  Its content is
    replaced only when the call returns a number: the store then had
    loaded without a record for the host, and the new content is the
    rendering of what was loaded with the record of line 45 added, the
    number being its length.  In every other case the content is as it
    was.  The call returns [None] exactly when the store loads with a
    record for the host, and an exception of loading the store is the
    exception of the call. *)
Theorem ensure_frame {lib : NetrcLib} (e : environment) :
  let run := ensure_orbit_credentials e in
  environ run.1 = environ e /\
  (exists nf',
      netrc run.1 = Some nf' /\
      mode nf' = match netrc e with Some nf => mode nf | None => 384%Z end /\
      match run.2 with
      | Ok (Some k) =>
          exists n, netrc_parse (content (open_store e)) = Ok n /\
                    assoc_mem ESA_CDSE_HOST (hosts n) = false /\
                    content nf' = written e n /\
                    k = String.length (content nf')
      | _ => content nf' = content (open_store e)
      end) /\
  (run.2 = Ok None <-> exists c, read_record e = Ok (Some c)) /\
  (forall x, read_record e = Raise x -> run.2 = Raise x).
Proof.
  intros run. subst run.
  assert (mode (open_store e)
          = match netrc e with Some nf => mode nf | None => 384%Z end)
    as Hmode by (unfold open_store; by destruct (netrc e)).
  destruct (read_record e) as [[c|]|x] eqn:E.
  - rewrite (ensure_existing e c E). cbn [fst snd touched environ netrc].
    split; [done|]. split; [by eexists|]. split; [|done].
    split; [by eexists | done].
  - pose proof E as (n & Hn & Hmem)%read_record_none.
    rewrite (ensure_missing e n Hn Hmem).
    destruct (environ e !! "ESA_USERNAME"), (environ e !! "ESA_PASSWORD");
      cbn [fst snd touched environ netrc];
      (split; [done|]); (split; [|split; [split; [done | by intros [? ?]]
                                         | done]]);
      eexists; (split; [reflexivity|]); (split; [exact Hmode|]);
      try done; by exists n.
  - rewrite (ensure_unreadable e x E). cbn [fst snd touched environ netrc].
    split; [done|]. split; [by eexists|]. split; [|by intros ? [= ->]].
    split; [done | by intros [? ?]].
Qed.

(** X7.  With CPython's [netrc], a store that loads without a record
    for the host, and exactly one of the two environment inputs set,
    the call does not fail: it returns, and the text it has written is
    the rendering of the hosts loaded, then the entry of the host with
    the word [None] in the place of the input that is absent, then the
    rendering of the macros. *)
Theorem half_configured (e : environment) (n : netrc_object) :
  parse (content (open_store e)) = Ok n ->
  assoc_mem ESA_CDSE_HOST (hosts n) = false ->
  (is_Some (environ e !! "ESA_USERNAME")
   <-> environ e !! "ESA_PASSWORD" = None) ->
  let run := ensure_orbit_credentials (lib := cpython_netrc) e in
  let user := default "None" (environ e !! "ESA_USERNAME") in
  let pass := default "None" (environ e !! "ESA_PASSWORD") in
  exists nf' k,
    run = (Environment (Some nf') (environ e), Ok (Some k)) /\
    content nf'
    = hosts_text (hosts n)
      +:+ ("machine " +:+ ESA_CDSE_HOST +:+ newline +:+ tab +:+ "login " +:+ user
           +:+ newline +:+ tab +:+ "password " +:+ pass +:+ newline)
      +:+ macros_text (macros n) /\
    (user = "None" /\ environ e !! "ESA_USERNAME" = None
     \/ pass = "None" /\ environ e !! "ESA_PASSWORD" = None).
Proof.
  intros Hn Hmem Hone run user pass. subst run user pass.
  rewrite (ensure_missing (lib := cpython_netrc) e n Hn Hmem).
  assert (written (lib := cpython_netrc) e n
          = hosts_text (hosts n)
            +:+ ("machine " +:+ ESA_CDSE_HOST +:+ newline +:+ tab +:+ "login "
                 +:+ default "None" (environ e !! "ESA_USERNAME")
                 +:+ newline +:+ tab +:+ "password "
                 +:+ default "None" (environ e !! "ESA_PASSWORD") +:+ newline)
            +:+ macros_text (macros n)) as Htext.
  { unfold written. cbn [netrc_str cpython_netrc]. rewrite repr_added.
    by do 2 f_equal. }
  destruct (environ e !! "ESA_USERNAME") as [u|] eqn:Hu,
           (environ e !! "ESA_PASSWORD") as [pw|] eqn:Hp.
  - destruct Hone as [Hone _]. by specialize (Hone (ltac:(by eexists))).
  - do 2 eexists. split; [reflexivity|]. split; [exact Htext | by right].
  - do 2 eexists. split; [reflexivity|]. split; [exact Htext | by left].
  - destruct Hone as [_ Hone]. by destruct (Hone eq_refl).
Qed.

Lemma half_configured_witness :
  exists nf' k,
    ensure_orbit_credentials (lib := cpython_netrc) user_only
    = (Environment (Some nf') (environ user_only), Ok (Some k)) /\
    content nf'
    = "machine dataspace.copernicus.eu" +:+ newline +:+ tab +:+ "login user"
      +:+ newline +:+ tab +:+ "password None" +:+ newline /\
    read_record (lib := cpython_netrc) (Environment (Some nf') ∅)
    = Ok (Some (Credentials (Some "user") (Some "") (Some "None"))).
Proof.
  assert (is_Some (environ user_only !! "ESA_USERNAME")
          <-> environ user_only !! "ESA_PASSWORD" = None) as Hone.
  { split; [intros _; reflexivity | intros _; eexists; reflexivity]. }
  destruct (half_configured user_only (NetrcObject [] []) eq_refl eq_refl Hone)
    as (nf' & k & Hrun & Htext & _).
  exists nf', k. split; [exact Hrun|]. split; [exact Htext|].
  unfold read_record. cbn [open_store netrc]. rewrite Htext. by vm_compute.
Defined.

End CredentialsExtra.

(** ** The batch loop *)

Module DriverExtra.
Import PyStr PyStrFacts Driver Spec SpecX RouterSpec DriverSpec.

Lemma zip_take {A B : Type} (n : nat) (l : list A) (k : list B) :
  zip (take n l) (take n k) = take n (zip l k).
Proof.
  revert l k. induction n as [|n IH]; intros [|x l] [|y k]; cbn; try done.
  by rewrite IH.
Qed.

Lemma zip_fst_take {A B : Type} (l : list A) (k : list B) :
  (zip l k).*1 = take (length k) l.
Proof.
  revert k. induction l as [|x l IH]; intros [|y k]; cbn; try done.
  by rewrite IH.
Qed.

Lemma ok_shape {S A : Type} (x : S * result A) :
  match x.2 with Ok _ => true | Raise _ => false end = true ->
  exists a, x = (x.1, Ok a).
Proof. destruct x as [s [a|e]]; [by exists a | done]. Qed.

Section Batch.
Context {W Date Bounds Artifact Delay : Type}.
Context `{Countable Date}.
Context {engines : Engines W Date Bounds Artifact Delay}.

#[local] Abbreviation ev := (event Date Bounds Artifact).
#[local] Abbreviation job := (Date * (string * string))%type.

(** X8.  Only the engines are guarded.  An exception raised by a writer,
    a [RuntimeError] included, is not caught: it leaves the loop at
    once, the jobs that follow are not processed and no mapping is
    returned.  Shown for the cube writer and for [writeDelays]. *)
Theorem writer_failure_aborts (p : Params Date Bounds) (t : Date)
    (w f : string) (rest : list job) (d : gmap Date (string * string))
    (s : state) (w1 w2 w3 : W) (wm : Artifact) (wet : Delay) (e : exn) :
  prepare p false t (world s) = (w1, Ok wm) ->
  let o := (derive_names (los p) w f).1 in
  let f' := (derive_names (los p) w f).2 in
  let before := (trace s ++ prologue t
                 ++ [PrepareCall t (ll_bounds_of p) false;
                     TropoDelayCall t wm])%list in
  (compute p t wm w1 = (w2, Ok (wet, None)) ->
   to_netcdf w2 wet (cube_name o) (cube_writer_of o) = (w3, Raise e) ->
   run_jobs p false ((t, (w, f)) :: rest) d s
   = (State w3 (before ++ [ToNetcdfCall (cube_name o) (cube_writer_of o)]),
      Raise e)) /\
  (forall hydro,
      compute p t wm w1 = (w2, Ok (wet, Some hydro)) ->
      writes_pair (aoi_type (aoi p)) = true ->
      let name := pair_name (aoi_type (aoi p)) o in
      let fmt := raster_fmt (raster_format p) in
      writeDelays w2 (aoi p) wet hydro name f' fmt = (w3, Raise e) ->
      run_jobs p false ((t, (w, f)) :: rest) d s
      = (State w3 (before ++ [WriteDelaysCall name f' fmt]), Raise e)).
Proof.
  intros Eprep o f' before. split.
  - intros Ecomp Ewrite. apply run_jobs_raise.
    rewrite process_job_eq, Eprep. cbv zeta. rewrite Ecomp.
    unfold route. subst o f' before.
    destruct (derive_names (los p) w f) as [o f'] eqn:Ed. cbn [fst snd] in *.
    destruct (cube_name_writer o) as [_ Hw].
    unfold write_cube. rewrite Hw. unfold bind, invoke. cbn [world trace].
    rewrite Ewrite. by rewrite <- !app_assoc.
  - intros hydro Ecomp Hwrites name fmt Ewrite. apply run_jobs_raise.
    rewrite process_job_eq, Eprep. cbv zeta. rewrite Ecomp.
    unfold route. subst o f' before name fmt.
    destruct (derive_names (los p) w f) as [o f'] eqn:Ed. cbn [fst snd] in *.
    unfold write_pair. rewrite Hwrites. unfold bind, invoke. cbn [world trace].
    rewrite Ewrite. by rewrite <- !app_assoc.
Qed.

Lemma raster_fmt_not_nc (raster_format : string) :
  raster_fmt raster_format <> "nc".
Proof.
  unfold raster_fmt. destruct (String.eqb raster_format "nc") eqn:E; cbn.
  - discriminate.
  - by apply String.eqb_neq in E.
Qed.

(** X9.  With both delays returned, the wet name of a [station_file]
    area is the derived name with its extension replaced by [.csv], and
    any other area keeps the derived name.  [writeDelays] is called for
    the three area types [station_file], [radar_rasters] and
    [geocoded_file] only, and the format it is given is never ["nc"]
    ([GTiff] stands in for it).  For any other area type no writer is
    called at all, yet the two "Wrote ..." lines are logged and the two
    names are returned for the mapping. *)
Theorem pair_route (p : Params Date Bounds) (wet hydro : Delay)
    (w f : string) (s : state) :
  let o := (derive_names (los p) w f).1 in
  let f' := (derive_names (los p) w f).2 in
  let name := pair_name (aoi_type (aoi p)) o in
  let fmt := raster_fmt (raster_format p) in
  let logged := [Info "Wrote wet delays to: %s" name;
                 Info "Wrote hydro delays to: %s" f'] in
  (if String.eqb (aoi_type (aoi p)) "station_file"
   then name = (splitext o).1 +:+ ".csv" /\ endswith ".csv" name = true
   else name = o) /\
  fmt <> "nc" /\
  (fmt = "GTiff" \/ fmt = raster_format p) /\
  route p wet (Some hydro) w f s
  = if writes_pair (aoi_type (aoi p)) then
      match writeDelays (world s) (aoi p) wet hydro name f' fmt with
      | (w', Ok _) =>
          (State w' (trace s ++ WriteDelaysCall name f' fmt :: logged),
           Ok (name, f'))
      | (w', Raise e) =>
          (State w' (trace s ++ [WriteDelaysCall name f' fmt]), Raise e)
      end
    else (State (world s) (trace s ++ logged), Ok (name, f')).
Proof.
  intros o f' name fmt logged. subst o f' name fmt logged. unfold route.
  destruct (derive_names (los p) w f) as [o f'] eqn:Ed. cbn [fst snd].
  split; [|split; [apply raster_fmt_not_nc|split]].
  - unfold pair_name. destruct (String.eqb _ "station_file"); [|done].
    split; [done | apply endswith_app].
  - unfold raster_fmt. destruct (negb _); [by right | by left].
  - unfold write_pair, bind, invoke, emit, ret.
    destruct (writes_pair _); cbn [world trace].
    + destruct (writeDelays _ _ _ _ _ _ _) as [w' [[]|e]]; cbn [world trace];
        [|done].
      by rewrite <- !app_assoc.
    + by rewrite <- !app_assoc.
Qed.

Lemma store_keep (jobs : list job) (t : Date) :
  forall (d : gmap Date (string * string)) rs,
    (forall k j, jobs !! k = Some j -> j.1 = t -> rs !! k = Some None) ->
    store d jobs rs !! t = d !! t.
Proof.
  induction jobs as [|j0 jobs IH]; intros d rs Hlater; [done|].
  destruct rs as [|[v|] rs]; cbn [store]; [done| |].
  - destruct (decide (j0.1 = t)) as [Heq|Hne].
    + by specialize (Hlater 0%nat j0 eq_refl Heq).
    + rewrite IH; [by apply lookup_insert_ne|].
      intros k j Hk Hj. exact (Hlater (S k) j Hk Hj).
  - apply IH. intros k j Hk Hj. exact (Hlater (S k) j Hk Hj).
Qed.

Lemma store_last (jobs : list job) :
  forall (d : gmap Date (string * string)) rs (i : nat) (j : job) v,
    jobs !! i = Some j -> rs !! i = Some (Some v) ->
    (forall k j', (i < k)%nat -> jobs !! k = Some j' -> j'.1 = j.1 ->
                  rs !! k = Some None) ->
    store d jobs rs !! j.1 = Some v.
Proof.
  induction jobs as [|j0 jobs IH]; intros d rs i j v Hj Hr Hlater; [done|].
  destruct rs as [|r0 rs]; [done|].
  destruct i as [|i]; cbn in Hj, Hr.
  - injection Hj as ->. injection Hr as ->. cbn [store].
    rewrite store_keep; [apply lookup_insert_eq|].
    intros k j' Hk Hj'. apply (Hlater (S k) j'); [lia | done | done].
  - assert (forall k j', (i < k)%nat -> jobs !! k = Some j' -> j'.1 = j.1 ->
                         rs !! k = Some None) as Hlater'.
    { intros k j' Hik Hk Hj'. apply (Hlater (S k) j'); [lia | done | done]. }
    destruct r0 as [v0|]; cbn [store]; by eapply IH.
Qed.

(** X10.  Jobs that share a date share one key: in the mapping returned
    the entry for a date is the value stored by the last routed job with
    that date.  An earlier routed job is overwritten by it, and a later
    job that fails or is skipped leaves it in place. *)
Theorem last_routed_wins (p : Params Date Bounds) (dl_only : bool)
    (jobs : list job) (d : gmap Date (string * string)) (s s' : state)
    (rs : list (option (string * string))) (i : nat) (j : job)
    (v : string * string) :
  job_results p dl_only jobs s = (s', Ok rs) ->
  jobs !! i = Some j ->
  rs !! i = Some (Some v) ->
  (forall k j', (i < k)%nat -> jobs !! k = Some j' -> j'.1 = j.1 ->
                rs !! k = Some None) ->
  exists d',
    run_jobs p dl_only jobs d s = (s', Ok d') /\
    d' !! j.1 = Some v.
Proof.
  intros Hres Hj Hr Hlater. rewrite run_jobs_results, Hres.
  eexists. split; [reflexivity|]. by eapply store_last.
Qed.

(** *** Counting the calls *)

Lemma count_events_app (kind : ev -> bool) (a b : list ev) :
  count_events kind (a ++ b) = (count_events kind a + count_events kind b)%nat.
Proof. unfold count_events. by rewrite List.filter_app, length_app. Qed.

Lemma route_tally (p : Params Date Bounds) (wet : Delay)
    (hydro : option Delay) (w f : string) (s : state) :
  exists evs,
    trace (route p wet hydro w f s).1 = (trace s ++ evs)%list /\
    count_events is_prepare_call evs = 0%nat /\
    count_events is_tropo_call evs = 0%nat /\
    (count_events is_writer_call evs <= 1)%nat.
Proof.
  unfold route. destruct (derive_names (los p) w f) as [o f'].
  destruct hydro as [hydro|].
  - unfold write_pair, bind, invoke, emit, ret.
    destruct (writes_pair _); cbn [world trace].
    + destruct (writeDelays _ _ _ _ _ _ _) as [w' [[]|e]]; cbn [world trace fst];
        rewrite <- ?app_assoc; eexists; (split; [reflexivity|]);
        cbn; repeat split; lia.
    + cbn [world trace fst]. rewrite <- ?app_assoc.
      eexists; (split; [reflexivity|]); cbn; repeat split; lia.
  - unfold write_cube, bind, invoke, emit, ret.
    destruct (cube_writer_for _) as [k|]; cbn [world trace].
    + destruct (to_netcdf _ _ _ _) as [w' [[]|e]]; cbn [world trace fst];
        rewrite <- ?app_assoc; eexists; (split; [reflexivity|]);
        cbn; repeat split; lia.
    + cbn [world trace fst].
      eexists; (split; [reflexivity|]); cbn; repeat split; lia.
Qed.

Lemma process_job_tally (p : Params Date Bounds) (dl_only : bool)
    (j : job) (s : state) :
  exists evs,
    trace (process_job p dl_only j s).1 = (trace s ++ evs)%list /\
    count_events is_prepare_call evs = 1%nat /\
    (count_events is_tropo_call evs <= 1)%nat /\
    (count_events is_writer_call evs <= count_events is_tropo_call evs)%nat /\
    (dl_only = true -> count_events is_tropo_call evs = 0%nat).
Proof.
  destruct j as [t [w f]]. rewrite process_job_eq. cbv zeta.
  unfold prologue, failed.
  destruct (prepare p dl_only t (world s)) as [w1 [wm|e]].
  - destruct dl_only; cbn [fst trace].
    + eexists; (split; [reflexivity|]); cbn; repeat split; lia.
    + destruct (compute p t wm w1) as [w2 [[wet hydro]|e]].
      * match goal with
        | |- context [route p wet hydro w f ?s0] =>
            destruct (route_tally p wet hydro w f s0)
              as (evs & Htr & Hp & Ht & Hw)
        end.
        destruct (route _ _ _ _ _ _) as [s3 [v|e]]; cbn [fst trace] in *;
          rewrite Htr, <- !app_assoc; eexists; (split; [reflexivity|]);
          rewrite !count_events_app, Hp, Ht; cbn; repeat split; try lia;
          done.
      * destruct (is_RuntimeError e); cbn [fst trace];
          rewrite <- ?app_assoc; eexists; (split; [reflexivity|]);
          cbn; repeat split; try lia; done.
  - destruct (is_RuntimeError e); cbn [fst trace];
      rewrite <- ?app_assoc; eexists; (split; [reflexivity|]);
      cbn; repeat split; lia.
Qed.

(** X11.  The loop never repeats a call for a job.  In any run, however
    it ends, the preparation engine has been called at most once per
    job (exactly once per job when the loop returns), the delay engine
    at most once per preparation call, and a writer at most once per
    delay computation; with the download-only flag the delay engine is
    not called. *)
Theorem call_counts (p : Params Date Bounds) (dl_only : bool)
    (jobs : list job) (d : gmap Date (string * string)) (s : state) :
  let run := run_jobs p dl_only jobs d s in
  exists evs,
    trace run.1 = (trace s ++ evs)%list /\
    (count_events is_prepare_call evs <= length jobs)%nat /\
    (count_events is_tropo_call evs <= count_events is_prepare_call evs)%nat /\
    (count_events is_writer_call evs <= count_events is_tropo_call evs)%nat /\
    match run.2 with
    | Ok _ => count_events is_prepare_call evs = length jobs
    | Raise _ => (1 <= count_events is_prepare_call evs)%nat
    end.
Proof.
  cbv zeta. revert d s. induction jobs as [|j rest IH]; intros d s.
  - exists []. cbn. rewrite app_nil_r. repeat split; lia.
  - cbn [run_jobs]. unfold bind.
    destruct (process_job_tally p dl_only j s)
      as (evs1 & Htr1 & Hp1 & Ht1 & Hw1 & _).
    destruct (process_job p dl_only j s) as [s1 [r|e]]; cbn [fst] in Htr1.
    + destruct r as [v|];
        match goal with
        | |- context [run_jobs p dl_only rest ?d1 s1] =>
            destruct (IH d1 s1) as (evs2 & Htr2 & Hp2 & Ht2 & Hw2 & Hr2)
        end;
        exists (evs1 ++ evs2)%list; rewrite !count_events_app; cbn [length];
        (split; [by rewrite Htr2, Htr1, <- app_assoc|]);
        (split; [lia|]); (split; [lia|]); (split; [lia|]);
        destruct (run_jobs _ _ _ _ _).2; lia.
    + exists evs1. cbn [fst snd length]. repeat split; try done; lia.
Qed.

Lemma routed_dates (jobs : list job) :
  forall rs t, t ∈ routed jobs rs -> t ∈ jobs.*1.
Proof.
  induction jobs as [|j jobs IH]; intros rs t; [by destruct rs|].
  destruct rs as [|[v|] rs]; cbn [routed]; [by intros ?%elem_of_nil| |].
  - intros [->|Ht]%elem_of_cons; [by left|]. right. by eapply IH.
  - intros Ht. right. by eapply IH.
Qed.

Lemma jobs_of_dates (p : Params Date Bounds) :
  (jobs_of p).*1
  = take (Nat.min (length (wetFilenames p)) (length (hydroFilenames p)))
         (date_list p).
Proof.
  unfold jobs_of. by rewrite zip_fst_take, length_zip_with.
Qed.

Lemma run_jobs_with_lists (p : Params Date Bounds) (dates : list Date)
    (wets hydros : list string) (dl_only : bool) (jobs : list job) :
  forall (d : gmap Date (string * string)) (s : state),
    run_jobs (with_lists p dates wets hydros) dl_only jobs d s
    = run_jobs p dl_only jobs d s.
Proof.
  induction jobs as [|j rest IH]; intros d s; [done|].
  cbn [run_jobs]. unfold bind.
  change (process_job (with_lists p dates wets hydros) dl_only j s)
    with (process_job p dl_only j s).
  destruct (process_job p dl_only j s) as [s1 [[v|]|e]]; [apply IH..|done].
Qed.

Lemma jobs_of_cut (p : Params Date Bounds) :
  jobs_of (cut_to_shortest p) = jobs_of p /\
  length (jobs_of p) = shortest p.
Proof.
  unfold jobs_of, cut_to_shortest, with_lists, shortest.
  cbn [date_list wetFilenames hydroFilenames].
  rewrite !zip_take, !length_zip_with. split; [|done].
  apply take_ge. by rewrite !length_zip_with.
Qed.

(** X21.  The three lists of the parameters are walked together and the
    walk stops with the shortest: the number of jobs is the length [n]
    of the shortest list, and the run, however it ends, is the run on
    the parameters whose lists are cut to their first [n] entries, with
    the same result, the same calls and the same log.  So nothing is
    called, raised or logged for the entries left out; when the loop
    returns, the preparation engine has been called for the first [n]
    dates and no others, and a date that is not among them has no entry
    in the mapping returned. *)
Theorem short_lists_truncate (p : Params Date Bounds) (cli : bool)
    (s : state) :
  let n := shortest p in
  length (jobs_of p) = n /\
  calcDelays_loop p cli s = calcDelays_loop (cut_to_shortest p) cli s /\
  forall s' d,
    calcDelays_loop p cli s = (s', Ok d) ->
    prepared_dates (trace s')
    = (prepared_dates (trace s) ++ take n (date_list p))%list /\
    (forall t, t ∉ take n (date_list p) -> d !! t = None).
Proof.
  intros n. destruct (jobs_of_cut p) as [Hcut Hlen].
  split; [exact Hlen|]. split.
  { unfold calcDelays_loop. rewrite Hcut.
    symmetry. apply run_jobs_with_lists. }
  intros s' d Hrun. unfold calcDelays_loop in Hrun.
  rewrite run_jobs_results in Hrun.
  destruct (job_results _ _ _ s) as [s1 [rs|e]] eqn:E; [|done].
  injection Hrun as -> <-.
  destruct (job_results_ok _ _ _ _ _ _ E) as [_ Hdates].
  assert ((jobs_of p).*1 = take n (date_list p)) as Hfst.
  { rewrite jobs_of_dates. unfold n, shortest.
    destruct (Nat.min_spec (length (date_list p))
                (Nat.min (length (wetFilenames p)) (length (hydroFilenames p))))
      as [[Hlt ->]|[Hle ->]]; [|done].
    by rewrite !take_ge by lia. }
  rewrite Hfst in Hdates. split; [done|].
  intros t Hnot. apply eq_None_not_Some. intros Hsome. apply Hnot.
  apply elem_of_dom in Hsome. rewrite store_dom in Hsome.
  rewrite dom_empty_L, (left_id_L ∅ (∪)) in Hsome.
  apply elem_of_list_to_set, routed_dates in Hsome. by rewrite Hfst in Hsome.
Qed.

End Batch.

(** *** The properties at concrete engines *)

Lemma writer_failure_aborts_witness :
  exists s',
    run_jobs (engines := writers_down) (demo_params false) false
      (jobs_of (demo_params false)) ∅ start
    = (s', Raise (RuntimeError "disk full")) /\
    count_events is_prepare_call (trace s') = 1%nat.
Proof.
  destruct (writer_failure_aborts (engines := writers_down)
              (demo_params false) 20200101%Z "20200101_wet_ztd.tif"
              "20200101_hydro_ztd.tif"
              (tail (jobs_of (demo_params false))) ∅ start 1%nat 2%nat 3%nat
              "weather_files/GMAO.nc" "cube" (RuntimeError "disk full")
              eq_refl) as [Hcube _].
  eexists. split.
  - apply Hcube; reflexivity.
  - reflexivity.
Defined.

Lemma last_routed_wins_witness :
  exists s' d',
    run_jobs (engines := demo_engines) (demo_params false) false twice ∅ start
    = (s', Ok d') /\
    d' !! 20200101%Z = Some ("second_tropo_ztd.nc", "second_hydro_ztd.nc").
Proof.
  assert (job_results (engines := demo_engines) (demo_params false) false
            twice start
          = ((job_results (engines := demo_engines) (demo_params false) false
                twice start).1,
             Ok [Some ("first_tropo_ztd.nc", "first_hydro_ztd.nc");
                 Some ("second_tropo_ztd.nc", "second_hydro_ztd.nc")]))
    as E by (vm_compute; reflexivity).
  destruct (last_routed_wins (engines := demo_engines) (demo_params false)
              false twice ∅ start _ _ 1%nat
              (20200101%Z, ("second_wet_ztd.nc", "second_hydro_ztd.nc"))
              ("second_tropo_ztd.nc", "second_hydro_ztd.nc")
              E eq_refl eq_refl) as (d' & Hrun & Hd').
  - intros k j' Hk Hj'. apply lookup_lt_Some in Hj'. cbn in Hj'. lia.
  - by do 2 eexists.
Defined.

Lemma short_lists_truncate_witness :
  prepared_dates
    (trace (calcDelays_loop (engines := demo_engines) short_params false
              start).1)
  = [20200101; 20200102]%Z.
Proof.
  destruct (ok_shape (calcDelays_loop (engines := demo_engines) short_params
                        false start)) as [d Hd]; [by vm_compute|].
  destruct (short_lists_truncate (engines := demo_engines) short_params false
              start) as (_ & _ & Hret).
  destruct (Hret _ _ Hd) as [Hdates _].
  exact Hdates.
Defined.

End DriverExtra.

(** ** Reading the template *)

Module TemplateSpec.
Import PyStr Template Spec SpecX.

#[local] Open Scope list_scope.

Section Dict.
Context {V : Type}.

Lemma dict_get_app_notin (k : string) (pre post : list (string * V)) :
  k ∉ dict_keys pre -> dict_get k (pre ++ post) = dict_get k post.
Proof.
  induction pre as [|[k' v] pre IH]; intros Hk; [done|].
  cbn in *. apply not_elem_of_cons in Hk as [Hne Hk].
  apply String.eqb_neq in Hne. rewrite Hne. by apply IH.
Qed.

Lemma dict_del_app_notin (k : string) (pre post : list (string * V)) :
  k ∉ dict_keys pre -> dict_del k (pre ++ post) = (pre ++ dict_del k post)%list.
Proof.
  induction pre as [|[k' v] pre IH]; intros Hk; [done|].
  cbn in *. apply not_elem_of_cons in Hk as [Hne Hk].
  apply String.eqb_neq in Hne. rewrite Hne. by rewrite IH.
Qed.

Lemma dict_set_app_notin (k : string) (v : V) (pre post : list (string * V)) :
  k ∉ dict_keys pre ->
  dict_set k v (pre ++ post) = (pre ++ dict_set k v post)%list.
Proof.
  induction pre as [|[k' v'] pre IH]; intros Hk; [done|].
  cbn in *. apply not_elem_of_cons in Hk as [Hne Hk].
  apply String.eqb_neq in Hne. rewrite Hne. by rewrite IH.
Qed.

Lemma dict_get_None (k : string) (d : list (string * V)) :
  k ∉ dict_keys d -> dict_get k d = None.
Proof.
  intros Hk. rewrite <- (app_nil_r d). by rewrite dict_get_app_notin.
Qed.

Lemma dict_get_elem (k : string) (v : V) (d : list (string * V)) :
  dict_get k d = Some v -> (k, v) ∈ d.
Proof.
  induction d as [|[k' v'] d IH]; [done|]. cbn.
  destruct (String.eqb k k') eqn:E.
  - apply String.eqb_eq in E as ->. intros [= ->]. by left.
  - intros Hd. right. by apply IH.
Qed.

End Dict.

Lemma keys_split (pre post : list (string * yaml)) (k : string) (v : yaml) :
  NoDup (dict_keys (pre ++ (k, v) :: post)) ->
  (k ∉ dict_keys pre) /\
  (forall v', NoDup (dict_keys ((pre ++ [(k, v')]) ++ post))) /\
  NoDup (dict_keys (pre ++ post)).
Proof.
  unfold dict_keys. rewrite !fmap_app, fmap_cons. intros Hnd.
  apply NoDup_app in Hnd as (Hpre & Hdisj & Hpost).
  apply NoDup_cons in Hpost as [Hk Hpost].
  split; [|split].
  - intros Hin. apply (Hdisj k Hin). by left.
  - intros v'. rewrite !fmap_app, <- app_assoc. cbn.
    apply NoDup_app. repeat split; try done. by apply NoDup_cons.
  - apply NoDup_app. repeat split; try done.
    intros x Hx Hx'. apply (Hdisj x Hx). by right.
Qed.

Lemma drop_inner_step_head (pre post : list (string * yaml)) (k : string)
    (v : yaml) :
  k ∉ dict_keys pre ->
  drop_inner_step (pre ++ (k, v) :: post) k
  = if is_null v then pre ++ post else (pre ++ [(k, v)]) ++ post.
Proof.
  intros Hk. unfold drop_inner_step.
  rewrite dict_get_app_notin by done. cbn [dict_get].
  rewrite String.eqb_refl.
  destruct v; cbn [is_null]; try (by rewrite <- app_assoc).
  rewrite dict_del_app_notin by done. cbn [dict_del].
  by rewrite String.eqb_refl.
Qed.

Lemma inner_loop (post : list (string * yaml)) :
  forall pre,
    NoDup (dict_keys (pre ++ post)) ->
    foldl drop_inner_step (pre ++ post) (dict_keys post)
    = pre ++ not_null_entries post.
Proof.
  induction post as [|[k v] post IH]; intros pre Hnd; [done|].
  destruct (keys_split pre post k v Hnd) as (Hk & Hnd1 & Hnd2).
  change (dict_keys ((k, v) :: post)) with (k :: dict_keys post).
  cbn [foldl]. rewrite drop_inner_step_head by done.
  unfold not_null_entries. cbn [List.filter snd].
  destruct (is_null v); cbn [negb].
  - by apply IH.
  - rewrite IH by apply Hnd1. by rewrite <- app_assoc.
Qed.

Lemma drop_nans_step_head (pre post : list (string * yaml)) (k : string)
    (v : yaml) :
  k ∉ dict_keys pre ->
  match v with YDict inner => unique_keys inner | _ => True end ->
  drop_nans_step (pre ++ (k, v) :: post) k
  = if is_null v then pre ++ post
    else (pre ++ [(k, cleaned_value v)]) ++ post.
Proof.
  intros Hk Hv. unfold drop_nans_step.
  rewrite dict_get_app_notin by done. cbn [dict_get].
  rewrite String.eqb_refl.
  destruct v; cbn [is_null cleaned_value]; try (by rewrite <- app_assoc).
  - rewrite dict_del_app_notin by done. cbn [dict_del].
    by rewrite String.eqb_refl.
  - rewrite dict_set_app_notin by done. cbn [dict_set].
    rewrite String.eqb_refl.
    pose proof (inner_loop items [] Hv) as Hinner. cbn [app] in Hinner.
    rewrite Hinner. by rewrite <- app_assoc.
Qed.

Lemma outer_loop (post : list (string * yaml)) :
  forall pre,
    NoDup (dict_keys (pre ++ post)) ->
    Forall (fun kv => match kv.2 with
                      | YDict inner => unique_keys inner
                      | _ => True
                      end) post ->
    foldl drop_nans_step (pre ++ post) (dict_keys post)
    = pre ++ cleaned post.
Proof.
  induction post as [|[k v] post IH]; intros pre Hnd Hin.
  - done.
  - destruct (keys_split pre post k v Hnd) as (Hk & Hnd1 & Hnd2).
    apply Forall_cons in Hin as [Hv Hin]. cbn [snd] in Hv.
    change (dict_keys ((k, v) :: post)) with (k :: dict_keys post).
    cbn [foldl]. rewrite drop_nans_step_head by done.
    unfold cleaned, not_null_entries in *. cbn [List.filter snd].
    destruct (is_null v); cbn [negb map fst snd].
    + by apply IH.
    + rewrite IH; [by rewrite <- app_assoc | apply Hnd1 | done].
Qed.

Lemma drop_nans_eq (d : list (string * yaml)) :
  loaded d -> drop_nans (YDict d) = Returns (YDict (cleaned d)).
Proof.
  intros [Hnd Hin]. cbn [drop_nans]. do 2 f_equal.
  exact (outer_loop d [] Hnd Hin).
Qed.

(** X12.  On a loaded mapping the loops of [drop_nans], which delete
    from the mapping while they walk a snapshot of its keys, compute
    this: the entries whose value is [None] are removed, a value that is
    itself a mapping loses its [None] entries, every other entry stays
    as it is, and the order of the entries that remain is kept. *)
Theorem drop_nans_cleans (d : list (string * yaml)) :
  loaded d -> drop_nans (YDict d) = Returns (YDict (cleaned d)).
Proof. apply drop_nans_eq. Qed.

Lemma not_null_entries_keys (d : list (string * yaml)) :
  NoDup (dict_keys d) -> NoDup (dict_keys (not_null_entries d)).
Proof.
  unfold dict_keys, not_null_entries.
  induction d as [|[k v] d IH]; [done|]. cbn [List.filter map fst snd].
  intros [Hk Hnd]%NoDup_cons. specialize (IH Hnd).
  destruct (negb (is_null v)); [|done].
  cbn [map fst]. apply NoDup_cons. split; [|done].
  intros Hin. apply Hk.
  apply list_elem_of_fmap in Hin as ([k' v'] & -> & Hin).
  apply list_elem_of_In, List.filter_In in Hin as [Hin _].
  apply list_elem_of_fmap. exists (k', v'). split; [done|].
  by apply list_elem_of_In.
Qed.

Lemma not_null_entries_elem (d : list (string * yaml)) (k : string) (v : yaml) :
  (k, v) ∈ not_null_entries d <-> (k, v) ∈ d /\ is_null v = false.
Proof.
  unfold not_null_entries. rewrite !list_elem_of_In, List.filter_In. cbn.
  by rewrite negb_true_iff.
Qed.

Lemma not_null_entries_id (d : list (string * yaml)) :
  Forall (fun kv => is_null kv.2 = false) d -> not_null_entries d = d.
Proof.
  unfold not_null_entries. induction 1 as [|[k v] d Hv _ IH]; [done|].
  cbn in *. by rewrite Hv, IH.
Qed.

Lemma not_null_entries_none (d : list (string * yaml)) :
  Forall (fun kv => is_null kv.2 = true) d -> not_null_entries d = [].
Proof.
  unfold not_null_entries. induction 1 as [|[k v] d Hv _ IH]; [done|].
  cbn in *. by rewrite Hv.
Qed.

Lemma not_null_entries_clean (d : list (string * yaml)) :
  Forall (fun kv => is_null kv.2 = false) (not_null_entries d).
Proof.
  apply Forall_forall. intros [k v] Hin.
  by apply not_null_entries_elem in Hin as [_ Hv].
Qed.

Lemma cleaned_value_not_null (v : yaml) :
  is_null v = false -> is_null (cleaned_value v) = false.
Proof. by destruct v. Qed.

Lemma cleaned_value_idem (v : yaml) :
  cleaned_value (cleaned_value v) = cleaned_value v.
Proof.
  destruct v; try done. cbn.
  by rewrite (not_null_entries_id _ (not_null_entries_clean items)).
Qed.

Lemma cleaned_elem (d : list (string * yaml)) (k : string) (v : yaml) :
  (k, v) ∈ cleaned d ->
  exists v0, (k, v0) ∈ d /\ is_null v0 = false /\ v = cleaned_value v0.
Proof.
  unfold cleaned. intros Hin.
  apply list_elem_of_fmap in Hin as ([k0 v0] & [= -> ->] & Hin).
  apply not_null_entries_elem in Hin as [Hin Hv]. by exists v0.
Qed.

Lemma cleaned_idem (d : list (string * yaml)) : cleaned (cleaned d) = cleaned d.
Proof.
  unfold cleaned at 1. rewrite not_null_entries_id.
  - unfold cleaned. rewrite <- list_fmap_compose.
    apply list_fmap_ext. intros i [k v] _. cbn.
    by rewrite cleaned_value_idem.
  - apply Forall_forall. intros [k v] Hin.
    apply cleaned_elem in Hin as (v0 & _ & Hv0 & ->).
    by apply cleaned_value_not_null.
Qed.

Lemma cleaned_loaded (d : list (string * yaml)) : loaded d -> loaded (cleaned d).
Proof.
  intros [Hnd Hin]. split.
  - unfold unique_keys, cleaned, dict_keys in *.
    rewrite <- list_fmap_compose.
    by apply not_null_entries_keys in Hnd.
  - apply Forall_forall. intros [k v] Hkv.
    apply cleaned_elem in Hkv as (v0 & Hv0 & _ & ->).
    eapply Forall_forall in Hin; [|exact Hv0]. cbn in *.
    destruct v0; try done. cbn. by apply not_null_entries_keys.
Qed.

(** X13.  After [drop_nans] no entry of the mapping is [None] and no
    entry of a mapping it holds is [None]; the result is again a loaded
    mapping, and applying [drop_nans] to it changes nothing. *)
Theorem drop_nans_idempotent (d : list (string * yaml)) :
  loaded d ->
  exists d',
    drop_nans (YDict d) = Returns (YDict d') /\
    loaded d' /\
    (forall k v, (k, v) ∈ d' ->
       v <> YNull /\
       forall inner k2 v2, v = YDict inner -> (k2, v2) ∈ inner -> v2 <> YNull) /\
    drop_nans (YDict d') = Returns (YDict d').
Proof.
  intros Hd. exists (cleaned d).
  split; [by apply drop_nans_eq|]. split; [by apply cleaned_loaded|].
  split.
  - intros k v Hkv. apply cleaned_elem in Hkv as (v0 & _ & Hv0 & ->).
    split; [by destruct v0|].
    intros inner k2 v2 Hinner Hin2. destruct v0; try done.
    cbn in Hinner. injection Hinner as <-.
    apply not_null_entries_elem in Hin2 as [_ Hv2]. by destruct v2.
  - rewrite drop_nans_eq by by apply cleaned_loaded.
    by rewrite cleaned_idem.
Qed.

Lemma dict_get_not_null_entries (d : list (string * yaml)) (k : string) :
  NoDup (dict_keys d) ->
  dict_get k (not_null_entries d)
  = match dict_get k d with
    | Some v => if is_null v then None else Some v
    | None => None
    end.
Proof.
  unfold not_null_entries, dict_keys.
  induction d as [|[k0 v0] d IH]; [done|].
  intros [Hk Hnd]%NoDup_cons. specialize (IH Hnd).
  cbn [List.filter dict_get snd map fst] in *.
  destruct (String.eqb k k0) eqn:E.
  - apply String.eqb_eq in E as ->.
    destruct (is_null v0); cbn [negb dict_get].
    + rewrite IH. by rewrite (dict_get_None k0 d).
    + by rewrite String.eqb_refl.
  - destruct (is_null v0); cbn [negb dict_get]; [done|]. by rewrite E.
Qed.

Lemma dict_get_fmap (g : yaml -> yaml) (d : list (string * yaml)) (k : string) :
  dict_get k (map (fun kv => (kv.1, g kv.2)) d) = g <$> dict_get k d.
Proof.
  induction d as [|[k0 v0] d IH]; [done|]. cbn.
  by destruct (String.eqb k k0).
Qed.

(** X14.  What [drop_nans] keeps.  On a loaded mapping it returns a
    mapping in which looking a key up gives nothing where the value was
    [None] or the key was absent, the value itself where it was neither
    [None] nor a mapping, and for a mapping a mapping again: the one
    whose keys give what they gave before, except nothing where they
    gave [None] (a mapping made of [None] entries only stays, empty).
    The cleaning stops there: a mapping stored inside a mapping that is
    itself inside the mapping is returned untouched, [None] entries
    included.  Anything that is not a mapping, as the [None] loaded
    from an empty file, makes [drop_nans] raise [AttributeError]. *)
Theorem drop_nans_keeps (d : list (string * yaml)) :
  loaded d ->
  (exists d',
      drop_nans (YDict d) = Returns (YDict d') /\
      (forall k, dict_get k d = None \/ dict_get k d = Some YNull ->
                 dict_get k d' = None) /\
      (forall k v, dict_get k d = Some v -> v <> YNull ->
                   (forall inner, v <> YDict inner) ->
                   dict_get k d' = Some v) /\
      (forall k inner,
          dict_get k d = Some (YDict inner) ->
          exists inner',
            dict_get k d' = Some (YDict inner') /\
            (forall k2, dict_get k2 inner'
                        = match dict_get k2 inner with
                          | Some YNull => None
                          | kept => kept
                          end) /\
            (Forall (fun kv => kv.2 = YNull) inner -> inner' = []))) /\
  (forall y, (forall items, y <> YDict items) ->
             drop_nans y = Raises (AttributeError "keys")).
Proof.
  intros [Hnd Hin]. split.
  - exists (cleaned d). split; [by apply drop_nans_eq|].
    assert (forall k,
               dict_get k (cleaned d)
               = match dict_get k d with
                 | Some v => if is_null v then None else Some (cleaned_value v)
                 | None => None
                 end) as Hget.
    { intros k. unfold cleaned.
      rewrite (dict_get_fmap cleaned_value), dict_get_not_null_entries by done.
      destruct (dict_get k d) as [v|]; [|done]. by destruct (is_null v). }
    split; [|split].
    + intros k [Hk|Hk]; by rewrite Hget, Hk.
    + intros k v Hk Hnull Hmap. rewrite Hget, Hk.
      destruct v; try done. by destruct (Hmap items).
    + intros k inner Hk. exists (not_null_entries inner).
      rewrite Hget, Hk. cbn. split; [done|]. split.
      * intros k2. rewrite dict_get_not_null_entries.
        -- destruct (dict_get k2 inner) as [v2|]; [|done]. by destruct v2.
        -- apply dict_get_elem in Hk.
           eapply Forall_forall in Hin; [|exact Hk]. exact Hin.
      * intros Hall. apply not_null_entries_none.
        eapply Forall_impl; [exact Hall|]. by intros [k2 v2]; cbn; intros ->.
  - intros y Hy. destruct y; try done. by destruct (Hy items).
Qed.

Lemma sparse_template_loaded : loaded sparse_template.
Proof.
  split.
  - apply (bool_decide_unpack _). by vm_compute.
  - repeat constructor; cbn; apply (bool_decide_unpack _); by vm_compute.
Qed.

Lemma drop_nans_cleans_witness :
  drop_nans (YDict sparse_template)
  = Returns
      (YDict
         [("weather_model", YStr "GMAO");
          ("date_group", YDict [("date_start", YInt 20200101)]);
          ("height_group", YDict []);
          ("runtime_group",
           YDict [("verbose", YBool true);
                  ("extra", YDict [("deep", YNull)])])]).
Proof. exact (drop_nans_cleans sparse_template sparse_template_loaded). Defined.

Lemma drop_nans_idempotent_witness :
  exists d',
    drop_nans (YDict sparse_template) = Returns (YDict d') /\
    drop_nans (YDict d') = Returns (YDict d').
Proof.
  destruct (drop_nans_idempotent sparse_template sparse_template_loaded)
    as (d' & Hfirst & _ & _ & Hsecond).
  by exists d'.
Defined.

Lemma drop_nans_keeps_witness :
  exists d',
    drop_nans (YDict sparse_template) = Returns (YDict d') /\
    dict_get "look_dir" d' = None /\
    dict_get "weather_model" d' = Some (YStr "GMAO") /\
    dict_get "height_group" d' = Some (YDict []) /\
    exists inner',
      dict_get "runtime_group" d' = Some (YDict inner') /\
      dict_get "extra" inner' = Some (YDict [("deep", YNull)]).
Proof.
  destruct (drop_nans_keeps sparse_template sparse_template_loaded)
    as [(d' & Hrun & Hnone & Hsame & Hmap) _].
  exists d'. split; [exact Hrun|].
  split; [apply Hnone; by right|].
  split; [by apply Hsame|].
  destruct (Hmap "height_group" [("dem", YNull); ("height_levels", YNull)]
              eq_refl) as (h' & Hh & _ & Hempty).
  rewrite (Hempty ltac:(by repeat constructor)) in Hh.
  split; [exact Hh|].
  destruct (Hmap "runtime_group"
              [("verbose", YBool true); ("extra", YDict [("deep", YNull)])]
              eq_refl) as (r' & Hr & Hkeys & _).
  exists r'. split; [exact Hr|]. by rewrite Hkeys.
Defined.

End TemplateSpec.

(** ** Reading the template *)

Module ReadSpec.
Import PyStr Template Spec SpecX TemplateSpec.
#[local] Open Scope list_scope.

Section Dict.
Context {V : Type}.

Lemma dict_get_in_keys (k : string) (d : list (string * V)) :
  k ∈ dict_keys d <-> is_Some (dict_get k d).
Proof.
  split.
  - intros Hk. destruct (dict_get k d) eqn:E; [by eexists|].
    exfalso. induction d as [|[k' v] d IH]; cbn in *; [by inversion Hk|].
    destruct (String.eqb_spec k k') as [->|Hne]; [done|].
    apply elem_of_cons in Hk as [?|Hk]; [done | by apply IH].
  - intros [v Hv]. apply dict_get_elem in Hv.
    unfold dict_keys. apply list_elem_of_fmap. by exists (k, v).
Qed.

Lemma dict_set_absent (k : string) (v : V) (d : list (string * V)) :
  k ∉ dict_keys d -> dict_set k v d = d ++ [(k, v)].
Proof.
  intros Hk. rewrite <- (app_nil_r d) at 1.
  by rewrite dict_set_app_notin.
Qed.

End Dict.

Lemma filter_absent_snoc (d : list string) (k : string) (ks : list string) :
  k ∉ ks ->
  filter (fun x => x ∉ d ++ [k]) ks = filter (fun x => x ∉ d) ks.
Proof.
  induction ks as [|x ks IH]; intros Hk; [done|].
  apply not_elem_of_cons in Hk as [Hne Hk].
  rewrite !filter_cons, IH by done.
  destruct (decide (x ∉ d ++ [k])) as [H1|H1], (decide (x ∉ d)) as [H2|H2];
    try done; exfalso.
  - apply H1. apply elem_of_app. left. by apply dec_stable.
  - apply H1. intros [?|Hx%list_elem_of_singleton]%elem_of_app; [done|].
    by subst.
Qed.

Lemma ensure_loop (ks : list string) (d : list (string * yaml)) :
  NoDup ks ->
  foldl (fun d key => match dict_get key d with
                      | Some _ => d
                      | None => dict_set key (YDict []) d
                      end) d ks
  = d ++ map (fun k => (k, YDict [])) (filter (fun k => k ∉ dict_keys d) ks).
Proof.
  revert d. induction ks as [|k ks IH]; intros d Hnd.
  - cbn. by rewrite app_nil_r.
  - apply NoDup_cons in Hnd as [Hk Hnd]. cbn [foldl].
    rewrite filter_cons.
    destruct (dict_get k d) as [v|] eqn:E.
    + rewrite IH by done.
      destruct (decide (k ∉ dict_keys d)) as [Hn|_]; [|done].
      exfalso. apply Hn. apply dict_get_in_keys. by eexists.
    + assert (k ∉ dict_keys d) as Hn.
      { intros [v Hv]%dict_get_in_keys. congruence. }
      rewrite decide_True by done.
      rewrite dict_set_absent, IH by done.
      unfold dict_keys. rewrite map_app. cbn [map fst].
      rewrite (filter_absent_snoc _ _ _ Hk).
      by rewrite <- app_assoc.
Qed.

Lemma ensure_groups_eq (d : list (string * yaml)) :
  ensure_groups d
  = d ++ map (fun k => (k, YDict []))
             (filter (fun k => k ∉ dict_keys d) group_keys).
Proof.
  apply ensure_loop. apply (bool_decide_unpack _). by vm_compute.
Qed.

Lemma ensure_groups_keeps (d : list (string * yaml)) (kv : string * yaml) :
  kv ∈ d -> kv ∈ ensure_groups d.
Proof. rewrite ensure_groups_eq. intros ?. apply elem_of_app. by left. Qed.

Lemma ensure_groups_keys (d : list (string * yaml)) :
  dict_keys (ensure_groups d)
  = dict_keys d ++ filter (fun k => k ∉ dict_keys d) group_keys.
Proof.
  rewrite ensure_groups_eq. unfold dict_keys. rewrite map_app. f_equal.
  rewrite map_map. apply map_id.
Qed.

Lemma ensure_groups_has (d : list (string * yaml)) (k : string) :
  k ∈ group_keys -> k ∈ dict_keys (ensure_groups d).
Proof.
  intros Hk. rewrite ensure_groups_keys. apply elem_of_app.
  destruct (decide (k ∈ dict_keys d)); [by left|].
  right. by apply list_elem_of_filter.
Qed.

Lemma ensure_groups_unique (d : list (string * yaml)) :
  unique_keys d -> unique_keys (ensure_groups d).
Proof.
  unfold unique_keys. intros Hnd. rewrite ensure_groups_keys.
  apply NoDup_app. split; [done|]. split.
  - by intros k Hk [Hn _]%list_elem_of_filter.
  - apply NoDup_filter. apply (bool_decide_unpack _). by vm_compute.
Qed.


Lemma omap_cons_option {A B : Type} (f : A -> option B) (x : A) (xs : list A) :
  omap f (x :: xs) = option_list (f x) ++ omap f xs.
Proof. cbn. by destruct (f x). Qed.

Lemma omap_keys {B : Type} (f : string -> option B) (d : list (string * yaml)) :
  omap (fun kv => f kv.1) d = omap f (dict_keys d).
Proof.
  induction d as [|[k v] d IH]; [done|]. cbn in *. by rewrite IH.
Qed.

Lemma omap_single {B : Type} (k : string) (b : B) (ks : list string) :
  NoDup ks -> k ∈ ks ->
  omap (fun x => if String.eqb x k then Some b else None) ks = [b].
Proof.
  induction ks as [|x ks IH]; intros Hnd Hk; [by inversion Hk|].
  apply NoDup_cons in Hnd as [Hx Hnd]. cbn.
  destruct (String.eqb_spec x k) as [->|Hne].
  - f_equal. clear IH Hk Hnd. induction ks as [|y ks IH]; [done|].
    apply not_elem_of_cons in Hx as [Hne Hx]. cbn.
    apply not_eq_sym, String.eqb_neq in Hne. rewrite Hne. by apply IH.
  - apply elem_of_cons in Hk as [->|Hk]; [done|]. by apply IH.
Qed.

Lemma key_validator_Some (k : string) (v : validator) :
  key_validator k = Some v ->
  k = match v with
      | VWeatherModel => "weather_model"
      | VTime => "time_group"
      | VDates => "date_group"
      | VRegion => "aoi_group"
      | VLos => "los_group"
      | VHeights => k
      end /\ v <> VHeights.
Proof.
  unfold key_validator.
  destruct (String.eqb_spec k "weather_model") as [->|_]; [by intros [= <-]|].
  destruct (String.eqb_spec k "time_group") as [->|_]; [by intros [= <-]|].
  destruct (String.eqb_spec k "date_group") as [->|_]; [by intros [= <-]|].
  destruct (String.eqb_spec k "aoi_group") as [->|_]; [by intros [= <-]|].
  destruct (String.eqb_spec k "los_group") as [->|_]; [by intros [= <-]|].
  done.
Qed.

Lemma key_validator_inj (x y : string) (v : validator) :
  key_validator x = Some v -> key_validator y = Some v -> x = y.
Proof.
  intros [Hx Hv]%key_validator_Some [Hy _]%key_validator_Some.
  destruct v; congruence.
Qed.

Lemma key_validator_keys (ks : list string) :
  NoDup ks -> NoDup (omap key_validator ks ++ [VHeights]).
Proof.
  intros Hnd. apply NoDup_app. split; [|split].
  - induction Hnd as [|k ks Hk Hnd IH]; [constructor|].
    rewrite omap_cons_option.
    destruct (key_validator k) as [v|] eqn:E; [|done].
    cbn. apply NoDup_cons. split; [|done].
    intros (k' & Hk' & E')%list_elem_of_omap.
    by rewrite (key_validator_inj _ _ _ E E') in Hk.
  - intros v (k & _ & E)%list_elem_of_omap ->%list_elem_of_singleton.
    by apply key_validator_Some in E as [_ E].
  - apply NoDup_singleton.
Qed.

Lemma cleaned_keeps (d : list (string * yaml)) (k : string) (v : yaml) :
  (k, v) ∈ d -> is_null v = false -> (k, cleaned_value v) ∈ cleaned d.
Proof.
  intros Hin Hv. unfold cleaned. apply list_elem_of_fmap.
  exists (k, v). split; [done|]. by apply not_null_entries_elem.
Qed.

Lemma dict_get_cleaned (d : list (string * yaml)) (k : string) :
  unique_keys d ->
  dict_get k (cleaned d)
  = match dict_get k d with
    | Some v => if is_null v then None else Some (cleaned_value v)
    | None => None
    end.
Proof.
  intros Hnd. unfold cleaned.
  rewrite dict_get_fmap, dict_get_not_null_entries by done.
  destruct (dict_get k d) as [v|]; [|done]. by destruct (is_null v).
Qed.

Section Read.
Context {W Obj : Type} {validators : Validators W Obj}.

#[local] Abbreviation tstate := (tstate (W := W) (Obj := Obj)).

Lemma template_update_frame (d : list (string * pyval Obj)) (s : tstate) :
  exists dd, template_update d s = (TState (tworld s) dd (tlog s), Returns tt).
Proof.
  unfold template_update. revert s.
  induction d as [|[k v] d IH]; intros s.
  - exists (DEFAULT_DICT s). by destruct s.
  - cbn [tfor]. unfold tbind, template_set at 1. cbn [fst snd].
    destruct (IH (TState (tworld s) (<[k:=v]> (DEFAULT_DICT s)) (tlog s)))
      as [dd Hdd].
    exists dd. by rewrite Hdd.
Qed.

Lemma runtime_loop_frame (items : list (string * yaml)) (s : tstate) :
  exists dd,
    tfor items
      (fun kv => twhen (negb (match kv.2 with YNull => true | _ => false end))
                       (template_set kv.1 (FromYaml kv.2))) s
    = (TState (tworld s) dd (tlog s), Returns tt).
Proof.
  revert s. induction items as [|[k v] items IH]; intros s.
  - exists (DEFAULT_DICT s). by destruct s.
  - cbn [tfor]. unfold tbind. cbn [fst snd].
    destruct (twhen _ _ s) as [s1 r] eqn:E.
    assert (exists dd1, s1 = TState (tworld s) dd1 (tlog s) /\ r = Returns tt)
      as (dd1 & -> & ->).
    { unfold twhen, template_set, treturn in E.
      destruct s as [w dd0 lg].
      destruct (negb _); injection E as <- <-; by eexists. }
    destruct (IH (TState (tworld s) dd1 (tlog s))) as [dd Hdd].
    exists dd. by rewrite Hdd.
Qed.

Lemma tfor_calls {A : Type} (f : A -> option validator) (body : A -> T unit)
    (xs : list A) :
  (forall x s s' u,
      body x s = (s', Returns u) ->
      exists evs, tlog s' = tlog s ++ evs /\
                  validators_called evs = option_list (f x)) ->
  forall (s s' : tstate) u,
    tfor xs body s = (s', Returns u) ->
    exists evs, tlog s' = tlog s ++ evs /\ validators_called evs = omap f xs.
Proof.
  intros Hbody. induction xs as [|x xs IH]; intros s s' u Hrun.
  - inversion Hrun; subst. exists []. by rewrite app_nil_r.
  - cbn [tfor] in Hrun. unfold tbind in Hrun.
    destruct (body x s) as [s1 [u1|e]] eqn:E; [|done].
    destruct (Hbody _ _ _ _ E) as (evs1 & Hl1 & Hc1).
    destruct (IH _ _ _ Hrun) as (evs2 & Hl2 & Hc2).
    exists (evs1 ++ evs2). split.
    + by rewrite Hl2, Hl1, app_assoc.
    + unfold validators_called in *.
      by rewrite omap_app, Hc1, Hc2, omap_cons_option.
Qed.

Lemma tfor_each {A : Type} (body : A -> T unit) (xs : list A) (x : A)
    (s s' : tstate) u :
  tfor xs body s = (s', Returns u) -> x ∈ xs ->
  exists s1 s2 u', body x s1 = (s2, Returns u').
Proof.
  revert s. induction xs as [|y xs IH]; intros s Hrun Hx; [by inversion Hx|].
  cbn [tfor] in Hrun. unfold tbind in Hrun.
  destruct (body y s) as [s1 [u1|e]] eqn:E; [|done].
  apply elem_of_cons in Hx as [->|Hx]; [by eauto|].
  by apply (IH s1).
Qed.

Lemma handle_key_calls (params : list (string * yaml)) (kv : string * yaml)
    (s s' : tstate) u :
  handle_key params kv s = (s', Returns u) ->
  exists evs, tlog s' = tlog s ++ evs /\
              validators_called evs = option_list (key_validator kv.1).
Proof.
  destruct kv as [key value]. unfold handle_key, key_validator. cbn [fst].
  destruct (String.eqb_spec key "runtime_group") as [->|H1].
  { cbn. unfold tbind, tlift, treturn. intros Hrun.
    destruct (yaml_items value) as [items|e]; [|done].
    destruct (runtime_loop_frame items s) as [dd Hdd].
    rewrite Hdd in Hrun. injection Hrun as <- _.
    exists []. by rewrite app_nil_r. }
  destruct (String.eqb_spec key "weather_model") as [->|H2].
  { cbn. unfold tbind, tlift, treturn, tcall, template_set. intros Hrun.
    destruct (enforce_wm (tworld s) value) as [w' [v|e]]; [|done].
    injection Hrun as <- _. by exists [EnforceWm value]. }
  destruct (String.eqb_spec key "time_group") as [->|H3].
  { cbn. unfold tbind, tlift, treturn, tcall. intros Hrun.
    destruct (AttributeDict value) as [group|e]; [|done].
    destruct (enforce_time (tworld s) group) as [w' [d|e]]; [|done].
    match type of Hrun with
    | context [template_update d ?s1] =>
        destruct (template_update_frame d s1) as [dd Hdd]
    end.
    rewrite Hdd in Hrun. injection Hrun as <- _.
    by exists [EnforceTime group]. }
  destruct (String.eqb_spec key "date_group") as [->|H4].
  { cbn. unfold tbind, tlift, treturn, tcall, template_set. intros Hrun.
    destruct (AttributeDict value) as [group|e]; [|done].
    destruct (parse_dates (tworld s) group) as [w' [d|e]]; [|done].
    injection Hrun as <- _. by exists [ParseDates group]. }
  destruct (String.eqb_spec key "aoi_group") as [->|H5].
  { cbn. unfold tbind, tlift, treturn, tcall, template_set. intros Hrun.
    destruct (AttributeDict value) as [group|e]; [|done].
    destruct (dict_get "height_group" params) as [h|]; [|done].
    destruct (AttributeDict h) as [heights|e]; [|done].
    destruct (AttributeDict (YDict (dict_merge group heights)))
      as [dct_temp|e]; [|done].
    destruct (get_query_region (tworld s) dct_temp) as [w' [d|e]]; [|done].
    injection Hrun as <- _. by exists [GetQueryRegion dct_temp]. }
  destruct (String.eqb_spec key "los_group") as [->|H6].
  { cbn. unfold tbind, tlift, treturn, tcall, template_set. intros Hrun.
    destruct (AttributeDict value) as [group|e]; [|done].
    destruct (get_los (tworld s) group) as [w' [d|e]]; [|done].
    injection Hrun as <- _. by exists [GetLos group]. }
  destruct (String.eqb_spec key "look_dir") as [->|H7].
  { cbn. unfold tbind, tlift, treturn, twhen, traise, template_set.
    intros Hrun.
    destruct (yaml_lower value) as [low|e]; [|done].
    destruct (negb _); [done|].
    injection Hrun as <- _. exists []. by rewrite app_nil_r. }
  unfold tbind, twhen, treturn, template_set.
  destruct (String.eqb key "cube_spacing_in_m");
    intros Hrun; injection Hrun as <- _; exists []; by rewrite app_nil_r.
Qed.

Lemma handle_heights_calls (kv : string * yaml) (s s' : tstate) u :
  handle_heights kv s = (s', Returns u) ->
  exists evs,
    tlog s' = tlog s ++ evs /\
    validators_called evs
    = option_list (if String.eqb kv.1 "height_group" then Some VHeights
                   else None).
Proof.
  destruct kv as [key value]. unfold handle_heights. cbn [fst].
  destruct (String.eqb key "height_group").
  - cbn. unfold tbind, tlift, treturn, tcall, template_get. intros Hrun.
    destruct (AttributeDict value) as [group|e]; [|done].
    destruct (DEFAULT_DICT s !! "output_directory") as [out|]; [|done].
    destruct (DEFAULT_DICT s !! "station_file") as [station|]; [|done].
    destruct (DEFAULT_DICT s !! "bounding_box") as [bbox|]; [|done].
    destruct (get_heights (tworld s) group out station bbox)
      as [w' [d|e]]; [|done].
    match type of Hrun with
    | context [template_update d ?s1] =>
        destruct (template_update_frame d s1) as [dd Hdd]
    end.
    rewrite Hdd in Hrun. injection Hrun as <- _.
    by exists [GetHeights group out station bbox].
  - cbn. unfold treturn. intros Hrun. injection Hrun as <- _.
    exists []. by rewrite app_nil_r.
Qed.

(** A look direction passes its handler only when the check accepts
    it. *)
Lemma handle_look_dir (params : list (string * yaml)) (value : yaml)
    (s s' : tstate) u :
  handle_key params ("look_dir", value) s = (s', Returns u) ->
  accepted_look_dir value.
Proof.
  unfold handle_key. cbn.
  unfold tbind, tlift, treturn, twhen, traise, template_set. intros Hrun.
  destruct value as [| | |txt| | |]; try done. cbn in Hrun.
  exists txt. split; [done|].
  destruct (String.eqb_spec (lower txt) "right") as [->|Hr]; [by left|].
  destruct (String.eqb_spec (lower txt) "left") as [->|Hl]; [by right|].
  done.
Qed.

Lemma read_loaded_template (y : yaml) (s s' : tstate)
    (t : gmap string (pyval Obj)) :
  read_loaded y s = (s', Returns t) -> t = DEFAULT_DICT s'.
Proof.
  unfold read_loaded, tbind, tlift.
  destruct (drop_nans y) as [c|e]; [|done].
  destruct (yaml_items c) as [items|e]; [|done].
  destruct (tfor _ (handle_key _) s) as [s1 [u1|e]]; [|done].
  destruct (tfor _ handle_heights s1) as [s2 [u2|e]]; [|done].
  by intros [= <- <-].
Qed.

Lemma read_template_file_loaded (fname : string) (s : tstate) (w' : W)
    (y : yaml) :
  load_yaml (tworld s) fname = (w', Loaded y) ->
  read_template_file fname s
  = read_loaded y (TState w' (DEFAULT_DICT s) (tlog s)).
Proof. intros Hload. unfold read_template_file. by rewrite Hload. Qed.

(** A read that returns, in the shape the theorems below take it. *)
Lemma read_template_file_run (fname : string) (s : tstate) :
  match (read_template_file fname s).2 with
  | Returns _ => true
  | Raises _ => false
  end = true ->
  read_template_file fname s
  = ((read_template_file fname s).1,
     Returns (DEFAULT_DICT (read_template_file fname s).1)).
Proof.
  destruct (read_template_file fname s) as [s' [t|e]] eqn:E; [|done].
  intros _. cbn [fst snd]. do 2 f_equal.
  unfold read_template_file in E.
  destruct (load_yaml (tworld s) fname) as [w' [y|text|e]]; [|done..].
  by apply read_loaded_template in E.
Qed.

(** X15.  A template that does not load as a mapping is never read
    further.  When the YAML parser rejects the file, its message is
    printed and a [ValueError] naming the file is raised; any other
    exception of opening or loading is passed on as it is; a file that
    loads as something else than a mapping, as the [None] of an empty
    file, raises [AttributeError].  In all three cases [DEFAULT_DICT]
    is left as it was and no validator has been called. *)
Theorem unreadable_template (fname : string) (s : tstate) :
  let load := load_yaml (tworld s) fname in
  let run := read_template_file fname s in
  (forall items, load.2 <> Loaded (YDict items)) ->
  run.1 = TState load.1 (DEFAULT_DICT s)
                 (tlog s ++ match load.2 with
                            | YAMLError text => [Printed text]
                            | _ => []
                            end) /\
  run.2 = Raises match load.2 with
                 | YAMLError _ =>
                     Std (ValueError ("Something is wrong with the yaml file "
                                      +:+ fname))
                 | LoadFailed e => e
                 | Loaded _ => AttributeError "keys"
                 end.
Proof.
  intros load run Hload. subst load run. unfold read_template_file.
  destruct (load_yaml (tworld s) fname) as [w' [y|text|e]]; cbn [fst snd] in *.
  - destruct y; try (by rewrite app_nil_r); by destruct (Hload items).
  - done.
  - by rewrite app_nil_r.
Qed.

(** X16.  Which validators a read that returns has called.  On a loaded
    mapping, the first loop calls one validator per key it knows, in
    the order of the keys of the cleaned mapping followed by the groups
    that the file left out, and the second loop then calls
    [get_heights].  So the time, date, region, line-of-sight and height
    validators are each called exactly once, also for a group the file
    does not mention (on an empty mapping then); [enforce_wm] is called
    only when the file gives a weather model that is not [None]; and
    [get_heights] comes last.  The mapping returned is the content of
    the shared [DEFAULT_DICT] after the call. *)
Theorem groups_always_validated (fname : string)
    (items : list (string * yaml)) (s s' : tstate) (w' : W)
    (t : gmap string (pyval Obj)) :
  load_yaml (tworld s) fname = (w', Loaded (YDict items)) ->
  loaded items ->
  read_template_file fname s = (s', Returns t) ->
  exists evs,
    tlog s' = tlog s ++ evs /\
    validators_called evs
    = omap key_validator (dict_keys (ensure_groups (cleaned items)))
      ++ [VHeights] /\
    NoDup (validators_called evs) /\
    (forall v, v <> VWeatherModel -> v ∈ validators_called evs) /\
    (VWeatherModel ∈ validators_called evs
     <-> exists y, dict_get "weather_model" items = Some y /\ y <> YNull) /\
    t = DEFAULT_DICT s'.
Proof.
  intros Hload Hloaded Hrun.
  rewrite (read_template_file_loaded _ _ _ _ Hload) in Hrun.
  unfold read_loaded, tbind, tlift in Hrun.
  rewrite (drop_nans_eq _ Hloaded) in Hrun. cbn [yaml_items] in Hrun.
  set (params := ensure_groups (cleaned items)) in *.
  destruct (tfor params (handle_key params) _) as [s1 [u1|e]] eqn:E1; [|done].
  destruct (tfor params handle_heights s1) as [s2 [u2|e]] eqn:E2; [|done].
  injection Hrun as <- <-. cbn [tlog] in E1.
  apply (tfor_calls (fun kv => key_validator kv.1)) in E1
      as (evs1 & Hl1 & Hc1); [|apply handle_key_calls].
  apply (tfor_calls (fun kv => if String.eqb kv.1 "height_group"
                               then Some VHeights else None)) in E2
      as (evs2 & Hl2 & Hc2); [|apply handle_heights_calls].
  assert (unique_keys params) as Hnd.
  { apply ensure_groups_unique. by apply cleaned_loaded. }
  rewrite omap_keys in Hc1.
  rewrite (omap_keys (fun k => if String.eqb k "height_group"
                               then Some VHeights else None)) in Hc2.
  rewrite (omap_single "height_group" VHeights _ Hnd) in Hc2
    by (apply ensure_groups_has; apply (bool_decide_unpack _); by vm_compute).
  exists (evs1 ++ evs2).
  assert (validators_called (evs1 ++ evs2)
          = omap key_validator (dict_keys params) ++ [VHeights]) as Hc.
  { unfold validators_called in *. by rewrite omap_app, Hc1, Hc2. }
  rewrite Hc. split; [by rewrite Hl2, Hl1, app_assoc|].
  split; [done|]. split; [by apply key_validator_keys|].
  split; [|split; [|done]].
  - intros v Hv. apply elem_of_app.
    destruct v; try done; try (by right; left); left;
      apply list_elem_of_omap.
    + exists "time_group". split; [|done].
      apply ensure_groups_has, (bool_decide_unpack _). by vm_compute.
    + exists "date_group". split; [|done].
      apply ensure_groups_has, (bool_decide_unpack _). by vm_compute.
    + exists "aoi_group". split; [|done].
      apply ensure_groups_has, (bool_decide_unpack _). by vm_compute.
    + exists "los_group". split; [|done].
      apply ensure_groups_has, (bool_decide_unpack _). by vm_compute.
  - rewrite elem_of_app, list_elem_of_omap, list_elem_of_singleton.
    subst params. rewrite ensure_groups_keys. split.
    + intros [(k & Hk & [-> _]%key_validator_Some)|?]; [|done].
      apply elem_of_app in Hk as [Hk|[_ Hk]%list_elem_of_filter].
      * apply dict_get_in_keys in Hk as [y' Hy'].
        rewrite dict_get_cleaned in Hy' by apply Hloaded.
        destruct (dict_get "weather_model" items) as [y|]; [|done].
        exists y. split; [done|]. by intros ->.
      * exfalso. revert Hk. apply (bool_decide_unpack _). by vm_compute.
    + intros (y & Hy & Hnull). left. exists "weather_model". split; [|done].
      apply elem_of_app. left. apply dict_get_in_keys.
      rewrite dict_get_cleaned, Hy by apply Hloaded.
      destruct y; try done; by eexists.
Qed.

(** X17.  A read that returns has accepted the look direction: when the
    file gives a top-level [look_dir] other than [None], it is a string
    that lowers to ["right"] or ["left"].  With any other value, a
    value that is not a string included, [read_template_file] does not
    return. *)
Theorem look_dir_checked (fname : string) (items : list (string * yaml))
    (s s' : tstate) (w' : W) (t : gmap string (pyval Obj)) (v : yaml) :
  load_yaml (tworld s) fname = (w', Loaded (YDict items)) ->
  loaded items ->
  read_template_file fname s = (s', Returns t) ->
  dict_get "look_dir" items = Some v ->
  v <> YNull ->
  accepted_look_dir v.
Proof.
  intros Hload Hloaded Hrun Hv Hnull.
  rewrite (read_template_file_loaded _ _ _ _ Hload) in Hrun.
  unfold read_loaded, tbind, tlift in Hrun.
  rewrite (drop_nans_eq _ Hloaded) in Hrun. cbn [yaml_items] in Hrun.
  set (params := ensure_groups (cleaned items)) in *.
  destruct (tfor params (handle_key params) _) as [s1 [u1|e]] eqn:E1; [|done].
  assert (("look_dir", cleaned_value v) ∈ params) as Hin.
  { apply ensure_groups_keeps, cleaned_keeps; [by apply dict_get_elem|].
    by destruct v. }
  destruct (tfor_each _ _ _ _ _ _ E1 Hin) as (s2 & s3 & u' & Hbody).
  apply handle_look_dir in Hbody as (txt & Htxt & Hok).
  exists txt. split; [|done]. by destruct v.
Qed.

End Read.

(** *** The theorems at concrete validators *)

Lemma unreadable_template_witness :
  (read_template_file (validators := demo_validators) "broken.yaml"
                      demo_reading).2
  = Raises (Std (ValueError
                   "Something is wrong with the yaml file broken.yaml")) /\
  (read_template_file (validators := demo_validators) "empty.yaml"
                      demo_reading).2
  = Raises (AttributeError "keys").
Proof.
  split.
  - apply (unreadable_template (validators := demo_validators)
             "broken.yaml" demo_reading).
    intros items. cbn. discriminate.
  - apply (unreadable_template (validators := demo_validators)
             "empty.yaml" demo_reading).
    intros items. cbn. discriminate.
Defined.

Lemma groups_always_validated_witness :
  exists evs,
    tlog (read_template_file (validators := demo_validators)
            "custom.yaml" demo_reading).1 = evs /\
    validators_called evs
    = [VWeatherModel; VDates; VTime; VRegion; VLos; VHeights].
Proof.
  assert (match (read_template_file (validators := demo_validators)
                    "custom.yaml" demo_reading).2 with
          | Returns _ => true
          | Raises _ => false
          end = true) as Hrun by (by vm_compute).
  destruct (groups_always_validated (validators := demo_validators)
              "custom.yaml" sparse_template demo_reading _ 1%nat _
              eq_refl sparse_template_loaded
              (read_template_file_run (validators := demo_validators)
                 "custom.yaml" demo_reading Hrun))
    as (evs & Hl & Hc & _).
  exists evs. split; [exact Hl|]. rewrite Hc. by vm_compute.
Defined.

Lemma look_dir_checked_witness : accepted_look_dir (YStr "Left").
Proof.
  eapply (look_dir_checked (validators := demo_validators)
            "left.yaml" left_looking demo_reading).
  - reflexivity.
  - split; [apply (bool_decide_unpack _); by vm_compute|].
    by repeat constructor.
  - apply (read_template_file_run (validators := demo_validators)).
    by vm_compute.
  - reflexivity.
  - discriminate.
Defined.

End ReadSpec.

(** ** [calcDelays] around its loop *)

Module CliSpec.
Import PyStr Orbits Driver Template Cli Spec SpecX PyStrFacts.
#[local] Open Scope list_scope.

Lemma rfind_from_app (c : ascii) (a b : string) (i : Z) :
  (0 <= rfind_from c b (i + Z.of_nat (String.length a)))%Z ->
  rfind_from c (a +:+ b) i = rfind_from c b (i + Z.of_nat (String.length a)).
Proof.
  revert i. induction a as [|x a IH]; intros i.
  - cbn [String.length]. change ("" +:+ b) with b. by rewrite Z.add_0_r.
  - change (String x a +:+ b) with (String x (a +:+ b)).
    cbn [String.length rfind_from].
    replace (i + Z.of_nat (S (String.length a)))%Z
      with (i + 1 + Z.of_nat (String.length a))%Z by lia.
    intros Hk. rewrite (IH _ Hk).
    by apply Z.leb_le in Hk as ->.
Qed.

Lemma substring_app_skip (a b : string) (n m : nat) :
  String.substring (String.length a + n) m (a +:+ b) = String.substring n m b.
Proof.
  induction a as [|x a IH]; [done|].
  change (String x a +:+ b) with (String x (a +:+ b)). exact IH.
Qed.

Lemma basename_slash (a : string) :
  basename (a +:+ "/raider.yaml") = "raider.yaml".
Proof.
  unfold basename, rfind.
  assert (forall j, rfind_from "/" "/raider.yaml" j = j) as Hj by done.
  rewrite rfind_from_app; rewrite Hj; [|lia].
  replace (Z.to_nat (0 + Z.of_nat (String.length a) + 1))
    with (String.length a + 1)%nat by lia.
  rewrite substring_app_skip, ResolverExtra.length_append.
  replace (String.length a + String.length "/raider.yaml"
           - (String.length a + 1))%nat with 11%nat by (cbn; lia).
  done.
Qed.

(** [os.path.basename(os.path.join(d, 'raider.yaml'))], whatever [d] *)
Lemma basename_join (d : string) :
  basename (path_join d "raider.yaml") = "raider.yaml".
Proof.
  unfold path_join. cbn [startswith Ascii.eqb andb]. 
  change (startswith "/" "raider.yaml") with false. cbv iota.
  destruct (String.eqb_spec d "") as [->|Hd]; [done|]. cbn [orb].
  destruct (endswith "/" d) eqn:E.
  - apply endswith_inv in E as [a ->]. rewrite append_assoc.
    apply basename_slash.
  - apply (basename_slash d).
Qed.

Section Calc.
Context {W Obj Date Bounds Artifact Delay : Type}.
Context `{Countable Date}.
Context {shell : Shell W} {validators : Validators W Obj}.
Context {checker : Checker W Obj Date Bounds}.
Context {engines : Engines W Date Bounds Artifact Delay}.

#[local] Abbreviation cstate :=
  (cstate (W := W) (Obj := Obj) (Date := Date) (Bounds := Bounds)
          (Artifact := Artifact)).

Lemma basename_template_file : basename template_file = "raider.yaml".
Proof. apply basename_join. Qed.

(** X18.  Which template is read when [-g] is not given.  A custom path
    that is not empty is read, as an absolute path, when it names a
    file; otherwise [FileNotFoundError] is raised with the path as
    given and nothing is read.  Without a custom path the run asks
    whether a file named [raider.yaml] exists in the current directory:
    if not, the usage and the examples are printed and [SystemExit] is
    raised with the message; if so, the template read is the one
    installed with the package, not the file found. *)
Theorem template_choice (args : Args) (s : cstate) :
  generate_template args = false ->
  let w := tworld (reading s) in
  let default :=
    if isfile w "raider.yaml"
    then calcDelays_from template_file (args_download_only args) s
    else (say s [Usage; Echo examples],
          Raises (SystemExit (Some ("ERROR: " +:+ no_template_msg)))) in
  calcDelays_parsed args s
  = match customTemplateFile args with
    | Some path =>
        if String.eqb path "" then default
        else if isfile w path
             then calcDelays_from (abspath w path) (args_download_only args) s
             else (s, Raises (FileNotFoundError path))
    | None => default
    end.
Proof.
  intros Hg w default. subst w default. unfold calcDelays_parsed.
  rewrite Hg, basename_template_file. cbn [negb andb].
  destruct (customTemplateFile args) as [path|]; cbn [given].
  - destruct (String.eqb path ""); cbn [negb andb].
    + rewrite andb_true_r. by destruct (isfile _ "raider.yaml").
    + by destruct (isfile _ path).
  - rewrite andb_true_r. by destruct (isfile _ "raider.yaml").
Qed.

(** X19.  [-g] comes first.  Whatever the other arguments, the packaged
    template is copied to [raider.yaml] in the current directory, the
    name the check for a default template looks for, and the run ends
    there: with [SystemExit] and no message after logging the
    destination, or with the exception of the copy.  No template is
    read, [DEFAULT_DICT] is left as it was and no engine is called. *)
Theorem generate_template_exits (args : Args) (s : cstate) :
  generate_template args = true ->
  let w := tworld (reading s) in
  let dst := path_join (getcwd w) "raider.yaml" in
  let copy := copyfile w template_file dst in
  let run := calcDelays_parsed args s in
  basename dst = basename template_file /\
  reading run.1 = TState copy.1 (DEFAULT_DICT (reading s)) (tlog (reading s)) /\
  batch run.1 = batch s /\
  console run.1
  = console s ++ CopyCall template_file dst
                 :: match copy.2 with
                    | Returns _ => [Logged "Wrote %s" dst]
                    | Raises _ => []
                    end /\
  run.2 = Raises match copy.2 with
                 | Returns _ => SystemExit None
                 | Raises e => e
                 end.
Proof.
  intros Hg w dst copy run. subst run copy. unfold calcDelays_parsed.
  rewrite Hg. fold w. fold dst.
  split; [by rewrite basename_template_file; apply basename_join|].
  by destruct (copyfile w template_file dst) as [w' [u|e]].
Qed.

(** X20.  What a run that returns has gone through.  [-g] was not
    given; the template was found (the custom file, or [raider.yaml] in
    the current directory for the packaged one) and read; [checkArgs]
    accepted it; the parameters have [verbose] set; and the mapping is
    the one the loop returned, started on the world the check left.
    Nothing was written to the console.  With [verbose] unset no run
    returns: line 177 evaluates [logging.INFO] in a module that does
    not import [logging]. *)
Theorem returning_run (args : Args) (s s' : cstate)
    (delay_dct : gmap Date (string * string)) :
  calcDelays_parsed args s = (s', Returns delay_dct) ->
  let w := tworld (reading s) in
  generate_template args = false /\
  exists fname r1 template w2 params s3,
    match customTemplateFile args with
    | Some path =>
        if String.eqb path ""
        then isfile w "raider.yaml" = true /\ fname = template_file
        else isfile w path = true /\ fname = abspath w path
    | None => isfile w "raider.yaml" = true /\ fname = template_file
    end /\
    read_template_file fname (reading s) = (r1, Returns template) /\
    checkArgs (tworld r1) template = (w2, Returns params) /\
    verbose params = true /\
    calcDelays_loop params (args_download_only args) (State w2 (batch s))
    = (s3, Ok delay_dct) /\
    s' = CState (TState (world s3) (DEFAULT_DICT r1) (tlog r1))
                (console s) (trace s3).
Proof.
  intros Hrun w.
  assert (forall fname,
             calcDelays_from fname (args_download_only args) s
             = (s', Returns delay_dct) ->
             exists r1 template w2 params s3,
               read_template_file fname (reading s) = (r1, Returns template) /\
               checkArgs (tworld r1) template = (w2, Returns params) /\
               verbose params = true /\
               calcDelays_loop params (args_download_only args)
                               (State w2 (batch s))
               = (s3, Ok delay_dct) /\
               s' = CState (TState (world s3) (DEFAULT_DICT r1) (tlog r1))
                           (console s) (trace s3)) as Hfrom.
  { intros fname. unfold calcDelays_from.
    destruct (read_template_file fname (reading s)) as [r1 [t|e]]; [|done].
    destruct (checkArgs (tworld r1) t) as [w2 [params|e]] eqn:Hc; [|done].
    destruct (verbose params) eqn:Hv; [|done]. cbn [negb].
    destruct (calcDelays_loop _ _ _) as [s3 [d|e]] eqn:Hl; [|done].
    intros [= Hs Hd]. subst d. by exists r1, t, w2, params, s3. }
  destruct (generate_template args) eqn:Hg.
  { unfold calcDelays_parsed in Hrun. rewrite Hg in Hrun.
    by destruct (copyfile _ _ _) as [w' [u|e]]. }
  split; [done|].
  unfold calcDelays_parsed in Hrun.
  rewrite Hg, basename_template_file in Hrun. cbn [negb andb] in Hrun.
  rewrite andb_true_r in Hrun. fold w in Hrun.
  destruct (customTemplateFile args) as [path|]; cbn [given] in Hrun.
  - destruct (String.eqb path ""); cbn [negb andb] in Hrun.
    + destruct (isfile w "raider.yaml") eqn:Hf; [|done].
      destruct (Hfrom _ Hrun) as (r1 & t & w2 & params & s3 & Hrest).
      by exists template_file, r1, t, w2, params, s3.
    + destruct (isfile w path) eqn:Hf; [|done]. cbn [negb] in Hrun.
      destruct (Hfrom _ Hrun) as (r1 & t & w2 & params & s3 & Hrest).
      by exists (abspath w path), r1, t, w2, params, s3.
  - destruct (isfile w "raider.yaml") eqn:Hf; [|done].
    destruct (Hfrom _ Hrun) as (r1 & t & w2 & params & s3 & Hrest).
    by exists template_file, r1, t, w2, params, s3.
Qed.

End Calc.

(** *** The theorems at a concrete shell *)

Lemma returns_shape {S A : Type} (x : S * outcome A) :
  match x.2 with Returns _ => true | Raises _ => false end = true ->
  exists a, x = (x.1, Returns a).
Proof. destruct x as [s [a|e]]; [by exists a | done]. Qed.

Lemma template_choice_witness :
  calcDelays_parsed (shell := demo_shell) (validators := demo_validators)
    (checker := demo_checker) (engines := demo_engines)
    {| customTemplateFile := None; generate_template := false;
       args_download_only := false |} demo_console
  = calcDelays_from (validators := demo_validators)
      (checker := demo_checker) (engines := demo_engines)
      "/opt/RAiDER/cli/raider.yaml" false demo_console.
Proof.
  exact (template_choice (shell := demo_shell) (validators := demo_validators)
           (checker := demo_checker) (engines := demo_engines)
           {| customTemplateFile := None; generate_template := false;
              args_download_only := false |} demo_console eq_refl).
Defined.

Lemma generate_template_exits_witness :
  let run :=
    calcDelays_parsed (shell := demo_shell) (validators := demo_validators)
      (checker := demo_checker) (engines := demo_engines)
      {| customTemplateFile := Some "custom.yaml"; generate_template := true;
         args_download_only := false |} demo_console in
  console run.1 = [CopyCall "/opt/RAiDER/cli/raider.yaml" "/work/raider.yaml";
                   Logged "Wrote %s" "/work/raider.yaml"] /\
  run.2 = Raises (SystemExit None).
Proof.
  destruct (generate_template_exits
              (shell := demo_shell) (validators := demo_validators)
              (checker := demo_checker) (engines := demo_engines)
              {| customTemplateFile := Some "custom.yaml";
                 generate_template := true;
                 args_download_only := false |} demo_console eq_refl)
    as (_ & _ & _ & Hconsole & Hrun).
  split; [exact Hconsole | exact Hrun].
Defined.

Lemma returning_run_witness :
  exists (fname : string) (template : gmap string (pyval string))
         (params : Params Z (list Z)),
    fname = "/work/custom.yaml" /\
    (read_template_file (validators := demo_validators) fname demo_reading).2
    = Returns template /\
    verbose params = true.
Proof.
  destruct (returns_shape
              (calcDelays_parsed
                 (shell := demo_shell) (validators := demo_validators)
                 (checker := demo_checker) (engines := demo_engines)
                 {| customTemplateFile := Some "custom.yaml";
                    generate_template := false;
                    args_download_only := false |} demo_console))
    as [d Hd]; [by vm_compute|].
  destruct (returning_run _ _ _ _ Hd)
    as (_ & fname & r1 & t & w2 & params & s3 & [_ ->] & Hread & _ & Hv & _).
  exists "/work/custom.yaml", t, params.
  split; [done|]. split; [|done].
  change (reading demo_console) with demo_reading in Hread.
  change (abspath (tworld demo_reading) "custom.yaml")
    with "/work/custom.yaml" in Hread.
  by rewrite Hread.
Defined.

End CliSpec.
